(** * The answer-page backend (app1.py): retrieval, ranking, memoisation
      and page persistence, embedded in Rocq.

    Python values are modelled as follows.
    - A [str] is the list of its Unicode code points ([list N]), so [len],
      slicing and [str.replace] count characters the way Python does.
    - [time.time()] readings and TTLs are seconds in [Z]; relevance scores
      are rationals ([Q]); only comparisons of them are used by the code.
    - The module-level dictionaries [PAGES] and [ANSWER_CACHE] are [gmap]s,
      the three content caches are records; all of them live in one
      [World] that every operation threads explicitly.
    - Library functions (str.lower, hashlib, bleach, slugify, json,
      rank_bm25, werkzeug) are the fields of the class [PyLib]; what the
      network answers during one call (HTTP, rerank, generate), the
      clock readings and the random page id are the fields of [Env].
    - A call that can raise returns an [option], or runs in the monad
      [M] when it also changes the world; [None] is the exception.  That
      includes the library calls made outside any [try], such as the
      construction of the lexical index ([BM25Okapi]). *)

From Stdlib Require Import Ascii String.
From Stdlib Require Import ZArith NArith QArith Lia Decimal DecimalNat.
From stdpp Require Import base option list sorting gmap.

Set Warnings "-register-all".

Abbreviation str := (list N).

(** ** Python string primitives *)
Module Py.

(** An ASCII literal as a Python string. *)
Definition lit (s : string) : str :=
  map N_of_ascii (list_ascii_of_string s).

Definition dq : str := [34%N].
Definition nl : str := [10%N].

(** [Py_UNICODE_ISSPACE]: the set used by [str.strip()] and by the
    regular-expression class [\s] on [str] patterns. *)
Definition is_space (c : N) : bool :=
  ((9 <=? c) && (c <=? 13) || (28 <=? c) && (c <=? 32)
   || (c =? 133) || (c =? 160) || (c =? 5760)
   || (8192 <=? c) && (c <=? 8202) || (c =? 8232) || (c =? 8233)
   || (c =? 8239) || (c =? 8287) || (c =? 12288))%N.

Fixpoint lstrip (s : str) : str :=
  match s with
  | c :: s' => if is_space c then lstrip s' else s
  | [] => []
  end.

Definition rstrip (s : str) : str := rev (lstrip (rev s)).

(** [s.strip()] *)
Definition strip (s : str) : str := rstrip (lstrip s).

(** [s[i:j]] for [0 <= i] and [0 <= j]. *)
Definition slice (s : str) (i j : nat) : str := take (j - i) (drop i s).

(** [s.startswith(p)] *)
Fixpoint startswith (p s : str) : bool :=
  match p, s with
  | [], _ => true
  | a :: p', b :: s' => (a =? b)%N && startswith p' s'
  | _ :: _, [] => false
  end.

(** [s.replace(old, new)] for a non-empty [old]: occurrences are taken
    left to right and do not overlap.  [skip] counts the characters of
    the occurrence just replaced that are still to be passed over. *)
Fixpoint replace_from (old new : str) (skip : nat) (s : str) : str :=
  match s with
  | [] => []
  | c :: s' =>
      match skip with
      | S k => replace_from old new k s'
      | O =>
          if startswith old s
          then new ++ replace_from old new (length old - 1) s'
          else c :: replace_from old new 0 s'
      end
  end.

Definition replace (old new s : str) : str := replace_from old new 0 s.

(** [old in s] *)
Fixpoint contains (old s : str) : bool :=
  startswith old s ||
  match s with
  | [] => false
  | _ :: s' => contains old s'
  end.

(** [s.find(c)] for a one-character [c]; [None] stands for [-1]. *)
Fixpoint find_char (c : N) (s : str) : option nat :=
  match s with
  | [] => None
  | x :: s' => if (x =? c)%N then Some 0 else S <$> find_char c s'
  end.

(** [s.rfind(c)] for a one-character [c]; [None] stands for [-1]. *)
Fixpoint rfind_char (c : N) (s : str) : option nat :=
  match s with
  | [] => None
  | x :: s' =>
      match rfind_char c s' with
      | Some j => Some (S j)
      | None => if (x =? c)%N then Some 0 else None
      end
  end.

Definition digit_char (d : nat) : N := (48 + N.of_nat d)%N.

Fixpoint uint_chars (u : Decimal.uint) : str :=
  match u with
  | Decimal.Nil => []
  | Decimal.D0 u => 48%N :: uint_chars u
  | Decimal.D1 u => 49%N :: uint_chars u
  | Decimal.D2 u => 50%N :: uint_chars u
  | Decimal.D3 u => 51%N :: uint_chars u
  | Decimal.D4 u => 52%N :: uint_chars u
  | Decimal.D5 u => 53%N :: uint_chars u
  | Decimal.D6 u => 54%N :: uint_chars u
  | Decimal.D7 u => 55%N :: uint_chars u
  | Decimal.D8 u => 56%N :: uint_chars u
  | Decimal.D9 u => 57%N :: uint_chars u
  end.

(** [str(i)] of a non-negative [int]. *)
Definition dec (i : nat) : str := uint_chars (Nat.to_uint i).


(** [sep.join(parts)] *)
Fixpoint join (sep : str) (parts : list str) : str :=
  match parts with
  | [] => []
  | [p] => p
  | p :: ps => p ++ sep ++ join sep ps
  end.

End Py.

Import Py.

(** ** Utility functions *)

(** The head-of-string matcher of the pattern [\s+\n]: the length of the
    longest prefix made of one or more whitespace characters followed by
    a newline (the newline is itself whitespace, so the greedy [\s+]
    backtracks to the last newline of the leading whitespace run). *)
Fixpoint ws_nl_scan (s : str) (i : nat) (best : option nat) : option nat :=
  match s with
  | c :: s' =>
      if is_space c
      then ws_nl_scan s' (S i) (if (c =? 10)%N then Some (S i) else best)
      else best
  | [] => best
  end.

Definition ws_nl_match (s : str) : option nat :=
  match s with
  | c :: s' => if is_space c then ws_nl_scan s' 1 None else None
  | [] => None
  end.

(** [re.sub(r"\s+\n", "\n", s)] *)
Fixpoint sub_ws_nl_from (skip : nat) (s : str) : str :=
  match s with
  | [] => []
  | c :: s' =>
      match skip with
      | S k => sub_ws_nl_from k s'
      | O =>
          match ws_nl_match s with
          | Some k => 10%N :: sub_ws_nl_from (k - 1) s'
          | None => c :: sub_ws_nl_from 0 s'
          end
      end
  end.

Definition sub_ws_nl (s : str) : str := sub_ws_nl_from 0 s.

(** The [while i < n] loop of [chunk_text]; [None] when the fuel runs
    out.  [max_chars] and [overlap] are non-negative. *)
Fixpoint chunk_loop (fuel max_chars overlap : nat) (text : str) (i : nat)
    (chunks : list str) : option (list str) :=
  let n := length text in
  if decide (i < n) then
    match fuel with
    | O => None
    | S fuel' =>
        let end_ := Nat.min (i + max_chars) n in
        let chunk := strip (slice text i end_) in
        let chunks' := if chunk is [] then chunks else chunks ++ [chunk] in
        chunk_loop fuel' max_chars overlap text
          (Nat.max (end_ - overlap) end_) chunks'
    end
  else Some chunks.

Definition chunk_text_with (max_chars overlap : nat) (text : str)
    : option (list str) :=
  let text := sub_ws_nl text in
  chunk_loop (length text) max_chars overlap text 0 [].

(** [chunk_text(text)] with the default [max_chars=1200, overlap=120]. *)
Definition chunk_text (text : str) : option (list str) :=
  chunk_text_with 1200 120 text.

(** The reassembly the specification describes: the chunks in order,
    each chunk after the first without its leading [overlap] characters. *)
Definition spec_reassemble (overlap : nat) (chunks : list str) : str :=
  match chunks with
  | [] => []
  | c :: cs => c ++ concat (map (drop overlap) cs)
  end.

(** The non-whitespace characters of a text, in order. *)
Definition nonspace (s : str) : str :=
  List.filter (fun c => negb (is_space c)) s.

(** What every chunk satisfies: it is not empty, has at most [max_chars]
    characters, has no whitespace at either end and is a contiguous
    piece of [text]. *)
Definition chunk_ok (max_chars : nat) (text c : str) : Prop :=
  c <> [] /\ length c <= max_chars /\ strip c = c
  /\ exists pre post, text = pre ++ c ++ post.

Record Citation := { c_title : str; c_url : str }.

Definition cite_marker (i : nat) : str := lit "[" ++ dec i ++ lit "]".

Definition cite_anchor (i : nat) : str :=
  lit "<sup class=" ++ dq ++ lit "cite" ++ dq ++ lit "><a href=" ++ dq
  ++ lit "#src-" ++ dec i ++ dq ++ lit ">" ++ dec i ++ lit "</a></sup>".

(** The body of [for i in range(1, len(citations) + 1)]. *)
Definition linkify_step (out : str) (i : nat) : str :=
  replace (cite_marker i) (cite_anchor i) out.

Definition linkify_citations (html_str : str) (citations : list Citation)
    : str :=
  match citations with
  | [] => html_str
  | _ => fold_left linkify_step (seq 1 (length citations)) html_str
  end.

(** [re.sub(r"<[^>]+>", "", s)]: at a [<], the class [[^>]+] takes the
    characters up to the next [>]; the tag matches when there is at
    least one of them and the [>] is there. *)
Fixpoint tag_scan (s : str) (i : nat) : option nat :=
  match s with
  | [] => None
  | c :: s' =>
      if (c =? 62)%N then (if decide (i = 0) then None else Some (i + 2))
      else tag_scan s' (S i)
  end.

Definition tag_match (s : str) : option nat :=
  match s with
  | c :: s' => if (c =? 60)%N then tag_scan s' 0 else None
  | [] => None
  end.

Fixpoint sub_tags_from (skip : nat) (s : str) : str :=
  match s with
  | [] => []
  | c :: s' =>
      match skip with
      | S k => sub_tags_from k s'
      | O =>
          match tag_match s with
          | Some k => sub_tags_from (k - 1) s'
          | None => c :: sub_tags_from 0 s'
          end
      end
  end.

Definition _strip_html (html : str) : str := strip (sub_tags_from 0 html).

(** ** Values decoded from JSON *)

(** A number is kept as its truth value and its printed form. *)
Inductive json :=
  | JNull
  | JBool (b : bool)
  | JNum (nonzero : bool) (text : str)
  | JStr (s : str)
  | JArr (items : list json)
  | JObj (fields : list (str * json)).

(** Python's truth value of a decoded value. *)
Definition truthy (v : json) : bool :=
  match v with
  | JNull => false
  | JBool b => b
  | JNum nz _ => nz
  | JStr s => if s is [] then false else true
  | JArr l => if l is [] then false else true
  | JObj kv => if kv is [] then false else true
  end.

Fixpoint assoc (key : str) (kv : list (str * json)) : option json :=
  match kv with
  | [] => None
  | (k, v) :: kv' => if decide (k = key) then Some v else assoc key kv'
  end.

(** [d.get(key, default)]; [None] is the [AttributeError] raised when
    [d] is not a dict. *)
Definition dict_get (d : json) (key : str) (dflt : json) : option json :=
  match d with
  | JObj kv => Some (default dflt (assoc key kv))
  | _ => None
  end.

(** [for x in v]: a list yields its items, a string its characters, a
    dict its keys; anything else raises [TypeError] ([None]). *)
Definition iterate (v : json) : option (list json) :=
  match v with
  | JArr l => Some l
  | JStr s => Some (map (fun c => JStr [c]) s)
  | JObj kv => Some (map (fun kv => JStr kv.1) kv)
  | _ => None
  end.

(** [v or []] *)
Definition or_empty (v : json) : json := if truthy v then v else JArr [].

(** ** Library functions the program calls *)

Class PyLib := {
  (** [str.lower()] and [str.upper()] *)
  py_lower : str -> str;
  py_upper : str -> str;
  (** [hashlib.sha256(s.encode("utf-8")).hexdigest()] *)
  sha256_hex : str -> str;
  (** [bleach.clean(html, tags=..., attributes=..., strip=True)] *)
  bleach_clean : str -> list str -> list (str * list str) -> str;
  (** [slugify(s)] of a string, and of any other value ([None] when it
      raises) *)
  slugify : str -> str;
  slugify_other : json -> option str;
  (** [werkzeug.utils.secure_filename] *)
  secure_filename : str -> str;
  (** [json.loads(s)]; [None] when it raises *)
  json_loads : str -> option json;
  (** [str(v)] of a decoded value that is not a string *)
  py_str : json -> str;
  (** [bm25.get_scores(query)[i]] of an index [bm25] that
      [BM25Okapi(corpus)] has built; the constructor itself can raise,
      see [BM25Okapi] *)
  get_scores : list (list str) -> list str -> nat -> Q;
}.

(** ** Configuration *)

Definition BRAND_NAME : str := lit "Agent42 Labs".
Definition FINAL_DOCS : Z := 6.
Definition RERANK_THRESHOLD : Q := (20 # 100)%Q.
Definition CONTACT_EMAIL : str := lit "hello@agent42labs.com".
Definition CONTACT_PHONE : str := lit "+91 7027119799".
Definition CONTACT_URL : str := lit "https://agent42labs.com/contact-us".
Definition PAGES_TTL_SEC : Z := 86400.
Definition ANSWER_TTL_SEC : Z := 43200.
Definition TTL : Z := 300.

Definition ALLOWED_TAGS : list str :=
  map lit
    [ "article"; "section"; "header"; "footer"; "nav";
      "h1"; "h2"; "h3"; "h4"; "p"; "ul"; "ol"; "li";
      "a"; "img"; "figure"; "figcaption"; "blockquote";
      "code"; "pre"; "em"; "strong"; "hr"; "br"; "div"; "span";
      "table"; "thead"; "tbody"; "tr"; "th"; "td"; "sup" ]%string.

Definition ALLOWED_ATTRS : list (str * list str) :=
  [ (lit "a", map lit ["href"; "title"; "target"; "rel"]%string);
    (lit "img", map lit ["src"; "alt"; "width"; "height"; "loading";
                         "decoding"; "sizes"; "srcset"]%string);
    (lit "*", map lit ["class"; "id"; "data-*"]%string) ].

(** ** Data *)

(** A cached chunk: [{"post_id", "title", "url", "text_chunk"}]. *)
Record Doc := {
  post_id : option Z;
  d_title : str;
  d_url : str;
  text_chunk : str;
}.

(** A cached image: the dict built by the media fetchers; [i_score] is
    the ["score"] key the compose pipeline adds to it. *)
Record Img := {
  i_id : str;
  i_url : str;
  i_title : str;
  i_alt : str;
  i_caption : str;
  i_width : option Z;
  i_height : option Z;
  i_srcset : str;
  i_sizes : str;
  i_score : option nat;
}.

(** [PAGES[pid]] *)
Record Page := { p_title : json; p_html : str; p_ts : Z }.

(** [ANSWER_CACHE[key]] *)
Record Memo := { page_id : str; m_ts : Z }.

Record DocCache := { dc_ts : Z; dc_docs : list Doc }.
Record MediaCache := { mc_ts : Z; mc_imgs : list Img }.

(** A ranked source handed to the planner. *)
Record Source := { s_title : str; s_url : str; s_text_chunk : str }.

(** One element of [rr.results]. *)
Record RerankResult := { rr_index : Z; relevance_score : option Q }.

(** What the pipeline asks of the outside world. *)
Inductive Endpoint := Posts | Pages | Media.

Inductive Event :=
  | EvGet (e : Endpoint) (page : nat)
  | EvGetAttachments (parent : Z)
  | EvRerank (query : str) (documents : list str) (top_n : Z)
  | EvGenerate (prompt : str).

(** The process-wide state, and the requests made so far. *)
Record World := {
  PAGES : gmap str Page;
  ANSWER_CACHE : gmap str Memo;
  POSTS_CACHE : DocCache;
  PAGES_CACHE : DocCache;
  MEDIA_CACHE : MediaCache;
  trace : list Event;
}.

Definition initial_world : World := {|
  PAGES := ∅;
  ANSWER_CACHE := ∅;
  POSTS_CACHE := {| dc_ts := 0; dc_docs := [] |};
  PAGES_CACHE := {| dc_ts := 0; dc_docs := [] |};
  MEDIA_CACHE := {| mc_ts := 0; mc_imgs := [] |};
  trace := [];
|}.

Definition set_PAGES (f : gmap str Page -> gmap str Page) (w : World)
    : World :=
  {| PAGES := f (PAGES w); ANSWER_CACHE := ANSWER_CACHE w;
     POSTS_CACHE := POSTS_CACHE w; PAGES_CACHE := PAGES_CACHE w;
     MEDIA_CACHE := MEDIA_CACHE w; trace := trace w |}.

Definition set_ANSWER_CACHE (f : gmap str Memo -> gmap str Memo)
    (w : World) : World :=
  {| PAGES := PAGES w; ANSWER_CACHE := f (ANSWER_CACHE w);
     POSTS_CACHE := POSTS_CACHE w; PAGES_CACHE := PAGES_CACHE w;
     MEDIA_CACHE := MEDIA_CACHE w; trace := trace w |}.

Definition set_POSTS_CACHE (c : DocCache) (w : World) : World :=
  {| PAGES := PAGES w; ANSWER_CACHE := ANSWER_CACHE w;
     POSTS_CACHE := c; PAGES_CACHE := PAGES_CACHE w;
     MEDIA_CACHE := MEDIA_CACHE w; trace := trace w |}.

Definition set_PAGES_CACHE (c : DocCache) (w : World) : World :=
  {| PAGES := PAGES w; ANSWER_CACHE := ANSWER_CACHE w;
     POSTS_CACHE := POSTS_CACHE w; PAGES_CACHE := c;
     MEDIA_CACHE := MEDIA_CACHE w; trace := trace w |}.

Definition set_MEDIA_CACHE (c : MediaCache) (w : World) : World :=
  {| PAGES := PAGES w; ANSWER_CACHE := ANSWER_CACHE w;
     POSTS_CACHE := POSTS_CACHE w; PAGES_CACHE := PAGES_CACHE w;
     MEDIA_CACHE := c; trace := trace w |}.

Definition emit (evs : list Event) (w : World) : World :=
  {| PAGES := PAGES w; ANSWER_CACHE := ANSWER_CACHE w;
     POSTS_CACHE := POSTS_CACHE w; PAGES_CACHE := PAGES_CACHE w;
     MEDIA_CACHE := MEDIA_CACHE w; trace := trace w ++ evs |}.

(** ** What the outside world answers *)

(** An item of a listing as the content source documents it. *)
Record RawPost := {
  rp_id : option Z;
  rp_title : str;     (* title.rendered *)
  rp_link : str;
  rp_content : str;   (* content.rendered *)
}.

Record RawMedia := {
  rm_id : Z;
  rm_media_type : str;
  rm_source_url : str;
  rm_title : str;     (* title.rendered *)
  rm_alt_text : str;
  rm_caption : str;   (* caption.rendered *)
  rm_width : option Z;
  rm_height : option Z;
  rm_sizes : list (str * Z);   (* media_details.sizes: source_url, width *)
}.

(** The outcome of one [http.get]: the call raises, or answers with a
    status, a text and a body.  The body is [None] when [r.json()]
    raises; an item is [None] when handling it raises. *)
Inductive HttpReply (A : Type) :=
  | NetFail
  | Reply (status : Z) (text : str) (body : option (list (option A))).
Arguments NetFail {A}.
Arguments Reply {A} status text body.

(** Everything one request handler reads from outside the process: the
    clock at each [time.time()], the replies of the content source, the
    reranker and the planner, and the random page id. *)
Record Env := {
  now_cleanup_answers : Z;
  now_fetch_posts : Z;
  now_fetch_pages : Z;
  now_fetch_media : Z;
  now_cleanup_pages : Z;
  now_save_page : Z;
  now_memo : Z;
  get_posts : nat -> HttpReply RawPost;
  get_pages : nat -> HttpReply RawPost;
  get_media : nat -> HttpReply RawMedia;
  get_attachments : Z -> HttpReply RawMedia;
  (** [co.rerank] in [search_docs]; [None] when it raises *)
  rerank_search : str -> list str -> Z -> option (list RerankResult);
  (** [co.rerank] of the confidence probe; [None] when it raises *)
  rerank_probe : str -> list str -> Z -> option (list RerankResult);
  (** [co.generate(...).generations[0].text or ""]; [None] when it
      raises *)
  generate : str -> option str;
  (** [secrets.token_urlsafe(10)] *)
  token_urlsafe : str;
}.

(** ** State and exceptions *)

(** A computation on the world that returns a value or raises. *)
Definition M (A : Type) : Type := World -> option A * World.

Definition ret {A} (a : A) : M A := fun w => (Some a, w).
Definition raise {A} : M A := fun w => (None, w).
Definition bind {A B} (m : M A) (k : A -> M B) : M B :=
  fun w =>
    match m w with
    | (Some a, w') => k a w'
    | (None, w') => (None, w')
    end.
(** A step that cannot raise. *)
Definition run {A} (f : World -> A * World) : M A :=
  fun w => let '(a, w') := f w in (Some a, w').
Definition lift {A} (o : option A) : M A :=
  match o with Some a => ret a | None => raise end.

Notation "'let*' x := m 'in' k" := (bind m (fun x => k))
  (at level 10, x pattern, m at level 100, k at level 200).

(** ** Slices and indexing with Python integers *)

(** [l[:m]] *)
Definition py_take {A} (m : Z) (l : list A) : list A :=
  if (m <? 0)%Z then take (Z.to_nat (Z.of_nat (length l) + m)) l
  else take (Z.to_nat m) l.

(** [l[i]]; [None] is [IndexError]. *)
Definition py_index {A} (l : list A) (i : Z) : option A :=
  if (0 <=? i)%Z then l !! Z.to_nat i
  else if (- Z.of_nat (length l) <=? i)%Z
       then l !! Z.to_nat (Z.of_nat (length l) + i)
       else None.

(** ** Utility functions, continued *)

Section Program.
Context {L : PyLib}.

Definition trace_id_for (text : str) : str := take 16 (sha256_hex text).

Definition sanitize_html (html_str : str) : str :=
  bleach_clean html_str ALLOWED_TAGS ALLOWED_ATTRS.

Definition is_tok_char (c : N) : bool :=
  ((97 <=? c) && (c <=? 122) || (48 <=? c) && (c <=? 57))%N.

(** The maximal runs of [[a-z0-9]]; [cur] is the run being read. *)
Fixpoint tok_runs (s : str) (cur : str) : list str :=
  match s with
  | [] => if cur is [] then [] else [cur]
  | c :: s' =>
      if is_tok_char c then tok_runs s' (cur ++ [c])
      else if cur is [] then tok_runs s' []
      else cur :: tok_runs s' []
  end.

(** [re.findall(r"[a-z0-9]+", text.lower())] *)
Definition _tok (text : str) : list str := tok_runs (py_lower text) [].

Fixpoint dedupe_loop (items : list Citation) (seen : list str)
    (out : list Citation) : list Citation :=
  match items with
  | [] => out
  | c :: rest =>
      let key :=
        py_lower (strip (if c_url c is [] then c_title c else c_url c)) in
      if (if key is [] then true else false) || bool_decide (key ∈ seen)
      then dedupe_loop rest seen out
      else dedupe_loop rest (key :: seen) (out ++ [c])
  end.

Definition dedupe_citations (items : list Citation) : list Citation :=
  dedupe_loop items [] [].

Definition _new_id (env : Env) : str := token_urlsafe env.

(** [_cleanup_pages()] with [now] the clock reading it takes. *)
Definition _cleanup_pages (now : Z) (w : World) : World :=
  set_PAGES
    (filter (fun kv => ¬ (now - p_ts kv.2 > PAGES_TTL_SEC)%Z)) w.

(** [_cleanup_answers()] with [now] the clock reading it takes. *)
Definition _cleanup_answers (now : Z) (w : World) : World :=
  set_ANSWER_CACHE
    (filter (fun kv => ¬ (now - m_ts kv.2 > ANSWER_TTL_SEC)%Z)) w.

Definition _save_page (env : Env) (title : json) (html : str) (w : World)
    : str * World :=
  let w := _cleanup_pages (now_cleanup_pages env) w in
  let pid := _new_id env in
  (pid,
   set_PAGES
     (insert pid
        {| p_title := title; p_html := html; p_ts := now_save_page env |})
     w).

(** [f"{b}"] of a [bool] *)
Definition str_of_bool (b : bool) : str :=
  if b then lit "True" else lit "False".

(** [re.sub(r"\s+", " ", s)] *)
Fixpoint collapse_ws (s : str) (in_run : bool) : str :=
  match s with
  | [] => []
  | c :: s' =>
      if is_space c
      then (if in_run then collapse_ws s' true
            else 32%N :: collapse_ws s' true)
      else c :: collapse_ws s' false
  end.

(** The normalised question of [_cache_key]. *)
Definition norm_question (question : str) : str :=
  collapse_ws (py_lower (strip question)) false.

Definition _cache_key (question layout : str) (include_citations : bool)
    (brand_class primary : str) : str :=
  let norm := norm_question question in
  let key :=
    norm ++ lit "|" ++ layout ++ lit "|" ++ str_of_bool include_citations
    ++ lit "|" ++ brand_class ++ lit "|" ++ primary in
  take 24 (sha256_hex key).

(** ** Content fetchers *)

(** [r.raise_for_status()] raises on a 4xx or 5xx status. *)
Definition is_error_status (status : Z) : bool :=
  ((400 <=? status) && (status <? 600))%Z.

(** The [for p in items] loop: the entries of the items handled, and
    whether the loop ran to its end without raising. *)
Fixpoint handle_items {A B} (handle : A -> list B)
    (items : list (option A)) (out : list B) : list B * bool :=
  match items with
  | [] => (out, true)
  | Some a :: rest => handle_items handle rest (out ++ handle a)
  | None :: rest => (out, false)
  end.

(** The [for page in range(1, max_pages + 1)] loop shared by the three
    listing fetchers: [page] is the page to request, [remaining] the
    number of pages still allowed.  It returns the entries gathered and
    the number of requests made. *)
Fixpoint fetch_loop {A B} (handle : A -> list B)
    (get : nat -> HttpReply A) (per_page page remaining : nat)
    (out : list B) : list B * nat :=
  match remaining with
  | O => (out, 0)
  | S remaining' =>
      let stop := (out, 1) in
      match get page with
      | NetFail => stop
      | Reply status text body =>
          if (status =? 400)%Z
             && contains (lit "rest_post_invalid_page_number") text
          then stop
          else if is_error_status status then stop
          else
            match body with
            | None => stop
            | Some [] => stop
            | Some items =>
                let '(out', finished) := handle_items handle items out in
                if negb finished then (out', 1)
                else if decide (length items < per_page) then (out', 1)
                else
                  let '(res, n) :=
                    fetch_loop handle get per_page (S page) remaining' out'
                  in (res, S n)
            end
      end
  end.

Definition chunks_of (content : str) : list str :=
  default [] (chunk_text content).

(** The body of [for p in items] in [fetch_wp_posts] and
    [fetch_wp_pages]. *)
Definition post_docs (p : RawPost) : list Doc :=
  let title :=
    _strip_html (if rp_title p is [] then lit "Untitled" else rp_title p) in
  let link := rp_link p in
  let content := _strip_html (rp_content p) in
  map (fun ch => {| post_id := rp_id p; d_title := title; d_url := link;
                    text_chunk := ch |})
      (chunks_of content).

(** [str(z)] of an [int] *)
Definition dec_Z (z : Z) : str :=
  if (z <? 0)%Z then lit "-" ++ dec (Z.to_nat (- z)) else dec (Z.to_nat z).

Fixpoint insert_by_width (x : Z * str) (l : list (Z * str))
    : list (Z * str) :=
  match l with
  | [] => [x]
  | y :: l' =>
      if (x.1 <=? y.1)%Z then x :: l else y :: insert_by_width x l'
  end.

(** [parts.sort(key=lambda x: x[0])]: stable, ascending. *)
Definition sort_by_width (parts : list (Z * str)) : list (Z * str) :=
  foldr insert_by_width [] parts.

Definition srcset_parts (sizes : list (str * Z)) : list (Z * str) :=
  omap (fun s : str * Z =>
          let '(u, w) := s in
          if (if u is [] then false else true) && negb (w =? 0)%Z
          then Some (w, u ++ lit " " ++ dec_Z w ++ lit "w")
          else None)
       sizes.

(** The body of [for m in items] in the media fetchers. *)
Definition media_imgs (m : RawMedia) : list Img :=
  if decide (rm_media_type m = lit "image") then
    [ {| i_id := lit "wp_" ++ dec_Z (rm_id m);
         i_url := rm_source_url m;
         i_title := rm_title m;
         i_alt := rm_alt_text m;
         i_caption := _strip_html (rm_caption m);
         i_width := rm_width m;
         i_height := rm_height m;
         i_srcset :=
           join (lit ", ") (map snd (sort_by_width (srcset_parts (rm_sizes m))));
         i_sizes := lit "100vw";
         i_score := None |} ]
  else [].

Definition requests (e : Endpoint) (n : nat) : list Event :=
  map (EvGet e) (seq 1 n).

Definition is_nil {A} (l : list A) : bool :=
  if l is [] then true else false.

Definition fetch_wp_posts (env : Env) (w : World) : list Doc * World :=
  let now := now_fetch_posts env in
  let c := POSTS_CACHE w in
  if negb (is_nil (dc_docs c)) && (now - dc_ts c <? TTL)%Z
  then (dc_docs c, w)
  else
    let '(out, n) := fetch_loop post_docs (get_posts env) 50 1 20 [] in
    (out,
     set_POSTS_CACHE {| dc_ts := now; dc_docs := out |}
       (emit (requests Posts n) w)).

Definition fetch_wp_pages (env : Env) (w : World) : list Doc * World :=
  let now := now_fetch_pages env in
  let c := PAGES_CACHE w in
  if negb (is_nil (dc_docs c)) && (now - dc_ts c <? TTL)%Z
  then (dc_docs c, w)
  else
    let '(out, n) := fetch_loop post_docs (get_pages env) 50 1 10 [] in
    (out,
     set_PAGES_CACHE {| dc_ts := now; dc_docs := out |}
       (emit (requests Pages n) w)).

Definition get_all_docs (env : Env) (w : World) : list Doc * World :=
  let '(posts, w) := fetch_wp_posts env w in
  let '(pages, w) := fetch_wp_pages env w in
  (posts ++ pages, w).

Definition fetch_wp_media (env : Env) (w : World) : list Img * World :=
  let now := now_fetch_media env in
  let c := MEDIA_CACHE w in
  if negb (is_nil (mc_imgs c)) && (now - mc_ts c <? TTL)%Z
  then (mc_imgs c, w)
  else
    let '(imgs, n) := fetch_loop media_imgs (get_media env) 80 1 10 [] in
    (imgs,
     set_MEDIA_CACHE {| mc_ts := now; mc_imgs := imgs |}
       (emit (requests Media n) w)).

(** The [for pid in post_ids] loop of [get_post_attachments]: a failing
    request is logged and the loop goes on with the next id. *)
Fixpoint attachments_loop (env : Env) (post_ids : list Z) (imgs : list Img)
    : list Img :=
  match post_ids with
  | [] => imgs
  | pid :: rest =>
      let imgs' :=
        match get_attachments env pid with
        | NetFail => imgs
        | Reply status _ body =>
            if is_error_status status then imgs
            else match body with
                 | None => imgs
                 | Some items => (handle_items media_imgs items imgs).1
                 end
        end in
      attachments_loop env rest imgs'
  end.

Definition get_post_attachments (env : Env) (post_ids : list Z) (k : Z)
    (w : World) : list Img * World :=
  if is_nil post_ids then ([], w)
  else
    let imgs := attachments_loop env post_ids [] in
    (if (Z.of_nat (length imgs) >? k)%Z then py_take k imgs else imgs,
     emit (map EvGetAttachments post_ids) w).

(** ** Search and ranking *)

Fixpoint insert_desc {A} (key : A -> Q) (x : A) (l : list A) : list A :=
  match l with
  | [] => [x]
  | y :: l' =>
      if Qle_bool (key y) (key x) then x :: l
      else y :: insert_desc key x l'
  end.

(** [sorted(l, key=key, reverse=True)]: descending, and stable (equal
    keys keep their original order). *)
Definition sorted_desc {A} (key : A -> Q) (l : list A) : list A :=
  foldr (insert_desc key) [] l.

(** [BM25Okapi(tokenized)], seen through the scores of the index it
    builds.  [None] is the [ZeroDivisionError] the constructor raises
    when no document has a token: it divides the summed idf by the
    number of distinct terms of the corpus (and the summed document
    length by the number of documents). *)
Definition BM25Okapi (tokenized : list (list str))
    : option (list str -> nat -> Q) :=
  if forallb is_nil tokenized then None else Some (get_scores tokenized).

(** Some chunk of [docs] has a token. *)
Definition has_token (docs : list Doc) : Prop :=
  exists d, d ∈ docs /\ _tok (text_chunk d) <> [].

(** The candidates of [search_docs], from the lexical [scores] of the
    corpus: the documents of the [M] best scores. *)
Definition lexical_candidates (docs : list Doc) (scores : nat -> Q) (k : Z)
    : list Doc :=
  let n := length (map text_chunk docs) in
  let M := Z.max (k * 5) k in
  let top_idx :=
    py_take (Z.min M (Z.of_nat n)) (sorted_desc scores (seq 0 n)) in
  let picked := omap (fun i => docs !! i) top_idx in
  if is_nil picked then py_take M docs else picked.

(** [search_docs(query, k)].  The index is built and the scores are
    taken outside the [try]: when [BM25Okapi] raises, [search_docs]
    raises, after the corpus has been read. *)
Definition search_docs (env : Env) (query : str) (k : Z) : M (list Doc) :=
  fun w =>
  let '(docs, w) := get_all_docs env w in
  if is_nil docs then (Some [], w)
  else
    match BM25Okapi (map _tok (map text_chunk docs)) with
    | None => (None, w)
    | Some bm25 =>
        let scores := bm25 (_tok query) in
        let candidates := lexical_candidates docs scores k in
        let documents := map text_chunk candidates in
        let top_n := Z.min k (Z.of_nat (length candidates)) in
        let w := emit [EvRerank query documents top_n] w in
        match rerank_search env query documents top_n with
        | Some results =>
            if is_nil results then (Some (py_take k candidates), w)
            else
              match mapM (fun r => py_index candidates (rr_index r))
                      results with
              | Some hits => (Some hits, w)
              | None => (Some (py_take k candidates), w)
              end
        | None => (Some (py_take k candidates), w)
        end
    end.

(** ** Planning and rendering *)

(** The opening of the article and its header. *)
Definition article_open (brand_class title summary : str) : str :=
  nl
  ++ lit "    <article class=" ++ dq ++ brand_class ++ dq ++ lit ">" ++ nl
  ++ lit "      <header class=" ++ dq ++ brand_class ++ lit "__header" ++ dq
  ++ lit " role=" ++ dq ++ lit "banner" ++ dq ++ lit ">" ++ nl
  ++ lit "        <h1 class=" ++ dq ++ brand_class ++ lit "__title" ++ dq
  ++ lit ">" ++ title ++ lit "</h1>" ++ nl
  ++ lit "        <p class=" ++ dq ++ brand_class ++ lit "__summary" ++ dq
  ++ lit " aria-live=" ++ dq ++ lit "polite" ++ dq ++ lit ">" ++ summary
  ++ lit "</p>" ++ nl
  ++ lit "      </header>" ++ nl
  ++ lit "    ".

(** The hero figure. *)
Definition hero_figure (brand_class : str) (hero : Img) : str :=
  nl
  ++ lit "        <figure class=" ++ dq ++ brand_class ++ lit "__hero" ++ dq
  ++ lit " role=" ++ dq ++ lit "img" ++ dq ++ lit " aria-label=" ++ dq
  ++ i_alt hero ++ dq ++ lit ">" ++ nl
  ++ lit "          <img src=" ++ dq ++ i_url hero ++ dq ++ lit " alt="
  ++ dq ++ i_alt hero ++ dq ++ lit " loading=" ++ dq ++ lit "lazy" ++ dq
  ++ lit " decoding=" ++ dq ++ lit "async" ++ dq ++ lit " class=" ++ dq
  ++ brand_class ++ lit "__hero-image" ++ dq ++ lit "/>" ++ nl
  ++ lit "          <figcaption class=" ++ dq ++ brand_class
  ++ lit "__hero-caption" ++ dq ++ lit ">" ++ i_caption hero
  ++ lit "</figcaption>" ++ nl
  ++ lit "        </figure>" ++ nl
  ++ lit "        ".

(** The opening of the table of contents. *)
Definition toc_open (brand_class : str) : str :=
  nl
  ++ lit "        <nav class=" ++ dq ++ brand_class ++ lit "__toc" ++ dq
  ++ lit " aria-label=" ++ dq ++ lit "Table of contents" ++ dq ++ lit ">"
  ++ nl
  ++ lit "          <p class=" ++ dq ++ brand_class ++ lit "__toc-title"
  ++ dq ++ lit ">Contents</p>" ++ nl
  ++ lit "          <ul class=" ++ dq ++ brand_class ++ lit "__toc-list"
  ++ dq ++ lit ">" ++ nl
  ++ lit "        ".

(** One entry of the table of contents. *)
Definition toc_item (brand_class id heading : str) : str :=
  lit "<li><a href=" ++ dq ++ lit "#" ++ id ++ dq ++ lit " class=" ++ dq
  ++ brand_class ++ lit "__toc-link" ++ dq ++ lit ">" ++ heading
  ++ lit "</a></li>".

(** The opening tag of a section. *)
Definition section_open (brand_class id : str) : str :=
  lit "<section id=" ++ dq ++ id ++ dq ++ lit " class=" ++ dq ++ brand_class
  ++ lit "__section" ++ dq ++ lit " tabindex=" ++ dq ++ lit "-1" ++ dq
  ++ lit ">".

(** The heading of a section. *)
Definition section_title (brand_class heading : str) : str :=
  lit "<h2 class=" ++ dq ++ brand_class ++ lit "__section-title" ++ dq
  ++ lit ">" ++ heading ++ lit "</h2>".

(** A paragraph that starts with [>]. *)
Definition blockquote (brand_class quoted : str) : str :=
  lit "<blockquote class=" ++ dq ++ brand_class ++ lit "__blockquote" ++ dq
  ++ lit ">" ++ quoted ++ lit "</blockquote>".

(** Any other paragraph. *)
Definition paragraph (brand_class para : str) : str :=
  lit "<p class=" ++ dq ++ brand_class ++ lit "__paragraph" ++ dq ++ lit ">"
  ++ para ++ lit "</p>".

(** The opening of the bullet list. *)
Definition list_open (brand_class : str) : str :=
  lit "<ul class=" ++ dq ++ brand_class ++ lit "__list" ++ dq ++ lit ">".

(** One bullet. *)
Definition list_item (b : str) : str :=
  lit "<li>" ++ b ++ lit "</li>".

(** The opening of the sources footer. *)
Definition sources_open (brand_class : str) : str :=
  nl
  ++ lit "        <footer class=" ++ dq ++ brand_class ++ lit "__sources"
  ++ dq ++ lit " aria-label=" ++ dq ++ lit "Content sources" ++ dq
  ++ lit ">" ++ nl
  ++ lit "          <h2 class=" ++ dq ++ brand_class
  ++ lit "__sources-title" ++ dq ++ lit ">Sources</h2>" ++ nl
  ++ lit "          <ol class=" ++ dq ++ brand_class ++ lit "__sources-list"
  ++ dq ++ lit ">" ++ nl
  ++ lit "        ".

(** One entry of the sources footer. *)
Definition sources_item (i : nat) (url title : str) : str :=
  lit "<li id=" ++ dq ++ lit "src-" ++ dec i ++ dq ++ lit "><a href=" ++ dq
  ++ url ++ dq ++ lit " target=" ++ dq ++ lit "_blank" ++ dq ++ lit " rel="
  ++ dq ++ lit "noopener noreferrer" ++ dq ++ lit ">" ++ title
  ++ lit "</a></li>".

(** The context lines of one source: [t] is its text cut to 1800
    characters. *)
Definition prompt_source (i : nat) (s : Source) : str :=
  lit "[" ++ dec i ++ lit "] " ++ s_title s ++ lit " " ++ [8212%N]
  ++ lit " " ++ s_url s ++ nl
  ++ take 1800 (s_text_chunk s).

(** The instructions of the planner prompt, up to the sources. *)
Definition prompt_head (question layout : str) : str :=
  lit "You are a content planner. Output ONE JSON object ONLY (no markdown, no extra text)."
  ++ nl
  ++ lit "Use only facts from the sources. Every factual sentence must end with a [n] citation that matches a numbered source."
  ++ nl
  ++ lit "If a claim is not supported by the sources, omit it." ++ nl
  ++ lit "Layout: " ++ layout ++ nl
  ++ lit "Schema: { " ++ dq ++ lit "title" ++ dq ++ lit ": str, " ++ dq
  ++ lit "summary" ++ dq ++ lit ": str, " ++ dq ++ lit "show_toc" ++ dq
  ++ lit ": bool, " ++ dq ++ lit "sections" ++ dq ++ lit ": [ {" ++ dq
  ++ lit "id" ++ dq ++ lit ": str, " ++ dq ++ lit "heading" ++ dq
  ++ lit ": str, " ++ dq ++ lit "paragraphs" ++ dq ++ lit ": [str], " ++ dq
  ++ lit "bullets" ++ dq ++ lit ": [str]} ] }" ++ nl
  ++ nl
  ++ lit "User question:" ++ nl
  ++ question ++ nl
  ++ nl
  ++ lit "Relevant sources (cite as [n]):" ++ nl.

Definition build_planner_prompt (question : str) (sources : list Source)
    (layout : str) (include_citations : bool) : str :=
  prompt_head question layout
  ++ join (nl ++ nl) (imap (fun i s => prompt_source (S i) s) sources).

(** [cohere_plan(prompt)]; [None] when it raises. *)
Definition cohere_plan (env : Env) (prompt : str) : option json :=
  text ← generate env prompt;
  let txt := strip text in
  match json_loads txt with
  | Some plan => Some plan
  | None =>
      match find_char 123 txt, rfind_char 125 txt with
      | Some start, Some end_ =>
          if decide (start < end_)
          then json_loads (slice txt start (end_ + 1))
          else None
      | _, _ => None
      end
  end.

(** [f"{v}"] *)
Definition fmt (v : json) : str :=
  match v with
  | JStr s => s
  | _ => py_str v
  end.

Definition render_toc_item (brand_class : str) (section : json)
    : option str :=
  id ← dict_get section (lit "id") (JStr []);
  heading ← dict_get section (lit "heading") (JStr []);
  Some (toc_item brand_class (fmt id) (fmt heading)).

Definition render_toc (plan : json) (brand_class : str) : option str :=
  show_toc ← dict_get plan (lit "show_toc") JNull;
  if truthy show_toc then
    sections ← dict_get plan (lit "sections") JNull;
    items ← iterate (or_empty sections);
    entries ← mapM (render_toc_item brand_class) items;
    Some (toc_open brand_class ++ concat entries ++ lit "</ul></nav>")
  else Some [].

Definition render_paragraph (brand_class : str) (para : json)
    : option str :=
  match para with
  | JStr para =>
      if startswith (lit ">") (strip para)
      then Some (blockquote brand_class (strip (drop 1 (strip para))))
      else Some (paragraph brand_class para)
  | _ => None
  end.

Definition render_bullets (brand_class : str) (section : json)
    : option str :=
  v ← dict_get section (lit "bullets") JNull;
  let bullets := or_empty v in
  if truthy bullets then
    items ← iterate bullets;
    Some (list_open brand_class
          ++ concat (map (fun b => list_item (fmt b)) items)
          ++ lit "</ul>")
  else Some [].

Definition render_section (brand_class : str) (section : json)
    : option str :=
  id ← dict_get section (lit "id") (JStr []);
  heading ← dict_get section (lit "heading") (JStr []);
  v ← dict_get section (lit "paragraphs") JNull;
  paras ← iterate (or_empty v);
  ps ← mapM (render_paragraph brand_class) paras;
  bullets ← render_bullets brand_class section;
  Some (section_open brand_class (fmt id)
        ++ section_title brand_class (fmt heading)
        ++ concat ps ++ bullets ++ lit "</section>").

(** The sources footer: nothing unless citations are asked for and
    there are some. *)
Definition render_sources (citations : list Citation) (brand_class : str)
    (include_citations : bool) : str :=
  if include_citations && negb (is_nil citations) then
    sources_open brand_class
    ++ concat
         (imap (fun i c =>
                  let url := if c_url c is [] then lit "#" else c_url c in
                  let title := if c_title c is [] then url else c_title c in
                  sources_item (S i) url title)
               citations)
    ++ lit "</ol></footer>"
  else [].

(** [render_article(plan, citations, brand_class, include_citations,
    images)]; [None] when it raises. *)
Definition render_article (plan : json) (citations : list Citation)
    (brand_class : str) (include_citations : bool) (images : list Img)
    : option str :=
  title ← dict_get plan (lit "title") (JStr []);
  summary ← dict_get plan (lit "summary") (JStr []);
  let hero :=
    match images with
    | hero :: _ => hero_figure brand_class hero
    | [] => []
    end in
  toc ← render_toc plan brand_class;
  v ← dict_get plan (lit "sections") JNull;
  sections ← iterate (or_empty v);
  body ← mapM (render_section brand_class) sections;
  Some (article_open brand_class (fmt title) (fmt summary)
        ++ hero ++ toc ++ concat body
        ++ render_sources citations brand_class include_citations
        ++ lit "</article>").

(** The page template up to the canonical link. *)
Definition page_part1 (title : json) (trace_id : str) : str :=
  lit "<!doctype html>" ++ nl
  ++ lit "<html lang=" ++ dq ++ lit "en" ++ dq ++ lit ">" ++ nl
  ++ lit "<head>" ++ nl
  ++ lit "  <meta charset=" ++ dq ++ lit "utf-8" ++ dq ++ lit " />" ++ nl
  ++ lit "  <title>" ++ fmt title ++ lit "</title>" ++ nl
  ++ lit "  <meta name=" ++ dq ++ lit "description" ++ dq ++ lit " content="
  ++ dq ++ lit "Detailed article page for " ++ fmt title ++ dq ++ lit " />"
  ++ nl
  ++ lit "  <meta name=" ++ dq ++ lit "viewport" ++ dq ++ lit " content="
  ++ dq ++ lit "width=device-width, initial-scale=1" ++ dq ++ lit " />"
  ++ nl
  ++ lit "  <meta name=" ++ dq ++ lit "x-trace-id" ++ dq ++ lit " content="
  ++ dq ++ trace_id ++ dq ++ lit " />" ++ nl
  ++ lit "  <link rel=" ++ dq ++ lit "canonical" ++ dq ++ lit " href=" ++ dq.

(** The template between the canonical link and the [og:url] property. *)
Definition page_part2 (title : json) : str :=
  dq ++ lit " />" ++ nl
  ++ lit "  <meta property=" ++ dq ++ lit "og:title" ++ dq
  ++ lit " content=" ++ dq ++ fmt title ++ dq ++ lit " />" ++ nl
  ++ lit "  <meta property=" ++ dq ++ lit "og:type" ++ dq ++ lit " content="
  ++ dq ++ lit "article" ++ dq ++ lit " />" ++ nl
  ++ lit "  <meta property=" ++ dq ++ lit "og:url" ++ dq ++ lit " content="
  ++ dq.

(** The template from the [og:url] property to the download link: the
    style sheet and the head of the card. *)
Definition page_part3 (primary brand_class : str) : str :=
  dq ++ lit " />" ++ nl
  ++ lit "  <meta name=" ++ dq ++ lit "theme-color" ++ dq ++ lit " content="
  ++ dq ++ primary ++ dq ++ lit " />" ++ nl
  ++ lit "  <style>" ++ nl
  ++ lit "    :root {" ++ nl
  ++ lit "      --primary: " ++ primary ++ lit ";" ++ nl
  ++ lit "      --text: #0f172a;" ++ nl
  ++ lit "      --muted: #64748b;" ++ nl
  ++ lit "      --bg: #f3f6fb;" ++ nl
  ++ lit "      --card-bg: rgba(255, 255, 255, 0.3);" ++ nl
  ++ lit "      --border: rgba(15, 23, 42, 0.08);" ++ nl
  ++ lit "      --shadow-default: 0 14px 40px rgba(15, 23, 42, 0.08);" ++ nl
  ++ lit "      --shadow-glass: 0 8px 32px 0 rgba(31, 38, 135, 0.37);" ++ nl
  ++ lit "      --pill-radius: 9999px;" ++ nl
  ++ lit "      --card-radius: 16px;" ++ nl
  ++ lit "      --max-width: 980px;" ++ nl
  ++ lit "      --font-family: ui-sans-serif, system-ui, -apple-system, Segoe UI, Roboto, Inter, Arial, sans-serif;"
  ++ nl
  ++ lit "    }" ++ nl
  ++ lit "    html, body {" ++ nl
  ++ lit "      margin: 0; padding: 0;" ++ nl
  ++ lit "      background: var(--bg);" ++ nl
  ++ lit "      color: var(--text);" ++ nl
  ++ lit "      font-family: var(--font-family);" ++ nl
  ++ lit "      scroll-behavior: smooth;" ++ nl
  ++ lit "      min-height: 100vh;" ++ nl
  ++ lit "    }" ++ nl
  ++ nl
  ++ lit "    /* Removed top header for buttons */" ++ nl
  ++ nl
  ++ lit "    .wrap {" ++ nl
  ++ lit "      margin: 18px auto 40px;" ++ nl
  ++ lit "      max-width: var(--max-width);" ++ nl
  ++ lit "      padding: 0 16px;" ++ nl
  ++ lit "      min-height: calc(100vh - 150px);" ++ nl
  ++ lit "      display: flex;" ++ nl
  ++ lit "      justify-content: center;" ++ nl
  ++ lit "      align-items: flex-start;" ++ nl
  ++ lit "    }" ++ nl
  ++ nl
  ++ lit "    .card {" ++ nl
  ++ lit "      background: var(--card-bg);" ++ nl
  ++ lit "      border-radius: var(--card-radius);" ++ nl
  ++ lit "      box-shadow: var(--shadow-glass);" ++ nl
  ++ lit "      border: 1px solid rgba(255, 255, 255, 0.18);" ++ nl
  ++ lit "      backdrop-filter: blur(8px);" ++ nl
  ++ lit "      -webkit-backdrop-filter: blur(8px);" ++ nl
  ++ lit "      padding: clamp(24px, 3vw, 32px);" ++ nl
  ++ lit "      width: 100%;" ++ nl
  ++ lit "      max-width: var(--max-width);" ++ nl
  ++ lit "      display: flex;" ++ nl
  ++ lit "      flex-direction: column;" ++ nl
  ++ lit "      box-sizing: border-box;" ++ nl
  ++ lit "    }" ++ nl
  ++ nl
  ++ lit "    /* Moved action buttons inside card, style them */" ++ nl
  ++ lit "    .actions {" ++ nl
  ++ lit "      display: flex;" ++ nl
  ++ lit "      flex-wrap: wrap;" ++ nl
  ++ lit "      gap: 8px;" ++ nl
  ++ lit "      align-items: center;" ++ nl
  ++ lit "      justify-content: flex-end;" ++ nl
  ++ lit "      margin-bottom: 1.5rem;" ++ nl
  ++ lit "      min-width: 200px;" ++ nl
  ++ lit "    }" ++ nl
  ++ lit "    @media (max-width: 480px) {" ++ nl
  ++ lit "      .actions {" ++ nl
  ++ lit "        flex-direction: column;" ++ nl
  ++ lit "        align-items: stretch;" ++ nl
  ++ lit "        gap: 6px;" ++ nl
  ++ lit "        min-width: 100%;" ++ nl
  ++ lit "      }" ++ nl
  ++ lit "    }" ++ nl
  ++ nl
  ++ lit "    .btn {" ++ nl
  ++ lit "      display: inline-flex;" ++ nl
  ++ lit "      align-items: center;" ++ nl
  ++ lit "      gap: 8px;" ++ nl
  ++ lit "      font-weight: 700;" ++ nl
  ++ lit "      padding: 9px 12px;" ++ nl
  ++ lit "      border-radius: var(--pill-radius);" ++ nl
  ++ lit "      border: 1px solid var(--border);" ++ nl
  ++ lit "      background: #eef2f7;" ++ nl
  ++ lit "      color: var(--text);" ++ nl
  ++ lit "      cursor: pointer;" ++ nl
  ++ lit "      text-decoration: none;" ++ nl
  ++ lit "      transition: transform 0.08s ease, filter 0.2s ease;" ++ nl
  ++ lit "      font-size: 0.9rem;" ++ nl
  ++ lit "      user-select: none;" ++ nl
  ++ lit "    }" ++ nl
  ++ lit "    .btn:hover {" ++ nl
  ++ lit "      filter: brightness(1.02);" ++ nl
  ++ lit "    }" ++ nl
  ++ lit "    .btn:active {" ++ nl
  ++ lit "      transform: translateY(1px);" ++ nl
  ++ lit "    }" ++ nl
  ++ lit "    .btn:focus {" ++ nl
  ++ lit "      outline: 2px solid var(--primary);" ++ nl
  ++ lit "      outline-offset: 2px;" ++ nl
  ++ lit "      outline-style: solid;" ++ nl
  ++ lit "    }" ++ nl
  ++ lit "    .btn.primary {" ++ nl
  ++ lit "      background: var(--primary);" ++ nl
  ++ lit "      color: #fff;" ++ nl
  ++ lit "      border-color: transparent;" ++ nl
  ++ lit "      box-shadow: 0 12px 26px rgba(34,197,94,0.25);" ++ nl
  ++ lit "    }" ++ nl
  ++ nl
  ++ lit "    /* Brand chip and contact styling */" ++ nl
  ++ lit "    .brand {" ++ nl
  ++ lit "      display: flex;" ++ nl
  ++ lit "      align-items: center;" ++ nl
  ++ lit "      gap: 12px;" ++ nl
  ++ lit "      margin-top: 2rem;" ++ nl
  ++ lit "      user-select: none;" ++ nl
  ++ lit "    }" ++ nl
  ++ lit "    .chip {" ++ nl
  ++ lit "      width: 36px;" ++ nl
  ++ lit "      height: 36px;" ++ nl
  ++ lit "      display: grid;" ++ nl
  ++ lit "      place-items: center;" ++ nl
  ++ lit "      border-radius: 50%;" ++ nl
  ++ lit "      background: var(--primary);" ++ nl
  ++ lit "      color: #fff;" ++ nl
  ++ lit "      font-weight: 900;" ++ nl
  ++ lit "      font-size: 18px;" ++ nl
  ++ lit "      box-shadow: 0 8px 20px rgba(34, 197, 94, 0.35);" ++ nl
  ++ lit "      flex-shrink: 0;" ++ nl
  ++ lit "    }" ++ nl
  ++ lit "    .brand-name {" ++ nl
  ++ lit "      font-weight: 600;" ++ nl
  ++ lit "      font-size: 1.125rem;" ++ nl
  ++ lit "      color: #3b3c4a;" ++ nl
  ++ lit "      user-select: text;" ++ nl
  ++ lit "    }" ++ nl
  ++ lit "    .contact {" ++ nl
  ++ lit "      margin-top: 1.25rem;" ++ nl
  ++ lit "      font-size: 1rem;" ++ nl
  ++ lit "      color: var(--muted, #64748b);" ++ nl
  ++ lit "      line-height: 1.5;" ++ nl
  ++ lit "    }" ++ nl
  ++ lit "    .contact strong {" ++ nl
  ++ lit "      display: block;" ++ nl
  ++ lit "      margin-bottom: 0.4rem;" ++ nl
  ++ lit "      color: var(--text);" ++ nl
  ++ lit "      font-weight: 600;" ++ nl
  ++ lit "    }" ++ nl
  ++ lit "    .contact a {" ++ nl
  ++ lit "      color: var(--primary);" ++ nl
  ++ lit "      text-decoration: none;" ++ nl
  ++ lit "      transition: color 0.2s ease;" ++ nl
  ++ lit "    }" ++ nl
  ++ lit "    .contact a:hover {" ++ nl
  ++ lit "      text-decoration: underline;" ++ nl
  ++ lit "    }" ++ nl
  ++ nl
  ++ lit "    /* Spacing between paragraphs and lists */" ++ nl
  ++ lit "    ." ++ brand_class ++ lit " p," ++ nl
  ++ lit "    ." ++ brand_class ++ lit " li," ++ nl
  ++ lit "    ." ++ brand_class ++ lit " ul," ++ nl
  ++ lit "    ." ++ brand_class ++ lit " ol {" ++ nl
  ++ lit "      margin-bottom: 0.85em;" ++ nl
  ++ lit "    }" ++ nl
  ++ nl
  ++ lit "    ." ++ brand_class ++ lit " ul, ." ++ brand_class
  ++ lit " ol {" ++ nl
  ++ lit "      margin-top: 0.5em;" ++ nl
  ++ lit "      padding-left: 2em;" ++ nl
  ++ lit "    }" ++ nl
  ++ nl
  ++ lit "    ." ++ brand_class ++ lit " li {" ++ nl
  ++ lit "      line-height: 1.8;" ++ nl
  ++ lit "    }" ++ nl
  ++ nl
  ++ lit "    @media print {" ++ nl
  ++ lit "      .actions {" ++ nl
  ++ lit "        display: none !important;" ++ nl
  ++ lit "      }" ++ nl
  ++ lit "      body {" ++ nl
  ++ lit "        background: #fff;" ++ nl
  ++ lit "      }" ++ nl
  ++ lit "      .card {" ++ nl
  ++ lit "        box-shadow: none;" ++ nl
  ++ lit "        border: none;" ++ nl
  ++ lit "        padding: 0;" ++ nl
  ++ lit "        backdrop-filter: none;" ++ nl
  ++ lit "      }" ++ nl
  ++ lit "      a {" ++ nl
  ++ lit "        color: #000;" ++ nl
  ++ lit "        text-decoration: underline;" ++ nl
  ++ lit "      }" ++ nl
  ++ lit "    }" ++ nl
  ++ lit "  </style>" ++ nl
  ++ lit "</head>" ++ nl
  ++ lit "<body>" ++ nl
  ++ nl
  ++ lit "  <main class=" ++ dq ++ lit "wrap" ++ dq ++ lit " role=" ++ dq
  ++ lit "main" ++ dq ++ lit ">" ++ nl
  ++ lit "    <div class=" ++ dq ++ lit "card " ++ brand_class ++ dq
  ++ lit ">" ++ nl
  ++ nl
  ++ lit "      <!-- Actions moved inside card -->" ++ nl
  ++ lit "      <nav class=" ++ dq ++ lit "actions" ++ dq
  ++ lit " aria-label=" ++ dq ++ lit "Page actions" ++ dq ++ lit ">" ++ nl
  ++ lit "        <a class=" ++ dq ++ lit "btn primary" ++ dq
  ++ lit " href=" ++ dq.

(** The template after the download link: the actions, the article and
    the contact block. *)
Definition page_part4 (safe_title article_html brand_class contact_email contact_phone
    contact_url : str) : str :=
  dq ++ lit " download=" ++ dq ++ safe_title ++ lit ".html" ++ dq
  ++ lit " aria-label=" ++ dq ++ lit "Download article as HTML" ++ dq
  ++ lit ">" ++ nl
  ++ lit "          <svg width=" ++ dq ++ lit "16" ++ dq ++ lit " height="
  ++ dq ++ lit "16" ++ dq ++ lit " viewBox=" ++ dq ++ lit "0 0 24 24" ++ dq
  ++ lit " stroke=" ++ dq ++ lit "currentColor" ++ dq ++ lit " fill=" ++ dq
  ++ lit "none" ++ dq ++ lit " stroke-width=" ++ dq ++ lit "2" ++ dq
  ++ lit " aria-hidden=" ++ dq ++ lit "true" ++ dq ++ lit ">" ++ nl
  ++ lit "            <path d=" ++ dq ++ lit "M12 3v12" ++ dq ++ lit "/>"
  ++ nl
  ++ lit "            <path d=" ++ dq ++ lit "M7 10l5 5 5-5" ++ dq
  ++ lit "/>" ++ nl
  ++ lit "            <path d=" ++ dq ++ lit "M5 21h14" ++ dq ++ lit "/>"
  ++ nl
  ++ lit "          </svg>" ++ nl
  ++ lit "          Download .html" ++ nl
  ++ lit "        </a>" ++ nl
  ++ lit "        <button class=" ++ dq ++ lit "btn" ++ dq ++ lit " id="
  ++ dq ++ lit "print" ++ dq ++ lit " aria-label=" ++ dq
  ++ lit "Print or save as PDF" ++ dq ++ lit " title=" ++ dq
  ++ lit "Print or Save as PDF" ++ dq ++ lit ">" ++ nl
  ++ lit "          <svg width=" ++ dq ++ lit "16" ++ dq ++ lit " height="
  ++ dq ++ lit "16" ++ dq ++ lit " viewBox=" ++ dq ++ lit "0 0 24 24" ++ dq
  ++ lit " stroke=" ++ dq ++ lit "currentColor" ++ dq ++ lit " fill=" ++ dq
  ++ lit "none" ++ dq ++ lit " stroke-width=" ++ dq ++ lit "2" ++ dq
  ++ lit " aria-hidden=" ++ dq ++ lit "true" ++ dq ++ lit ">" ++ nl
  ++ lit "            <path d=" ++ dq ++ lit "M6 9V2h12v7" ++ dq ++ lit "/>"
  ++ nl
  ++ lit "            <path d=" ++ dq ++ lit "M6 18h12v4H6z" ++ dq
  ++ lit "/>" ++ nl
  ++ lit "            <path d=" ++ dq ++ lit "M6 14h12" ++ dq ++ lit "/>"
  ++ nl
  ++ lit "          </svg>" ++ nl
  ++ lit "          Print / Save as PDF" ++ nl
  ++ lit "        </button>" ++ nl
  ++ lit "        <button class=" ++ dq ++ lit "btn" ++ dq ++ lit " id="
  ++ dq ++ lit "copy" ++ dq ++ lit " aria-label=" ++ dq
  ++ lit "Copy current page link" ++ dq ++ lit " title=" ++ dq
  ++ lit "Copy Link" ++ dq ++ lit ">" ++ nl
  ++ lit "          <svg width=" ++ dq ++ lit "16" ++ dq ++ lit " height="
  ++ dq ++ lit "16" ++ dq ++ lit " viewBox=" ++ dq ++ lit "0 0 24 24" ++ dq
  ++ lit " stroke=" ++ dq ++ lit "currentColor" ++ dq ++ lit " fill=" ++ dq
  ++ lit "none" ++ dq ++ lit " stroke-width=" ++ dq ++ lit "2" ++ dq
  ++ lit " aria-hidden=" ++ dq ++ lit "true" ++ dq ++ lit ">" ++ nl
  ++ lit "            <rect x=" ++ dq ++ lit "9" ++ dq ++ lit " y=" ++ dq
  ++ lit "9" ++ dq ++ lit " width=" ++ dq ++ lit "13" ++ dq
  ++ lit " height=" ++ dq ++ lit "13" ++ dq ++ lit " rx=" ++ dq ++ lit "2"
  ++ dq ++ lit "/>" ++ nl
  ++ lit "            <rect x=" ++ dq ++ lit "2" ++ dq ++ lit " y=" ++ dq
  ++ lit "2" ++ dq ++ lit " width=" ++ dq ++ lit "13" ++ dq
  ++ lit " height=" ++ dq ++ lit "13" ++ dq ++ lit " rx=" ++ dq ++ lit "2"
  ++ dq ++ lit "/>" ++ nl
  ++ lit "          </svg>" ++ nl
  ++ lit "          Copy link" ++ nl
  ++ lit "        </button>" ++ nl
  ++ lit "      </nav>" ++ nl
  ++ nl
  ++ lit "      " ++ article_html ++ nl
  ++ nl
  ++ lit "      <div class=" ++ dq ++ lit "brand" ++ dq
  ++ lit " aria-label=" ++ dq ++ lit "Brand identity" ++ dq ++ lit ">" ++ nl
  ++ lit "        <div class=" ++ dq ++ lit "chip" ++ dq
  ++ lit " aria-label=" ++ dq ++ lit "Brand initial" ++ dq ++ lit ">"
  ++ py_upper (take 1 brand_class) ++ lit "</div>" ++ nl
  ++ lit "        <div class=" ++ dq ++ lit "brand-name" ++ dq ++ lit ">"
  ++ brand_class ++ lit "</div>" ++ nl
  ++ lit "      </div>" ++ nl
  ++ lit "      <div class=" ++ dq ++ lit "contact" ++ dq
  ++ lit " aria-label=" ++ dq ++ lit "Contact information" ++ dq ++ lit ">"
  ++ nl
  ++ lit "        <strong>Contact us</strong>" ++ nl
  ++ lit "        Email: <a href=" ++ dq ++ lit "mailto:" ++ contact_email
  ++ dq ++ lit ">" ++ contact_email ++ lit "</a> " ++ [183%N]
  ++ lit " Phone: " ++ contact_phone ++ lit " " ++ [183%N] ++ nl
  ++ lit "        <a href=" ++ dq ++ contact_url ++ dq ++ lit " target="
  ++ dq ++ lit "_blank" ++ dq ++ lit " rel=" ++ dq
  ++ lit "noopener noreferrer" ++ dq ++ lit ">Contact page</a>" ++ nl
  ++ lit "      </div>" ++ nl
  ++ lit "    </div>" ++ nl
  ++ lit "  </main>" ++ nl
  ++ lit "  <script>" ++ nl
  ++ lit "    document.getElementById('print').onclick = () => window.print();"
  ++ nl
  ++ lit "    document.getElementById('copy').onclick = async () => {" ++ nl
  ++ lit "      try {" ++ nl
  ++ lit "        await navigator.clipboard.writeText(window.location.href);"
  ++ nl
  ++ lit "        const btn = document.getElementById('copy');" ++ nl
  ++ lit "        const originalText = btn.textContent;" ++ nl
  ++ lit "        btn.textContent = 'Copied!';" ++ nl
  ++ lit "        setTimeout(() => btn.textContent = originalText, 1000);"
  ++ nl
  ++ lit "      } catch (e) {" ++ nl
  ++ lit "        console.warn('Clipboard write failed', e);" ++ nl
  ++ lit "      }" ++ nl
  ++ lit "    };" ++ nl
  ++ lit "  </script>" ++ nl
  ++ lit "</body>" ++ nl
  ++ lit "</html>" ++ nl.

(** The canonical URL of a page and its download link. *)
Definition canonical_url (base_url page_id : str) : str :=
  base_url ++ lit "/v/" ++ page_id.

Definition download_url (base_url page_id : str) : str :=
  canonical_url base_url page_id ++ lit "/download".

(** [slugify(title or "article")]; [None] when it raises. *)
Definition safe_title_of (title : json) : option str :=
  match (if truthy title then title else JStr (lit "article")) with
  | JStr s => Some (slugify s)
  | v => slugify_other v
  end.

(** The page template, filled in. *)
Definition page_html (title : json)
    (safe_title article_html brand_class primary trace_id page_id
     base_url : str) : str :=
  page_part1 title trace_id ++ canonical_url base_url page_id
  ++ page_part2 title ++ canonical_url base_url page_id
  ++ page_part3 primary brand_class
  ++ download_url base_url page_id
  ++ page_part4 safe_title article_html brand_class
       CONTACT_EMAIL CONTACT_PHONE CONTACT_URL.

(** [build_fullpage_html(...)] with the default contact details; [None]
    when [slugify] raises. *)
Definition build_fullpage_html (title : json)
    (article_html brand_class primary trace_id page_id base_url : str)
    : option str :=
  safe_title ← safe_title_of title;
  Some (page_html title safe_title article_html brand_class primary
          trace_id page_id base_url).

(** ** The compose pipeline *)

(** What [compose_answer_page] returns. *)
Record Result := { r_id : str; r_title : json; r_trace_id : str }.

Definition NO_SOURCES_TITLE : str := lit "No sources available".
Definition LOW_CONFIDENCE_TITLE : str := lit "We couldn" ++ [8217%N] ++ lit "t find a confident answer".

Definition fallback_section (heading para : str) : json :=
  JObj [ (lit "id", JStr (lit "s1"));
         (lit "heading", JStr heading);
         (lit "paragraphs", JArr [JStr para]);
         (lit "bullets", JArr []) ].

(** The shape of the three fixed plans: a title, an empty summary, no
    table of contents and one section of one paragraph. *)
Definition fallback_plan (title heading para : str) : json :=
  JObj [ (lit "title", JStr title);
         (lit "summary", JStr []);
         (lit "show_toc", JBool false);
         (lit "sections", JArr [fallback_section heading para]) ].

Definition NO_SOURCES_TEXT : str :=
  lit "We couldn't find any relevant sources from the site. Try rephrasing your question.".

Definition LOW_CONFIDENCE_TEXT : str :=
  lit "We couldn" ++ [8217%N] ++ lit "t confidently answer from the site" ++ [8217%N] ++ lit "s content. Please rephrase or narrow the topic.".

Definition no_sources_plan : json :=
  fallback_plan NO_SOURCES_TITLE (lit "Please try again") NO_SOURCES_TEXT.

Definition low_confidence_plan : json :=
  fallback_plan LOW_CONFIDENCE_TITLE (lit "Try rephrasing your question")
    LOW_CONFIDENCE_TEXT.

(** The article of a fixed plan whose paragraph is no quote: the
    header and the one section, without hero, table of contents or
    sources footer. *)
Definition fallback_article (brand_class title heading para : str) : str :=
  article_open brand_class title []
  ++ (section_open brand_class (lit "s1")
      ++ section_title brand_class heading
      ++ paragraph brand_class para ++ lit "</section>")
  ++ lit "</article>".

(** The planner-failure plan built from the first source. *)
Definition passthrough_plan (top : Source) : json :=
  fallback_plan (s_title top) (s_title top) (s_text_chunk top).

(** The memo check: the page id of a cached answer whose page is still
    stored. *)
Definition memo_lookup (ck : str) (w : World) : option str :=
  cached ← ANSWER_CACHE w !! ck;
  if decide (is_Some (PAGES w !! page_id cached))
  then Some (page_id cached) else None.

(** The two-phase persistence shared by the three ways to a page: store
    under the placeholder id, rebuild with the real id, overwrite, and
    record the answer. *)
Definition store_page (env : Env) (ck : str) (title : json)
    (safe_article brand_class primary trace_id base_url : str) : M Result :=
  let* tmp_html :=
    lift (build_fullpage_html title safe_article brand_class primary
            trace_id (lit "tmp") base_url) in
  let* pid := run (_save_page env title tmp_html) in
  let* full_html :=
    lift (build_fullpage_html title safe_article brand_class primary
            trace_id pid base_url) in
  let* _ :=
    run (fun w =>
           (tt,
            set_PAGES
              (alter (fun p => {| p_title := p_title p; p_html := full_html;
                                  p_ts := p_ts p |}) pid) w)) in
  let* _ :=
    run (fun w =>
           (tt,
            set_ANSWER_CACHE
              (insert ck {| page_id := pid; m_ts := now_memo env |}) w)) in
  ret {| r_id := pid; r_title := title; r_trace_id := trace_id |}.

(** The page of a fixed plan (no sources, low confidence). *)
Definition fallback_page (env : Env) (ck : str) (plan : json)
    (brand_class primary trace_id base_url : str) : M Result :=
  let* article_html := lift (render_article plan [] brand_class false []) in
  let safe_article := linkify_citations (sanitize_html article_html) [] in
  let* title :=
    lift (match plan with
          | JObj kv => assoc (lit "title") kv
          | _ => None
          end) in
  store_page env ck title safe_article brand_class primary trace_id base_url.

(** The confidence probe: 1.0 unless the reranker answers with a first
    result, whose score (or 0.0) is then taken. *)
Definition top_score_of (probe : option (list RerankResult)) : Q :=
  match probe with
  | Some (r :: _) => default 0%Q (relevance_score r)
  | _ => 1%Q
  end.

(** [RERANK_THRESHOLD and top_score < RERANK_THRESHOLD] *)
Definition low_confidence (top_score : Q) : bool :=
  negb (Qeq_bool RERANK_THRESHOLD 0) && negb (Qle_bool RERANK_THRESHOLD top_score).

Definition source_of (h : Doc) : Source :=
  {| s_title := if d_title h is [] then lit "Untitled" else d_title h;
     s_url := d_url h;
     s_text_chunk := take 1800 (text_chunk h) |}.

(** [text.count(sub)] for a non-empty [sub]. *)
Fixpoint count_from (sub : str) (skip : nat) (s : str) : nat :=
  match s with
  | [] => 0
  | c :: s' =>
      match skip with
      | S k => count_from sub k s'
      | O =>
          if startswith sub s
          then S (count_from sub (length sub - 1) s')
          else count_from sub 0 s'
      end
  end.

Definition score_img (terms : list str) (i : Img) : Img :=
  let text :=
    py_lower (join (lit " ") [i_title i; i_alt i; i_caption i]) in
  {| i_id := i_id i; i_url := i_url i; i_title := i_title i;
     i_alt := i_alt i; i_caption := i_caption i; i_width := i_width i;
     i_height := i_height i; i_srcset := i_srcset i; i_sizes := i_sizes i;
     i_score := Some (foldr (fun t acc => count_from t 0 text + acc) 0 terms) |}.

(** The keyword fallback of the image selection.  The list it scores
    and sorts is the cached list itself, so the cache keeps the scores
    and the new order. *)
Definition keyword_images (env : Env) (question : str) (w : World)
    : list Img * World :=
  let '(all_imgs, w) := fetch_wp_media env w in
  let terms := _tok question in
  let scored := map (score_img terms) all_imgs in
  let sorted :=
    sorted_desc
      (fun i => inject_Z (Z.of_nat (default 0 (i_score i)))) scored in
  (py_take 3 sorted,
   set_MEDIA_CACHE {| mc_ts := mc_ts (MEDIA_CACHE w); mc_imgs := sorted |} w).

(** [sources] and [citations] of the synthesis path. *)
Definition sources_of (doc_hits : list Doc) : list Source :=
  map source_of (py_take FINAL_DOCS doc_hits).

Definition citations_of (sources : list Source) : list Citation :=
  dedupe_citations
    (map (fun s => {| c_title := s_title s; c_url := s_url s |}) sources).

(** [[h.get("post_id") for h in doc_hits if h.get("post_id")]] *)
Definition attachment_ids (doc_hits : list Doc) : list Z :=
  omap (fun h => match post_id h with
                 | Some z => if (z =? 0)%Z then None else Some z
                 | None => None
                 end) doc_hits.

(** The image selection: the attachments of the hits, else the keyword
    fallback. *)
Definition select_images (env : Env) (question : str) (doc_hits : list Doc)
    (w : World) : list Img * World :=
  let '(images, w) :=
    get_post_attachments env (attachment_ids doc_hits) 3 w in
  if is_nil images then keyword_images env question w else (images, w).

(** The plan of the [try ... except] around [cohere_plan]: the
    planner's, or on any planner error the passthrough plan of
    [sources[0]]. *)
Definition plan_or_passthrough (env : Env) (prompt : str)
    (sources : list Source) : option json :=
  match cohere_plan env prompt with
  | Some plan => Some plan
  | None => passthrough_plan <$> head sources
  end.

(** [plan.get("title") or "Article"] *)
Definition title_of_plan (plan : json) : option json :=
  t ← dict_get plan (lit "title") JNull;
  Some (if truthy t then t else JStr (lit "Article")).

(** The synthesis path, from the ranked hits to the stored page. *)
Definition synthesize (env : Env) (ck : str) (doc_hits : list Doc)
    (question layout : str) (include_citations : bool)
    (brand_class primary trace_id base_url : str) : M Result :=
  let sources := sources_of doc_hits in
  let citations := citations_of sources in
  let* images := run (select_images env question doc_hits) in
  let prompt :=
    build_planner_prompt question sources layout include_citations in
  let* _ := run (fun w => (tt, emit [EvGenerate prompt] w)) in
  let* plan := lift (plan_or_passthrough env prompt sources) in
  let* article_html :=
    lift (render_article plan citations brand_class include_citations
            images) in
  let safe_article :=
    linkify_citations (sanitize_html article_html) citations in
  let* title := lift (title_of_plan plan) in
  store_page env ck title safe_article brand_class primary trace_id base_url.

(** The page the synthesis path stores, when it gets that far: its
    title, its sanitised and linked article and its slug. *)
Definition synth_page (env : Env) (doc_hits : list Doc)
    (question layout : str) (include_citations : bool) (brand_class : str)
    (images : list Img) : option (json * str * str) :=
  let sources := sources_of doc_hits in
  let citations := citations_of sources in
  let prompt :=
    build_planner_prompt question sources layout include_citations in
  plan ← plan_or_passthrough env prompt sources;
  article_html ←
    render_article plan citations brand_class include_citations images;
  title ← title_of_plan plan;
  safe_title ← safe_title_of title;
  Some (title, linkify_citations (sanitize_html article_html) citations,
        safe_title).

Definition compose_answer_page (env : Env) (question layout : str)
    (include_citations : bool) (brand_class primary base_url : str)
    : M Result :=
  let trace_id := trace_id_for question in
  let* _ :=
    run (fun w => (tt, _cleanup_answers (now_cleanup_answers env) w)) in
  let ck := _cache_key question layout include_citations brand_class primary in
  let* cached := run (fun w => (memo_lookup ck w, w)) in
  match cached with
  | Some pid =>
      let* page := fun w => (PAGES w !! pid, w) in
      ret {| r_id := pid; r_title := p_title page; r_trace_id := trace_id |}
  | None =>
      let* doc_hits := search_docs env question FINAL_DOCS in
      if is_nil doc_hits then
        fallback_page env ck no_sources_plan brand_class primary trace_id
          base_url
      else
        let documents := map text_chunk doc_hits in
        let* _ := run (fun w => (tt, emit [EvRerank question documents 1] w)) in
        let top_score := top_score_of (rerank_probe env question documents 1) in
        if low_confidence top_score then
          fallback_page env ck low_confidence_plan brand_class primary
            trace_id base_url
        else
          synthesize env ck doc_hits question layout include_citations
            brand_class primary trace_id base_url
  end.

(** ** Page routes *)

(** [GET /v/<page_id>]: the stored HTML, or [None] for 404. *)
Definition view_page (now : Z) (pid : str) (w : World)
    : option str * World :=
  let w := _cleanup_pages now w in
  (p_html <$> PAGES w !! pid, w).

(** [GET /v/<page_id>/download]: the file name and the stored HTML, or
    [None] for 404. *)
Definition download_page (now : Z) (pid : str) (w : World)
    : option (str * str) * World :=
  let w := _cleanup_pages now w in
  ((fun page =>
      (secure_filename (fmt (p_title page) ++ lit "-" ++ pid ++ lit ".html"),
       p_html page)) <$> PAGES w !! pid,
   w).

(** ** The compose route *)







(** [GET /healthz]: the sizes of the caches and stores. *)
Record Health := {
  posts_cached : nat;
  pages_cached : nat;
  media_cached : nat;
  pages_stored : nat;
  answer_cache : nat;
}.

Definition healthz (w : World) : Health := {|
  posts_cached := length (dc_docs (POSTS_CACHE w));
  pages_cached := length (dc_docs (PAGES_CACHE w));
  media_cached := length (mc_imgs (MEDIA_CACHE w));
  pages_stored := size (PAGES w);
  answer_cache := size (ANSWER_CACHE w);
|}.

(** The key [dedupe_citations] compares citations by. *)
Definition citation_key (c : Citation) : str :=
  py_lower (strip (if c_url c is [] then c_title c else c_url c)).

(** No tag pattern [<[^>]+>] matches anywhere in [s]. *)
Definition tag_free (s : str) : Prop :=
  forall k, tag_match (drop k s) = None.

(** The world after a page built as [html] has been stored and the
    answer recorded: what [store_page] leaves behind. *)
Definition stored (env : Env) (ck : str) (title : json) (html : str)
    (w : World) : World :=
  set_ANSWER_CACHE
    (insert ck {| page_id := token_urlsafe env; m_ts := now_memo env |})
    (set_PAGES
       (insert (token_urlsafe env)
          {| p_title := title; p_html := html; p_ts := now_save_page env |})
       (_cleanup_pages (now_cleanup_pages env) w)).

(** [w'] differs from [w] by the content caches and by requests made:
    the stored pages and the recorded answers are the same. *)
Definition frame (w w' : World) : Prop :=
  PAGES w' = PAGES w /\ ANSWER_CACHE w' = ANSWER_CACHE w
  /\ exists evs, trace w' = trace w ++ evs.

(** ** Requests in sequence *)

(** The requests the service handles, one after the other. *)
Inductive Op :=
  | OpCompose (env : Env) (question layout : str) (include_citations : bool)
      (brand_class primary base_url : str)
  | OpView (now : Z) (pid : str)
  | OpDownload (now : Z) (pid : str).

Definition step (o : Op) (w : World) : World :=
  match o with
  | OpCompose env question layout include_citations brand_class primary
      base_url =>
      (compose_answer_page env question layout include_citations
         brand_class primary base_url w).2
  | OpView now pid => (view_page now pid w).2
  | OpDownload now pid => (download_page now pid w).2
  end.

Definition run_ops (ops : list Op) (w : World) : World :=
  fold_left (fun w o => step o w) ops w.




(** A request made between two compose calls leaves the answer recorded
    by the first alone: an intervening compose call sweeps the answers
    no later than [deadline], the time the second call does, and draws a
    page id other than [pid]. *)
Definition op_quiet (pid : str) (deadline : Z) (o : Op) : Prop :=
  match o with
  | OpCompose env _ _ _ _ _ _ =>
      (now_cleanup_answers env <= deadline)%Z /\ token_urlsafe env <> pid
  | OpView _ _ | OpDownload _ _ => True
  end.

(** ** Outcomes of a listing request *)

(** The request fails outright: the call raises, the status is an
    error, or the body does not parse. *)
Definition fails_outright {A} (r : HttpReply A) : Prop :=
  match r with
  | NetFail => True
  | Reply status _ body => is_error_status status = true \/ body = None
  end.

(** The request answers a full page of well-formed [items]. *)
Definition full_page {A} (per_page : nat) (r : HttpReply A)
    (items : list A) : Prop :=
  exists status text,
    r = Reply status text (Some (map Some items))
    /\ is_error_status status = false
    /\ per_page <= length items.

(** The request answers a last page: well-formed [items], fewer than
    [per_page] of them (possibly none). *)
Definition last_page {A} (per_page : nat) (r : HttpReply A)
    (items : list A) : Prop :=
  exists status text,
    r = Reply status text (Some (map Some items))
    /\ is_error_status status = false
    /\ length items < per_page.

(** A snapshot read at [now] is served from the cache: it is not empty
    and younger than [TTL]. *)
Definition cache_fresh {A} (now ts : Z) (snapshot : list A) : Prop :=
  snapshot <> [] /\ (now - ts < TTL)%Z.

(** A stored page is self-referential: its HTML is the page template
    filled with the id it is stored under. *)
Definition own_page (pid : str) (p : Page) : Prop :=
  exists safe_title article brand_class primary trace_id base_url,
    p_html p
    = page_html (p_title p) safe_title article brand_class primary trace_id
        pid base_url.

(** The order [sorted(..., reverse=True)] puts the indices in: higher
    score first, and the earlier index first among equal scores. *)
Definition ranks_before (score : nat -> Q) (i j : nat) : Prop :=
  (score j < score i)%Q \/ ((score j == score i)%Q /\ i < j).

End Program.

(** ** A small instance, for concrete runs *)

Definition ascii_lower (c : N) : N :=
  if ((65 <=? c) && (c <=? 90))%N then (c + 32)%N else c.

Definition ascii_upper (c : N) : N :=
  if ((97 <=? c) && (c <=? 122))%N then (c - 32)%N else c.

(** A stand-in library: ASCII case mapping, the identity for the hash,
    the sanitiser and the slug, a JSON decoder that accepts nothing,
    and the number of query terms found in a document as its score. *)
Definition demo_lib : PyLib := {|
  py_lower := map ascii_lower;
  py_upper := map ascii_upper;
  sha256_hex := fun s => s;
  bleach_clean := fun html _ _ => html;
  slugify := fun s => s;
  slugify_other := fun _ => None;
  secure_filename := fun s => s;
  json_loads := fun _ => None;
  py_str := fun _ => lit "?";
  get_scores := fun corpus query i =>
    inject_Z (Z.of_nat
      (length (List.filter
                 (fun t => bool_decide (t ∈ default [] (corpus !! i)))
                 query)));
|}.

(** An environment in which the content source and the reranker of the
    search fail, the clock reads [now], the next page id is [token], and
    the confidence probe and the planner answer [probe] and [planner]. *)
Definition demo_env (now : Z) (token : str)
    (probe : option (list RerankResult)) (planner : option str) : Env := {|
  now_cleanup_answers := now;
  now_fetch_posts := now;
  now_fetch_pages := now;
  now_fetch_media := now;
  now_cleanup_pages := now;
  now_save_page := now;
  now_memo := now;
  get_posts := fun _ => NetFail;
  get_pages := fun _ => NetFail;
  get_media := fun _ => NetFail;
  get_attachments := fun _ => NetFail;
  rerank_search := fun _ _ _ => None;
  rerank_probe := fun _ _ _ => probe;
  generate := fun _ => planner;
  token_urlsafe := token;
|}.

(** An environment in which every request fails. *)
Definition offline_env (now : Z) (token : str) : Env :=
  demo_env now token None None.

(** A stand-in library whose JSON decoder reads the empty object and the
    empty list. *)
Definition brace_lib : PyLib := {|
  py_lower := map ascii_lower;
  py_upper := map ascii_upper;
  sha256_hex := fun s => s;
  bleach_clean := fun html _ _ => html;
  slugify := fun s => s;
  slugify_other := fun _ => None;
  secure_filename := fun s => s;
  json_loads := fun s =>
    if decide (s = lit "{}") then Some (JObj [])
    else if decide (s = lit "[]") then Some (JArr [])
    else None;
  py_str := fun _ => lit "?";
  get_scores := fun _ _ _ => 0%Q;
|}.

Definition demo_post : RawPost := {|
  rp_id := Some 7%Z;
  rp_title := lit "Services";
  rp_link := lit "https://agent42labs.com/services";
  rp_content := lit "<p>we offer <b>chatbot</b> services</p>";
|}.

(** An environment whose posts listing answers [posts] and in which
    every other request fails. *)
Definition listing_env (now : Z) (posts : nat -> HttpReply RawPost) : Env := {|
  now_cleanup_answers := now;
  now_fetch_posts := now;
  now_fetch_pages := now;
  now_fetch_media := now;
  now_cleanup_pages := now;
  now_save_page := now;
  now_memo := now;
  get_posts := posts;
  get_pages := fun _ => NetFail;
  get_media := fun _ => NetFail;
  get_attachments := fun _ => NetFail;
  rerank_search := fun _ _ _ => None;
  rerank_probe := fun _ _ _ => None;
  generate := fun _ => None;
  token_urlsafe := lit "pAgE-000000009";
|}.

(** A listing of one short page, and a listing whose every page is
    full. *)
Definition one_page (page : nat) : HttpReply RawPost :=
  if decide (page = 1) then Reply 200 [] (Some [Some demo_post]) else NetFail.

Definition endless (page : nat) : HttpReply RawPost :=
  Reply 200 [] (Some (replicate 50 (Some demo_post))).

Definition demo_doc (title text : str) : Doc := {|
  post_id := Some 7%Z;
  d_title := title;
  d_url := lit "https://agent42labs.com/services";
  text_chunk := text;
|}.

Definition demo_docs : list Doc :=
  [ demo_doc (lit "About") (lit "about the lab and its team");
    demo_doc (lit "Services") (lit "we offer chatbot services");
    demo_doc (lit "Pricing") (lit "services and pricing plans") ].

(** A chunk without a token, and a world whose posts cache holds it,
    read at time 100. *)
Definition symbols_doc : Doc := {|
  post_id := Some 9%Z;
  d_title := lit "Symbols";
  d_url := lit "https://agent42labs.com/symbols";
  text_chunk := lit "?! ... (*)";
|}.

Definition symbols_world : World :=
  set_POSTS_CACHE {| dc_ts := 100; dc_docs := [symbols_doc] |} initial_world.

(** A world whose posts cache holds [demo_docs], read at time 100. *)
Definition warm_world : World :=
  set_POSTS_CACHE {| dc_ts := 100; dc_docs := demo_docs |} initial_world.


(** Requests used in the concrete runs. *)
Definition demo_q1 : str := lit "What services do you offer?".
Definition demo_q2 : str := lit "  what   SERVICES do you offer? ".
Definition demo_layout : str := lit "guide".
Definition demo_brand : str := lit "agent42labs".
Definition demo_primary : str := lit "#21808d".
Definition demo_base : str := lit "http://localhost:8080".
Definition id_A : str := lit "pAgE-000000001".
Definition id_B : str := lit "pAgE-000000002".
Definition id_C : str := lit "pAgE-000000003".

Definition demo_compose (env : Env) (question : str) (w : World)
    : option Result * World :=
  @compose_answer_page demo_lib env question demo_layout true demo_brand
    demo_primary demo_base w.

(** The world after a first compose call at time 0 with nothing to
    retrieve: it holds the no-sources page [id_A] and its answer. *)
Definition demo_w1 : World :=
  (demo_compose (offline_env 0 id_A) demo_q1 initial_world).2.

(** A view of that page and a compose call for another question. *)
Definition demo_ops : list Op :=
  [ OpView 10 id_A;
    OpCompose (offline_env 20 id_B) (lit "pricing?") demo_layout true
      demo_brand demo_primary demo_base ].


(* ================================================================== *)
(** * Properties *)
(* ================================================================== *)

(** ** Facts about the string primitives *)










(** *** Decimal numerals *)






(** *** Stripping *)

Definition no_lead (s : str) : Prop :=
  match s with
  | c :: _ => is_space c = false
  | [] => True
  end.

Lemma lstrip_split (s : str) :
  exists w, s = w ++ lstrip s /\ forallb is_space w = true.
Proof.
  induction s as [|c s (w & Hw & Hsp)]; [by exists []|]. simpl.
  destruct (is_space c) eqn:Hc.
  - exists (c :: w). simpl. rewrite Hc, Hsp. by rewrite <- Hw.
  - by exists [].
Qed.

Lemma lstrip_no_lead (s : str) : no_lead (lstrip s).
Proof.
  induction s as [|c s IH]; [done|]. simpl.
  destruct (is_space c) eqn:Hc; [done|]. by simpl.
Qed.

Lemma lstrip_id (s : str) : no_lead s -> lstrip s = s.
Proof. destruct s as [|c s]; [done|]. simpl. by intros ->. Qed.

Lemma forallb_rev_spaces (w : str) :
  forallb is_space (rev w) = forallb is_space w.
Proof.
  induction w as [|c w IH]; [done|]. simpl.
  rewrite forallb_app, IH. simpl. rewrite andb_true_r. apply andb_comm.
Qed.

Lemma rstrip_split (s : str) :
  exists w, s = rstrip s ++ w /\ forallb is_space w = true.
Proof.
  unfold rstrip. destruct (lstrip_split (rev s)) as (w & Hw & Hsp).
  exists (rev w). split.
  - rewrite <- rev_app_distr, <- Hw. by rewrite rev_involutive.
  - by rewrite forallb_rev_spaces.
Qed.

Lemma rstrip_id (s : str) : no_lead (rev s) -> rstrip s = s.
Proof.
  intros H. unfold rstrip. rewrite lstrip_id by done.
  apply rev_involutive.
Qed.

Lemma rstrip_no_lead (s : str) : no_lead s -> no_lead (rstrip s).
Proof.
  intros H. destruct (rstrip_split s) as (w & Hw & _).
  destruct (rstrip s) as [|c r]; [done|].
  rewrite Hw in H. by simpl in H.
Qed.

Lemma strip_idem (s : str) : strip (strip s) = strip s.
Proof.
  unfold strip.
  rewrite (lstrip_id (rstrip (lstrip s)))
    by apply rstrip_no_lead, lstrip_no_lead.
  apply rstrip_id. unfold rstrip. rewrite rev_involutive.
  apply lstrip_no_lead.
Qed.

Lemma strip_infix (s : str) : exists pre post, s = pre ++ strip s ++ post.
Proof.
  unfold strip. destruct (lstrip_split s) as (w1 & H1 & _).
  destruct (rstrip_split (lstrip s)) as (w2 & H2 & _).
  exists w1, w2. by rewrite <- H2.
Qed.

Lemma length_strip (s : str) : length (strip s) <= length s.
Proof.
  destruct (strip_infix s) as (pre & post & H).
  rewrite H at 2. rewrite !length_app. lia.
Qed.

Lemma nonspace_app (a b : str) :
  nonspace (a ++ b) = nonspace a ++ nonspace b.
Proof. apply List.filter_app. Qed.

Lemma nonspace_spaces (w : str) :
  forallb is_space w = true -> nonspace w = [].
Proof.
  induction w as [|c w IH]; [done|]. simpl.
  intros [-> Hw]%andb_true_iff. simpl. by apply IH.
Qed.

Lemma nonspace_strip (s : str) : nonspace (strip s) = nonspace s.
Proof.
  unfold strip. destruct (lstrip_split s) as (w1 & H1 & Hs1).
  destruct (rstrip_split (lstrip s)) as (w2 & H2 & Hs2).
  rewrite H1 at 2. rewrite H2 at 2.
  rewrite !nonspace_app, (nonspace_spaces w1), (nonspace_spaces w2)
    by done.
  by rewrite app_nil_r.
Qed.

(** *** The substitution [\s+\n -> \n] *)

Lemma ws_nl_scan_spec (s : str) (i : nat) (best : option nat) (k : nat) :
  ws_nl_scan s i best = Some k ->
  best = Some k
  \/ (i < k /\ k - i <= length s
      /\ forallb is_space (take (k - i) s) = true).
Proof.
  revert i best. induction s as [|c s IH]; intros i best H; simpl in H.
  - by left.
  - destruct (is_space c) eqn:Hc; [|by left].
    apply IH in H as [H | (Hlt & Hlen & Hsp)].
    + destruct (c =? 10)%N; [|by left].
      injection H as <-. right. replace (S i - i) with 1 by lia.
      simpl. rewrite Hc. repeat split; lia.
    + right. replace (k - i) with (S (k - S i)) by lia. simpl.
      rewrite Hc, Hsp. repeat split; lia.
Qed.

Lemma ws_nl_match_spec (s : str) (k : nat) :
  ws_nl_match s = Some k ->
  1 <= k <= length s /\ forallb is_space (take k s) = true.
Proof.
  destruct s as [|c s]; [done|]. simpl.
  destruct (is_space c) eqn:Hc; [|done].
  intros [H | (Hlt & Hlen & Hsp)]%ws_nl_scan_spec; [done|].
  replace k with (S (k - 1)) at 3 by lia. simpl.
  rewrite Hc, Hsp. repeat split; lia.
Qed.

Lemma nonspace_sub_ws_nl_from (s : str) (skip : nat) :
  skip <= length s -> forallb is_space (take skip s) = true ->
  nonspace (sub_ws_nl_from skip s) = nonspace s.
Proof.
  revert skip. induction s as [|c s IH]; intros skip Hlen Hsp; [done|].
  destruct skip as [|skip].
  - cbn [sub_ws_nl_from]. destruct (ws_nl_match (c :: s)) as [k|] eqn:Hm.
    + apply ws_nl_match_spec in Hm as ([Hk1 Hk2] & Hksp).
      simpl in Hk2. replace k with (S (k - 1)) in Hksp by lia.
      simpl in Hksp. apply andb_true_iff in Hksp as [Hc Hksp].
      simpl. rewrite Hc. simpl. apply IH; [lia | done].
    + simpl. rewrite (IH 0); [done | lia | by rewrite take_0].
  - simpl in Hsp, Hlen. apply andb_true_iff in Hsp as [Hc Hsp].
    simpl. rewrite Hc. simpl. apply IH; [lia | done].
Qed.

Lemma nonspace_sub_ws_nl (s : str) : nonspace (sub_ws_nl s) = nonspace s.
Proof.
  apply nonspace_sub_ws_nl_from; [lia | by rewrite take_0].
Qed.

(** *** The chunking loop *)

Lemma slice_infix (text : str) (i j : nat) :
  exists pre post, text = pre ++ slice text i j ++ post.
Proof.
  exists (take i text), (drop (j - i) (drop i text)). unfold slice.
  by rewrite take_drop, take_drop.
Qed.

Lemma drop_slice (text : str) (i j : nat) :
  i <= j -> drop i text = slice text i j ++ drop j text.
Proof.
  intros Hij. unfold slice.
  rewrite <- (take_drop (j - i) (drop i text)) at 1.
  rewrite drop_drop. do 2 f_equal. lia.
Qed.

Lemma chunk_loop_spec (max_chars overlap : nat) (text : str) :
  0 < max_chars ->
  forall (fuel i : nat) (acc : list str),
  i <= length text -> length text - i <= fuel ->
  exists new,
    chunk_loop fuel max_chars overlap text i acc = Some (acc ++ new)
    /\ Forall (chunk_ok max_chars text) new
    /\ nonspace (concat new) = nonspace (drop i text).
Proof.
  intros HM fuel. induction fuel as [|fuel IH]; intros i acc Hi Hfuel.
  - exists []. assert (i = length text) as -> by lia. simpl.
    destruct (decide _); [lia|].
    rewrite app_nil_r, drop_all. by repeat split.
  - cbn [chunk_loop]. destruct (decide (i < length text)) as [Hlt|Hge].
    + set (end_ := Nat.min (i + max_chars) (length text)).
      assert (i < end_ /\ end_ <= length text /\ end_ - i <= max_chars)
        as (H1 & H2 & H3) by (unfold end_; lia).
      rewrite (Nat.max_r (end_ - overlap) end_) by lia.
      remember (strip (slice text i end_)) as chunk eqn:Hchunk.
      destruct (IH end_ (if chunk is [] then acc else acc ++ [chunk]))
        as (new & Hrun & Hok & Hns); [lia | lia |].
      rewrite (drop_slice text i end_) by lia.
      rewrite nonspace_app, <- Hns, <- (nonspace_strip (slice text i end_)).
      rewrite <- Hchunk. destruct chunk as [|c rest].
      * exists new. by repeat split.
      * exists ((c :: rest) :: new). rewrite Hrun, <- app_assoc.
        split; [reflexivity|].
        split; [|by rewrite <- nonspace_app].
        constructor; [|done]. rewrite Hchunk. repeat split.
        -- by rewrite <- Hchunk.
        -- etrans; [apply length_strip|]. unfold slice.
           rewrite length_take. lia.
        -- apply strip_idem.
        -- destruct (slice_infix text i end_) as (p1 & q1 & Ht).
           destruct (strip_infix (slice text i end_)) as (p2 & q2 & Hs).
           exists (p1 ++ p2), (q2 ++ q1). rewrite Ht at 1. rewrite Hs at 1.
           by rewrite <- !app_assoc.
    + exists []. assert (i = length text) as -> by lia.
      rewrite app_nil_r, drop_all. by repeat split.
Qed.

(** *** Citation markers and anchors *)















Example chunk_small :
  chunk_text (lit "a" ++ [32; 10]%N ++ lit "b") = Some [[97; 10; 98]%N].
Proof. reflexivity. Qed.

Example linkify_small :
  linkify_citations (lit "x[1]y[2]") [ {| c_title := []; c_url := [] |} ]
  = lit "x" ++ cite_anchor 1 ++ lit "y[2]".
Proof. vm_compute. reflexivity. Qed.

(** ** The span between braces *)

Lemma find_char_None (c : N) (s : str) : find_char c s = None -> c ∉ s.
Proof.
  induction s as [|x s IH]; [by intros _ H%elem_of_nil|]. simpl.
  destruct (x =? c)%N eqn:Hx; [done|]. apply N.eqb_neq in Hx.
  destruct (find_char c s); [done|]. intros _.
  apply not_elem_of_cons. split; [done | by apply IH].
Qed.

Lemma rfind_char_None (c : N) (s : str) : rfind_char c s = None -> c ∉ s.
Proof.
  induction s as [|x s IH]; [by intros _ H%elem_of_nil|]. simpl.
  destruct (rfind_char c s); [done|].
  destruct (x =? c)%N eqn:Hx; [done|]. apply N.eqb_neq in Hx. intros _.
  apply not_elem_of_cons. split; [done | by apply IH].
Qed.

Lemma find_char_spec (c : N) (s : str) (i : nat) :
  find_char c s = Some i ->
  exists pre rest, s = pre ++ c :: rest /\ length pre = i /\ c ∉ pre.
Proof.
  revert i. induction s as [|x s IH]; intros i; [done|]. simpl.
  destruct (x =? c)%N eqn:Hx.
  - apply N.eqb_eq in Hx as ->. intros [= <-]. exists [], s.
    split; [done|]. split; [done|]. by intros H%elem_of_nil.
  - apply N.eqb_neq in Hx. destruct (find_char c s) as [j|]; [|done].
    intros [= <-]. destruct (IH j eq_refl) as (pre & rest & -> & <- & Hn).
    exists (x :: pre), rest. split; [done|]. split; [done|].
    apply not_elem_of_cons. by split.
Qed.

Lemma rfind_char_spec (c : N) (s : str) (j : nat) :
  rfind_char c s = Some j ->
  exists pre post, s = pre ++ c :: post /\ length pre = j /\ c ∉ post.
Proof.
  revert j. induction s as [|x s IH]; intros j; [done|]. simpl.
  destruct (rfind_char c s) as [k|] eqn:Hr.
  - intros [= <-]. destruct (IH k eq_refl) as (pre & post & -> & <- & Hn).
    by exists (x :: pre), post.
  - destruct (x =? c)%N eqn:Hx; [|done].
    apply N.eqb_eq in Hx as ->. intros [= <-]. exists [], s.
    split; [done|]. split; [done|]. by apply rfind_char_None.
Qed.

Lemma brace_span (a b : N) (s : str) (i j : nat) :
  find_char a s = Some i -> rfind_char b s = Some j -> i < j ->
  exists pre mid post,
    s = pre ++ a :: mid ++ b :: post
    /\ slice s i (j + 1) = a :: mid ++ [b]
    /\ (a ∉ pre) /\ (b ∉ post).
Proof.
  intros (p1 & r1 & Hs1 & Hi & Ha)%find_char_spec
         (p2 & q2 & Hs2 & Hj & Hb)%rfind_char_spec Hij.
  assert (exists mid, r1 = mid ++ b :: q2 /\ length mid = j - i - 1)
    as (mid & -> & Hmid).
  { assert (drop j s = b :: q2) as Hd
      by (by rewrite Hs2, drop_app_length').
    rewrite Hs1 in Hd. rewrite drop_app_ge in Hd by lia.
    replace (j - length p1) with (S (j - i - 1)) in Hd by lia.
    simpl in Hd. exists (take (j - i - 1) r1).
    split; [by rewrite <- Hd, take_drop|].
    rewrite length_take. apply Nat.min_l.
    pose proof (f_equal length Hd) as H1. rewrite length_drop in H1.
    simpl in H1. lia. }
  exists p1, mid, q2. split; [done|]. split; [|done].
  unfold slice. rewrite Hs1, drop_app_length' by done.
  replace (j + 1 - i) with (S (length (mid ++ [b])))
    by (rewrite length_app; simpl; lia).
  cbn [take]. f_equal.
  replace (mid ++ b :: q2) with ((mid ++ [b]) ++ q2)
    by (by rewrite <- app_assoc).
  by rewrite take_app_length'.
Qed.

(** The text either has a ["{"] before its last ["}"], and then the
    span from the first ["{"] to the last ["}"] is what [find] and
    [rfind] delimit, or it has no such shape. *)
Lemma brace_cases (txt : str) :
  (exists pre mid post start end_,
     txt = pre ++ 123%N :: mid ++ 125%N :: post
     /\ (123%N ∉ pre) /\ (125%N ∉ post)
     /\ find_char 123 txt = Some start
     /\ rfind_char 125 txt = Some end_
     /\ start < end_
     /\ slice txt start (end_ + 1) = 123%N :: mid ++ [125%N])
  \/ ((forall pre mid post, txt <> pre ++ 123%N :: mid ++ 125%N :: post)
      /\ match find_char 123 txt, rfind_char 125 txt with
         | Some start, Some end_ => ~ start < end_
         | _, _ => True
         end).
Proof.
  destruct (find_char 123 txt) as [i|] eqn:Hf.
  - destruct (rfind_char 125 txt) as [j|] eqn:Hr.
    + destruct (decide (i < j)) as [Hij|Hij].
      * left. destruct (brace_span _ _ _ _ _ Hf Hr Hij)
          as (pre & mid & post & Hs & Hsl & Ha & Hb).
        by exists pre, mid, post, i, j.
      * right. split; [|done]. intros pre mid post Hs.
        apply find_char_spec in Hf as (p1 & r1 & Hs1 & Hi & Ha).
        apply rfind_char_spec in Hr as (p2 & q2 & Hs2 & Hj & Hb).
        assert (length pre < i -> False) as Hpre.
        { intros Hlt. apply Ha.
          assert (txt !! length pre = Some 123%N) as H1
            by (rewrite Hs; by apply list_lookup_middle).
          rewrite Hs1, lookup_app_l in H1 by lia.
          by eapply list_elem_of_lookup_2. }
        apply Hb.
        assert (txt !! length (pre ++ 123%N :: mid) = Some 125%N) as H2.
        { rewrite Hs.
          replace (pre ++ 123%N :: mid ++ 125%N :: post)
            with ((pre ++ 123%N :: mid) ++ 125%N :: post)
            by (by rewrite <- app_assoc).
          by apply list_lookup_middle. }
        rewrite length_app in H2. cbn [length] in H2.
        rewrite Hs2 in H2. rewrite lookup_app_r in H2 by lia.
        destruct (length pre + S (length mid) - length p2) as [|n] eqn:Hn;
          [lia|].
        change ((125%N :: q2) !! S n) with (q2 !! n) in H2.
        by eapply list_elem_of_lookup_2.
    + right. split; [|done]. intros pre mid post Hs.
      apply (rfind_char_None _ _ Hr). rewrite Hs. set_solver.
  - right. split; [|done]. intros pre mid post Hs.
    apply (find_char_None _ _ Hf). rewrite Hs. set_solver.
Qed.

(** ** Facts about the pipeline *)

Lemma chunk_text_with_spec (max_chars overlap : nat) (text : str) :
  0 < max_chars ->
  exists chunks,
    chunk_text_with max_chars overlap text = Some chunks
    /\ Forall (chunk_ok max_chars (sub_ws_nl text)) chunks
    /\ nonspace (concat chunks) = nonspace text.
Proof.
  intros HM. unfold chunk_text_with.
  destruct (chunk_loop_spec max_chars overlap (sub_ws_nl text) HM
              (length (sub_ws_nl text)) 0 []) as (new & Hrun & Hok & Hns);
    [lia | lia |].
  exists new. repeat split; [done | done |].
  by rewrite Hns, drop_0, nonspace_sub_ws_nl.
Qed.

Lemma filter_sublist (f : N -> bool) (l : str) :
  sublist (List.filter f l) l.
Proof.
  induction l as [|c l IH]; simpl; [constructor|].
  destruct (f c); by constructor.
Qed.

Section Facts.
Context {L : PyLib}.

Lemma frame_refl (w : World) : frame w w.
Proof. repeat split. exists []. by rewrite app_nil_r. Qed.

Lemma frame_trans (w1 w2 w3 : World) :
  frame w1 w2 -> frame w2 w3 -> frame w1 w3.
Proof.
  intros (Hp1 & Ha1 & e1 & He1) (Hp2 & Ha2 & e2 & He2).
  repeat split; [congruence | congruence |].
  exists (e1 ++ e2). by rewrite He2, He1, app_assoc.
Qed.

Lemma frame_emit (evs : list Event) (w : World) : frame w (emit evs w).
Proof. repeat split. by exists evs. Qed.

Lemma fetch_wp_posts_frame (env : Env) (w : World) :
  frame w (fetch_wp_posts env w).2.
Proof.
  unfold fetch_wp_posts. destruct (_ && _); [apply frame_refl|].
  destruct (fetch_loop _ _ _ _ _ _) as [out n]. repeat split.
  by eexists.
Qed.

Lemma fetch_wp_pages_frame (env : Env) (w : World) :
  frame w (fetch_wp_pages env w).2.
Proof.
  unfold fetch_wp_pages. destruct (_ && _); [apply frame_refl|].
  destruct (fetch_loop _ _ _ _ _ _) as [out n]. repeat split.
  by eexists.
Qed.

Lemma fetch_wp_media_frame (env : Env) (w : World) :
  frame w (fetch_wp_media env w).2.
Proof.
  unfold fetch_wp_media. destruct (_ && _); [apply frame_refl|].
  destruct (fetch_loop _ _ _ _ _ _) as [out n]. repeat split.
  by eexists.
Qed.

Lemma get_all_docs_frame (env : Env) (w : World) :
  frame w (get_all_docs env w).2.
Proof.
  unfold get_all_docs.
  pose proof (fetch_wp_posts_frame env w) as H1.
  destruct (fetch_wp_posts env w) as [posts w1].
  pose proof (fetch_wp_pages_frame env w1) as H2.
  destruct (fetch_wp_pages env w1) as [pages w2].
  by eapply frame_trans.
Qed.

Lemma search_docs_frame (env : Env) (query : str) (k : Z) (w : World) :
  frame w (search_docs env query k w).2.
Proof.
  unfold search_docs. pose proof (get_all_docs_frame env w) as H1.
  destruct (get_all_docs env w) as [docs w1]. simpl in H1.
  destruct (is_nil docs); [done|].
  destruct (BM25Okapi _) as [bm25|]; [|done].
  assert (forall (x : option (list Doc)) evs,
            frame w (x, emit evs w1).2) as Hf.
  { intros x evs. eapply frame_trans; [done | apply frame_emit]. }
  destruct (rerank_search _ _ _ _) as [results|]; [|apply Hf].
  destruct (is_nil results); [apply Hf|].
  destruct (mapM _ _); apply Hf.
Qed.

Lemma get_post_attachments_frame (env : Env) (ids : list Z) (k : Z)
    (w : World) : frame w (get_post_attachments env ids k w).2.
Proof.
  unfold get_post_attachments. destruct (is_nil ids); [apply frame_refl|].
  apply frame_emit.
Qed.

Lemma keyword_images_frame (env : Env) (question : str) (w : World) :
  frame w (keyword_images env question w).2.
Proof.
  unfold keyword_images. pose proof (fetch_wp_media_frame env w) as H1.
  destruct (fetch_wp_media env w) as [imgs w1]. simpl in *.
  destruct H1 as (Hp & Ha & evs & He). repeat split; try done.
  by exists evs.
Qed.

(** *** Storing a page *)

Lemma store_page_raises (env : Env) (ck : str) (title : json)
    (safe_article brand_class primary trace_id base_url : str) (w : World) :
  safe_title_of title = None ->
  store_page env ck title safe_article brand_class primary trace_id
    base_url w = (None, w).
Proof.
  intros H. unfold store_page, bind, lift, build_fullpage_html.
  by rewrite H.
Qed.

Lemma store_page_stores (env : Env) (ck : str) (title : json)
    (safe_article brand_class primary trace_id base_url safe_title : str)
    (w : World) :
  safe_title_of title = Some safe_title ->
  store_page env ck title safe_article brand_class primary trace_id
    base_url w
  = (Some {| r_id := token_urlsafe env; r_title := title;
             r_trace_id := trace_id |},
     stored env ck title
       (page_html title safe_title safe_article brand_class primary
          trace_id (token_urlsafe env) base_url) w).
Proof.
  intros H. unfold store_page, bind, lift, run, ret, build_fullpage_html.
  rewrite H. simpl. unfold stored, _save_page, _new_id. simpl.
  f_equal. unfold set_ANSWER_CACHE, set_PAGES. simpl. f_equal.
  by rewrite alter_insert_eq.
Qed.

End Facts.

Section PlanFacts.
Context {L : PyLib}.

Lemma fallback_plan_title (title heading para : str) (d : json) :
  dict_get (fallback_plan title heading para) (lit "title") d
  = Some (JStr title).
Proof. reflexivity. Qed.

Lemma fallback_plan_summary (title heading para : str) (d : json) :
  dict_get (fallback_plan title heading para) (lit "summary") d
  = Some (JStr []).
Proof. reflexivity. Qed.

Lemma fallback_plan_show_toc (title heading para : str) (d : json) :
  dict_get (fallback_plan title heading para) (lit "show_toc") d
  = Some (JBool false).
Proof. reflexivity. Qed.

Lemma fallback_plan_sections (title heading para : str) (d : json) :
  dict_get (fallback_plan title heading para) (lit "sections") d
  = Some (JArr [fallback_section heading para]).
Proof. reflexivity. Qed.

Lemma fallback_section_id (heading para : str) (d : json) :
  dict_get (fallback_section heading para) (lit "id") d
  = Some (JStr (lit "s1")).
Proof. reflexivity. Qed.

Lemma fallback_section_heading (heading para : str) (d : json) :
  dict_get (fallback_section heading para) (lit "heading") d
  = Some (JStr heading).
Proof. reflexivity. Qed.

Lemma fallback_section_paragraphs (heading para : str) (d : json) :
  dict_get (fallback_section heading para) (lit "paragraphs") d
  = Some (JArr [JStr para]).
Proof. reflexivity. Qed.

Lemma fallback_section_bullets (heading para : str) (d : json) :
  dict_get (fallback_section heading para) (lit "bullets") d
  = Some (JArr []).
Proof. reflexivity. Qed.

Lemma render_section_fallback (brand_class heading para para_html : str) :
  render_paragraph brand_class (JStr para) = Some para_html ->
  render_section brand_class (fallback_section heading para)
  = Some (section_open brand_class (lit "s1")
          ++ section_title brand_class heading
          ++ para_html ++ lit "</section>").
Proof.
  intros Hp. unfold render_section, render_bullets.
  rewrite fallback_section_id, fallback_section_heading,
    fallback_section_paragraphs, fallback_section_bullets.
  cbn [mbind option_bind or_empty truthy iterate mapM fmt].
  rewrite Hp. cbn [mbind option_bind mret option_ret concat].
  by rewrite app_nil_r.
Qed.

Lemma render_paragraph_str (brand_class para : str) :
  exists html, render_paragraph brand_class (JStr para) = Some html.
Proof. unfold render_paragraph. destruct (startswith _ _); by eexists. Qed.

(** A fixed plan always renders: the header, the hero if any, its one
    section and the sources footer. *)
Lemma render_article_fallback_plan (title heading para : str)
    (citations : list Citation) (brand_class : str)
    (include_citations : bool) (images : list Img) :
  exists para_html,
    render_paragraph brand_class (JStr para) = Some para_html
    /\ render_article (fallback_plan title heading para) citations
         brand_class include_citations images
       = Some (article_open brand_class title []
               ++ match images with
                  | hero :: _ => hero_figure brand_class hero
                  | [] => []
                  end
               ++ (section_open brand_class (lit "s1")
                   ++ section_title brand_class heading
                   ++ para_html ++ lit "</section>")
               ++ render_sources citations brand_class include_citations
               ++ lit "</article>").
Proof.
  destruct (render_paragraph_str brand_class para) as [ph Hph].
  exists ph. split; [done|].
  unfold render_article, render_toc.
  rewrite fallback_plan_title, fallback_plan_summary,
    fallback_plan_show_toc, fallback_plan_sections.
  cbn [mbind option_bind or_empty truthy iterate mapM fmt].
  rewrite (render_section_fallback _ _ _ _ Hph).
  cbn [mbind option_bind mret option_ret concat].
  by rewrite app_nil_r.
Qed.

End PlanFacts.

Section PipelineFacts.
Context {L : PyLib}.

Lemma safe_title_of_str (s : str) :
  safe_title_of (JStr s)
  = Some (slugify (if s is [] then lit "article" else s)).
Proof. by destruct s. Qed.

(** A fixed plan always ends in a stored page. *)
Lemma fallback_page_stores (env : Env) (ck title heading para : str)
    (brand_class primary trace_id base_url : str) (w : World) :
  exists art,
    render_article (fallback_plan title heading para) [] brand_class false []
    = Some art
    /\ fallback_page env ck (fallback_plan title heading para) brand_class
         primary trace_id base_url w
       = (Some {| r_id := token_urlsafe env; r_title := JStr title;
                  r_trace_id := trace_id |},
          stored env ck (JStr title)
            (page_html (JStr title)
               (slugify (if title is [] then lit "article" else title))
               (sanitize_html art) brand_class primary trace_id
               (token_urlsafe env) base_url) w).
Proof.
  destruct (render_article_fallback_plan title heading para [] brand_class
              false []) as (ph & _ & Hart).
  eexists. split; [exact Hart|].
  unfold fallback_page. rewrite Hart. unfold bind at 1. cbn [lift ret].
  unfold bind at 1. cbn [fallback_plan assoc lift ret].
  change (if decide (lit "title" = lit "title") is left _
          then Some (JStr title) else _) with (Some (JStr title)).
  cbn [ret]. by apply store_page_stores, safe_title_of_str.
Qed.

Lemma compose_unfold (env : Env) (question layout : str)
    (include_citations : bool) (brand_class primary base_url : str)
    (w : World) :
  compose_answer_page env question layout include_citations brand_class
    primary base_url w
  = let trace_id := trace_id_for question in
    let ck :=
      _cache_key question layout include_citations brand_class primary in
    let w0 := _cleanup_answers (now_cleanup_answers env) w in
    match memo_lookup ck w0 with
    | Some pid =>
        match PAGES w0 !! pid with
        | Some page =>
            (Some {| r_id := pid; r_title := p_title page;
                     r_trace_id := trace_id |}, w0)
        | None => (None, w0)
        end
    | None =>
        let hw := search_docs env question FINAL_DOCS w0 in
        match hw.1 with
        | None => (None, hw.2)
        | Some doc_hits =>
            if is_nil doc_hits then
              fallback_page env ck no_sources_plan brand_class primary
                trace_id base_url hw.2
            else
              let documents := map text_chunk doc_hits in
              let w2 := emit [EvRerank question documents 1] hw.2 in
              if low_confidence
                   (top_score_of (rerank_probe env question documents 1))
              then fallback_page env ck low_confidence_plan brand_class
                     primary trace_id base_url w2
              else synthesize env ck doc_hits question layout
                     include_citations brand_class primary trace_id
                     base_url w2
        end
    end.
Proof.
  unfold compose_answer_page, bind, run, ret. cbn zeta.
  destruct (memo_lookup _ _) as [pid|].
  - by destruct (PAGES _ !! pid).
  - destruct (search_docs _ _ _ _) as [[hits|] w1]; cbn [fst snd]; [|done].
    destruct (is_nil hits); [done|].
    by destruct (low_confidence _).
Qed.

Lemma synthesize_unfold (env : Env) (ck : str) (doc_hits : list Doc)
    (question layout : str) (include_citations : bool)
    (brand_class primary trace_id base_url : str) (w : World) :
  synthesize env ck doc_hits question layout include_citations brand_class
    primary trace_id base_url w
  = let iw := select_images env question doc_hits w in
    let prompt :=
      build_planner_prompt question (sources_of doc_hits) layout
        include_citations in
    let w1 := emit [EvGenerate prompt] iw.2 in
    match synth_page env doc_hits question layout include_citations
            brand_class iw.1 with
    | Some (title, safe_article, safe_title) =>
        (Some {| r_id := token_urlsafe env; r_title := title;
                 r_trace_id := trace_id |},
         stored env ck title
           (page_html title safe_title safe_article brand_class primary
              trace_id (token_urlsafe env) base_url) w1)
    | None => (None, w1)
    end.
Proof.
  unfold synthesize, synth_page, bind, run, ret. cbn zeta.
  destruct (select_images _ _ _ _) as [images w1]. cbn [fst snd].
  destruct (plan_or_passthrough _ _ _) as [plan|]; [|done].
  cbn [lift ret mbind option_bind].
  destruct (render_article _ _ _ _ _) as [art|]; [|done].
  cbn [lift ret mbind option_bind].
  destruct (title_of_plan plan) as [title|]; [|done].
  cbn [lift ret mbind option_bind].
  destruct (safe_title_of title) as [st|] eqn:Hst.
  - by apply store_page_stores.
  - by apply store_page_raises.
Qed.

End PipelineFacts.

(* ================================================================== *)
(** * The claims *)
(* ================================================================== *)

(** ** C3: chunking *)

(** The windows of [chunk_text] follow one another without overlap:
    1300 characters give a chunk of 1200 and a chunk of 100. *)
Example chunk_text_windows :
  chunk_text (repeat 97%N 1300)
  = Some [repeat 97%N 1200; repeat 97%N 100].
Proof. vm_compute. reflexivity. Qed.

(** C3, as stated, fails: on the text ["a \nb"] the only chunk is
    ["a\nb"] (the space before the newline is removed before the text is
    cut), so reassembling the chunks does not give back the stripped
    text ["a \nb"]. *)
Lemma chunk_text_not_lossless :
  chunk_text [97; 32; 10; 98]%N = Some [[97; 10; 98]%N]
  /\ spec_reassemble 120 [[97; 10; 98]%N] <> strip [97; 32; 10; 98]%N.
Proof. split; [reflexivity | discriminate]. Qed.

(** C3, amended: for every input text, [chunk_text] returns chunks each
    of which is non-empty, at most 1200 characters long, free of
    whitespace at both ends and a contiguous piece of the text in which
    every whitespace run ending in a newline has been replaced by that
    newline; and the chunks, in order, contain all the non-whitespace
    characters of the text in order.  Whitespace is not preserved. *)
Theorem chunk_text_chunks (text : str) :
  exists chunks,
    chunk_text text = Some chunks
    /\ Forall (chunk_ok 1200 (sub_ws_nl text)) chunks
    /\ sublist (nonspace text) (concat chunks).
Proof.
  destruct (chunk_text_with_spec 1200 120 text) as (chunks & H & Hok & Hns);
    [lia|].
  exists chunks. repeat split; [done | done |].
  rewrite <- Hns. apply filter_sublist.
Qed.

(** ** C10: citation linking *)



(** ** C2: a failing re-fetch *)

Lemma handle_items_all {A B} (handle : A -> list B) (items : list A)
    (out : list B) :
  handle_items handle (map Some items) out
  = (out ++ concat (map handle items), true).
Proof.
  revert out. induction items as [|a items IH]; intros out; simpl.
  - by rewrite app_nil_r.
  - by rewrite IH, <- app_assoc.
Qed.

Lemma fetch_loop_stops {A B} (handle : A -> list B)
    (get : nat -> HttpReply A) (per_page page remaining : nat)
    (out : list B) :
  fails_outright (get page) ->
  fetch_loop handle get per_page page (S remaining) out = (out, 1).
Proof.
  intros Hf. simpl. destruct (get page) as [|status text body]; [done|].
  destruct (_ && _); [done|].
  destruct Hf as [-> | ->]; [done|].
  by destruct (is_error_status status).
Qed.

(** After [length pages] full pages and a request that fails outright,
    the loop returns the entries of those pages. *)
Lemma fetch_loop_fails {A B} (handle : A -> list B)
    (get : nat -> HttpReply A) (per_page : nat) (pages : list (list A)) :
  0 < per_page ->
  forall (page remaining : nat) (out : list B),
  (forall i items, pages !! i = Some items ->
     full_page per_page (get (page + i)) items) ->
  fails_outright (get (page + length pages)) ->
  length pages < remaining ->
  fetch_loop handle get per_page page remaining out
  = (out ++ concat (map handle (concat pages)), S (length pages)).
Proof.
  intros Hpp. induction pages as [|items pages IH];
    intros page remaining out Hfull Hfail Hrem.
  - destruct remaining as [|remaining]; [simpl in Hrem; lia|].
    simpl in Hfail. rewrite Nat.add_0_r in Hfail.
    rewrite fetch_loop_stops by done. simpl. by rewrite app_nil_r.
  - destruct remaining as [|remaining]; [simpl in Hrem; lia|].
    destruct (Hfull 0 items eq_refl) as (status & text & Hget & Hst & Hlen).
    rewrite Nat.add_0_r in Hget. cbn [fetch_loop]. rewrite Hget.
    assert ((status =? 400)%Z = false) as ->.
    { apply Z.eqb_neq. intros ->. done. }
    cbn [andb]. rewrite Hst.
    destruct items as [|a items]; [simpl in Hlen; lia|].
    change (map Some (a :: items)) with (Some a :: map Some items).
    change (Some a :: map Some items) with (map Some (a :: items)).
    rewrite handle_items_all. cbn [negb].
    rewrite length_map. destruct (decide _) as [Hlt|_]; [lia|].
    rewrite (IH (S page) remaining).
    + f_equal. simpl. rewrite !map_app, !concat_app.
      by rewrite <- !app_assoc.
    + intros i its Hi. replace (S page + i) with (page + S i) by lia.
      by apply Hfull.
    + simpl in Hfail. by replace (S page + length pages)
        with (page + S (length pages)) by lia.
    + simpl in Hrem. lia.
Qed.

(** C2, as stated, fails: with [demo_docs] cached at time 100 and a
    read at time 1000 whose first request raises, [fetch_wp_posts]
    returns the empty list, not the previous snapshot, and the snapshot
    is replaced by the empty list. *)
Lemma fetch_failure_drops_snapshot :
  (TTL <= now_fetch_posts (offline_env 1000 []) - dc_ts (POSTS_CACHE warm_world))%Z
  /\ fails_outright (get_posts (offline_env 1000 []) 1)
  /\ dc_docs (POSTS_CACHE warm_world) = demo_docs
  /\ (fetch_wp_posts (offline_env 1000 []) warm_world).1 = []
  /\ dc_docs (POSTS_CACHE (fetch_wp_posts (offline_env 1000 []) warm_world).2)
     = []
  /\ (fetch_wp_posts (offline_env 1000 []) warm_world).1
     <> dc_docs (POSTS_CACHE warm_world).
Proof. repeat split; done. Qed.

(** C2, amended: a cache read at or after TTL expiry whose re-fetch
    fails outright never raises; it returns the entries of the pages
    fetched before the failure (none when the first request fails),
    and stores exactly that list, with the time of the read, as the
    partition's new snapshot in place of the previous one.  This holds
    for the posts, the pages and the media partition. *)
Theorem fetch_failure_keeps_fetched (env : Env) (w : World)
    (posts pages : list (list RawPost)) (media : list (list RawMedia)) :
  ((TTL <= now_fetch_posts env - dc_ts (POSTS_CACHE w))%Z ->
   (forall i items, posts !! i = Some items ->
      full_page 50 (get_posts env (1 + i)) items) ->
   fails_outright (get_posts env (1 + length posts)) ->
   length posts < 20 ->
   let docs := concat (map post_docs (concat posts)) in
   fetch_wp_posts env w
   = (docs,
      set_POSTS_CACHE {| dc_ts := now_fetch_posts env; dc_docs := docs |}
        (emit (requests Posts (S (length posts))) w)))
  /\ ((TTL <= now_fetch_pages env - dc_ts (PAGES_CACHE w))%Z ->
      (forall i items, pages !! i = Some items ->
         full_page 50 (get_pages env (1 + i)) items) ->
      fails_outright (get_pages env (1 + length pages)) ->
      length pages < 10 ->
      let docs := concat (map post_docs (concat pages)) in
      fetch_wp_pages env w
      = (docs,
         set_PAGES_CACHE {| dc_ts := now_fetch_pages env; dc_docs := docs |}
           (emit (requests Pages (S (length pages))) w)))
  /\ ((TTL <= now_fetch_media env - mc_ts (MEDIA_CACHE w))%Z ->
      (forall i items, media !! i = Some items ->
         full_page 80 (get_media env (1 + i)) items) ->
      fails_outright (get_media env (1 + length media)) ->
      length media < 10 ->
      let imgs := concat (map media_imgs (concat media)) in
      fetch_wp_media env w
      = (imgs,
         set_MEDIA_CACHE {| mc_ts := now_fetch_media env; mc_imgs := imgs |}
           (emit (requests Media (S (length media))) w))).
Proof.
  repeat split; intros Hstale Hfull Hfail Hlen; cbn zeta.
  - unfold fetch_wp_posts.
    assert ((now_fetch_posts env - dc_ts (POSTS_CACHE w) <? TTL)%Z = false)
      as -> by lia.
    rewrite andb_false_r.
    by rewrite (fetch_loop_fails post_docs _ 50 posts) by (done || lia).
  - unfold fetch_wp_pages.
    assert ((now_fetch_pages env - dc_ts (PAGES_CACHE w) <? TTL)%Z = false)
      as -> by lia.
    rewrite andb_false_r.
    by rewrite (fetch_loop_fails post_docs _ 50 pages) by (done || lia).
  - unfold fetch_wp_media.
    assert ((now_fetch_media env - mc_ts (MEDIA_CACHE w) <? TTL)%Z = false)
      as -> by lia.
    rewrite andb_false_r.
    by rewrite (fetch_loop_fails media_imgs _ 80 media) by (done || lia).
Qed.

Lemma fetch_failure_keeps_fetched_witness :
  (TTL <= now_fetch_posts (offline_env 1000 []) - dc_ts (POSTS_CACHE warm_world))%Z
  /\ fetch_wp_posts (offline_env 1000 []) warm_world
     = ([],
        set_POSTS_CACHE {| dc_ts := 1000; dc_docs := [] |}
          (emit (requests Posts 1) warm_world)).
Proof.
  split; [vm_compute; discriminate|].
  apply (fetch_failure_keeps_fetched (offline_env 1000 []) warm_world
           [] [] []).
  - vm_compute; discriminate.
  - intros i items Hi. discriminate.
  - exact I.
  - simpl; lia.
Defined.

Section ComposeClaims.
Context {L : PyLib}.

(** *** Helpers for the compose claims *)

Lemma render_article_fixed (title heading para brand_class : str) :
  startswith (lit ">") (strip para) = false ->
  render_article (fallback_plan title heading para) [] brand_class false []
  = Some (fallback_article brand_class title heading para).
Proof.
  intros Hq.
  destruct (render_article_fallback_plan title heading para [] brand_class
              false []) as (ph & Hph & ->).
  unfold render_paragraph in Hph. rewrite Hq in Hph. by injection Hph as <-.
Qed.

Lemma fallback_page_fixed (env : Env) (ck title heading para : str)
    (brand_class primary trace_id base_url : str) (w : World) :
  startswith (lit ">") (strip para) = false ->
  fallback_page env ck (fallback_plan title heading para) brand_class
    primary trace_id base_url w
  = (Some {| r_id := token_urlsafe env; r_title := JStr title;
             r_trace_id := trace_id |},
     stored env ck (JStr title)
       (page_html (JStr title)
          (slugify (if title is [] then lit "article" else title))
          (sanitize_html (fallback_article brand_class title heading para))
          brand_class primary trace_id (token_urlsafe env) base_url) w).
Proof.
  intros Hq.
  destruct (fallback_page_stores env ck title heading para brand_class
              primary trace_id base_url w) as (art & Hart & ->).
  rewrite render_article_fixed in Hart by done. by injection Hart as <-.
Qed.


(** ** C5: the two fallback pages *)


(** *** What a compose call that misses leaves behind *)

Lemma select_images_frame (env : Env) (question : str) (hits : list Doc)
    (w : World) : frame w (select_images env question hits w).2.
Proof.
  unfold select_images.
  pose proof (get_post_attachments_frame env (attachment_ids hits) 3 w) as H.
  destruct (get_post_attachments _ _ _ _) as [images w1]. simpl in H.
  destruct (is_nil images); [|done].
  eapply frame_trans; [done | apply keyword_images_frame].
Qed.

Lemma safe_title_of_plan (plan : json) (title : json) :
  title_of_plan plan = Some title -> truthy title = true.
Proof.
  unfold title_of_plan. destruct (dict_get _ _ _) as [t|]; [|done].
  simpl. destruct (truthy t) eqn:Ht; by intros [= <-].
Qed.

(** On a memo miss, a compose call that returns has stored its page,
    built with the new id, in a world that differs from the swept one
    only by content caches and requests. *)
Lemma compose_miss_stored (env : Env) (question layout : str)
    (include_citations : bool) (brand_class primary base_url : str)
    (w : World) (r : Result) (w' : World) :
  let trace_id := trace_id_for question in
  let ck := _cache_key question layout include_citations brand_class primary in
  let w0 := _cleanup_answers (now_cleanup_answers env) w in
  memo_lookup ck w0 = None ->
  compose_answer_page env question layout include_citations brand_class
    primary base_url w = (Some r, w') ->
  exists w1 title safe_title article,
    frame w0 w1
    /\ safe_title_of title = Some safe_title
    /\ r = {| r_id := token_urlsafe env; r_title := title;
              r_trace_id := trace_id |}
    /\ w' = stored env ck title
              (page_html title safe_title article brand_class primary
                 trace_id (token_urlsafe env) base_url) w1.
Proof.
  intros trace_id ck w0 Hmiss. rewrite compose_unfold. cbn zeta.
  fold ck w0 trace_id. rewrite Hmiss.
  pose proof (search_docs_frame env question FINAL_DOCS w0) as Hs.
  destruct (search_docs env question FINAL_DOCS w0) as [[hits|] w1];
    cbn [fst snd] in *; [|done].
  destruct (is_nil hits).
  - unfold no_sources_plan. rewrite fallback_page_fixed by done.
    intros [= <- <-]. eexists w1, _, _, _.
    split; [done|]. split; [apply safe_title_of_str|]. done.
  - destruct (low_confidence _).
    + unfold low_confidence_plan. rewrite fallback_page_fixed by done.
      intros [= <- <-]. eexists _, _, _, _.
      split; [eapply frame_trans; [exact Hs | apply frame_emit]|].
      split; [apply safe_title_of_str|]. done.
    + rewrite synthesize_unfold. cbn zeta.
      set (w2 := emit _ w1).
      pose proof (select_images_frame env question hits w2) as Hi.
      destruct (select_images env question hits w2) as [images w3].
      cbn [fst snd] in *.
      destruct (synth_page _ _ _ _ _ _ _) as [[[title art] st]|] eqn:Hsp;
        [|done].
      intros [= <- <-]. eexists _, title, st, art.
      split.
      { eapply frame_trans; [exact Hs|].
        eapply frame_trans; [apply frame_emit|].
        eapply frame_trans; [exact Hi | apply frame_emit]. }
      split; [|done].
      unfold synth_page in Hsp.
      destruct (plan_or_passthrough _ _ _) as [plan|]; [|done].
      simpl in Hsp.
      destruct (render_article _ _ _ _ _); [|done]. simpl in Hsp.
      destruct (title_of_plan plan) as [t|]; [|done]. simpl in Hsp.
      destruct (safe_title_of t) eqn:Hst; [|done]. simpl in Hsp.
      by injection Hsp as <- <- <-.
Qed.

(** *** The page template and the page id *)

Lemma stored_PAGES (env : Env) (ck : str) (title : json) (html : str)
    (w : World) :
  PAGES (stored env ck title html w)
  = <[token_urlsafe env :=
        {| p_title := title; p_html := html; p_ts := now_save_page env |}]>
      (filter (fun kv => ¬ (now_cleanup_pages env - p_ts kv.2
                            > PAGES_TTL_SEC)%Z) (PAGES w)).
Proof. reflexivity. Qed.

Lemma stored_ANSWER_CACHE (env : Env) (ck : str) (title : json)
    (html : str) (w : World) :
  ANSWER_CACHE (stored env ck title html w)
  = <[ck := {| page_id := token_urlsafe env; m_ts := now_memo env |}]>
      (ANSWER_CACHE w).
Proof. reflexivity. Qed.

(** The world [stored] describes is the one the two phases produce:
    the page saved with a first HTML, then overwritten with [html]. *)
Lemma stored_two_phase (env : Env) (ck : str) (title : json)
    (tmp_html html : str) (w : World) :
  stored env ck title html w
  = set_ANSWER_CACHE
      (insert ck {| page_id := token_urlsafe env; m_ts := now_memo env |})
      (set_PAGES
         (alter (fun p => {| p_title := p_title p; p_html := html;
                             p_ts := p_ts p |}) (token_urlsafe env))
         (_save_page env title tmp_html w).2).
Proof.
  unfold stored, _save_page, _new_id, set_ANSWER_CACHE, set_PAGES.
  cbn [snd PAGES ANSWER_CACHE POSTS_CACHE PAGES_CACHE MEDIA_CACHE trace].
  by rewrite alter_insert_eq.
Qed.

Lemma save_page_lookup (env : Env) (title : json) (html : str) (w : World) :
  PAGES (_save_page env title html w).2 !! token_urlsafe env
  = Some {| p_title := title; p_html := html; p_ts := now_save_page env |}.
Proof.
  unfold _save_page, _new_id, set_PAGES. cbn [snd PAGES].
  apply lookup_insert_eq.
Qed.

Lemma stored_lookup (env : Env) (ck : str) (title : json) (html : str)
    (w : World) :
  PAGES (stored env ck title html w) !! token_urlsafe env
  = Some {| p_title := title; p_html := html; p_ts := now_save_page env |}.
Proof. rewrite stored_PAGES. apply lookup_insert_eq. Qed.

Lemma page_html_length (title : json)
    (st art bc pr tid pid base : str) :
  length (page_html title st art bc pr tid pid base)
  = length (page_html title st art bc pr tid [] base) + 3 * length pid.
Proof.
  unfold page_html, download_url, canonical_url.
  rewrite !length_app. cbn [length]. lia.
Qed.

Lemma page_html_inj (title : json) (st art bc pr tid pid1 pid2 base : str) :
  page_html title st art bc pr tid pid1 base
  = page_html title st art bc pr tid pid2 base ->
  pid1 = pid2.
Proof.
  intros Heq. pose proof (f_equal length Heq) as Hlen.
  rewrite (page_html_length _ _ _ _ _ _ pid1),
    (page_html_length _ _ _ _ _ _ pid2) in Hlen.
  unfold page_html, canonical_url in Heq.
  apply app_inv_head in Heq. rewrite <- !app_assoc in Heq.
  do 2 apply app_inv_head in Heq.
  apply app_inj_1 in Heq as [? _]; [done | lia].
Qed.

(** ** C7: two-phase persistence *)

(** C7: a compose call that stores a page (a memo miss that returns)
    first saves the page built with the placeholder id ["tmp"] under a
    new id, then overwrites its HTML with the page built with that id
    and records the answer.  When the call returns, the stored page's
    HTML is the template filled with the page's own id in the canonical
    link, in the [og:url] property and in the download link, and unless
    the new id is the placeholder itself it is not the page built with
    the placeholder. *)
Theorem two_phase_persistence (env : Env) (question layout : str)
    (include_citations : bool) (brand_class primary base_url : str)
    (w : World) (r : Result) (w' : World) :
  let trace_id := trace_id_for question in
  let ck := _cache_key question layout include_citations brand_class primary in
  let w0 := _cleanup_answers (now_cleanup_answers env) w in
  memo_lookup ck w0 = None ->
  compose_answer_page env question layout include_citations brand_class
    primary base_url w = (Some r, w') ->
  exists w1 safe_title article,
    let html pid :=
      page_html (r_title r) safe_title article brand_class primary trace_id
        pid base_url in
    r_id r = token_urlsafe env
    /\ build_fullpage_html (r_title r) article brand_class primary trace_id
         (lit "tmp") base_url = Some (html (lit "tmp"))
    /\ build_fullpage_html (r_title r) article brand_class primary trace_id
         (r_id r) base_url = Some (html (r_id r))
    /\ PAGES (_save_page env (r_title r) (html (lit "tmp")) w1).2 !! r_id r
       = Some {| p_title := r_title r; p_html := html (lit "tmp");
                 p_ts := now_save_page env |}
    /\ w' = set_ANSWER_CACHE
              (insert ck {| page_id := r_id r; m_ts := now_memo env |})
              (set_PAGES
                 (alter (fun p => {| p_title := p_title p;
                                     p_html := html (r_id r);
                                     p_ts := p_ts p |}) (r_id r))
                 (_save_page env (r_title r) (html (lit "tmp")) w1).2)
    /\ PAGES w' !! r_id r
       = Some {| p_title := r_title r; p_html := html (r_id r);
                 p_ts := now_save_page env |}
    /\ html (r_id r)
       = page_part1 (r_title r) trace_id
         ++ canonical_url base_url (r_id r)
         ++ page_part2 (r_title r)
         ++ canonical_url base_url (r_id r)
         ++ page_part3 primary brand_class
         ++ download_url base_url (r_id r)
         ++ page_part4 safe_title article brand_class
              CONTACT_EMAIL CONTACT_PHONE CONTACT_URL
    /\ (r_id r <> lit "tmp" -> html (r_id r) <> html (lit "tmp")).
Proof.
  intros trace_id ck w0 Hmiss Hrun.
  destruct (compose_miss_stored env question layout include_citations
              brand_class primary base_url w r w' Hmiss Hrun)
    as (w1 & title & st & art & _ & Hst & -> & ->).
  exists w1, st, art. cbn zeta. cbn [r_id r_title].
  unfold build_fullpage_html. rewrite Hst. cbn [mbind option_bind].
  repeat split.
  - apply save_page_lookup.
  - apply stored_two_phase.
  - apply stored_lookup.
  - intros Hne Heq. by apply page_html_inj in Heq.
Qed.

(** ** C9: a failing confidence probe *)


(** ** C6: planner output and the passthrough plan *)





(** ** C4: search when the reranker fails *)

Lemma insert_desc_perm {A} (key : A -> Q) (x : A) (l : list A) :
  insert_desc key x l ≡ₚ x :: l.
Proof.
  induction l as [|y l IH]; simpl; [done|].
  destruct (Qle_bool _ _); [done|]. rewrite IH. apply Permutation_swap.
Qed.

Lemma sorted_desc_perm {A} (key : A -> Q) (l : list A) :
  sorted_desc key l ≡ₚ l.
Proof.
  induction l as [|x l IH]; simpl; [done|].
  by rewrite insert_desc_perm, IH.
Qed.

Lemma insert_desc_sorted (score : nat -> Q) (x : nat) (l : list nat) :
  StronglySorted (ranks_before score) l ->
  Forall (fun y => x < y) l ->
  StronglySorted (ranks_before score) (insert_desc score x l).
Proof.
  induction l as [|y l IH]; intros Hs Hx; simpl.
  - repeat constructor.
  - apply StronglySorted_cons in Hs as [Hy Hs].
    apply Forall_cons in Hx as [Hxy Hx].
    destruct (Qle_bool (score y) (score x)) eqn:Hle.
    + apply Qle_bool_iff in Hle.
      assert (forall z, x < z -> (score z <= score x)%Q ->
                ranks_before score x z) as Hrank.
      { intros z Hz Hzx.
        destruct (Qlt_le_dec (score z) (score x)) as [?|Hge];
          [by left|].
        right. split; [by apply Qle_antisym | done]. }
      constructor; [by constructor|]. constructor; [by apply Hrank|].
      rewrite Forall_forall in Hy, Hx |- *. intros z Hz.
      apply Hrank; [by apply Hx|].
      destruct (Hy z Hz) as [Hlt | [Heq _]].
      * eapply Qle_trans; [by apply Qlt_le_weak | done].
      * eapply Qle_trans; [|done]. by apply Qle_lteq; right.
    + assert (score x < score y)%Q as Hlt.
      { apply Qnot_le_lt. rewrite <- Qle_bool_iff. by rewrite Hle. }
      constructor; [by apply IH|].
      rewrite insert_desc_perm. constructor; [by left | done].
Qed.

Lemma sorted_desc_sorted (score : nat -> Q) (l : list nat) :
  StronglySorted lt l ->
  StronglySorted (ranks_before score) (sorted_desc score l).
Proof.
  induction l as [|x l IH]; intros Hl; simpl; [constructor|].
  apply StronglySorted_cons in Hl as [Hx Hl].
  apply insert_desc_sorted; [by apply IH|].
  by rewrite sorted_desc_perm.
Qed.

Lemma seq_sorted (j n : nat) : StronglySorted lt (seq j n).
Proof.
  revert j. induction n as [|n IH]; intros j; simpl; constructor; [done|].
  apply Forall_forall. intros y Hy%elem_of_seq. lia.
Qed.

Lemma omap_lookup_valid {A} (l : list A) (idx : list nat) :
  Forall (fun i => i < length l) idx ->
  Forall2 (fun h i => l !! i = Some h) (omap (l !!.) idx) idx.
Proof.
  induction idx as [|i idx IH]; intros Hv; [constructor|].
  apply Forall_cons in Hv as [Hi Hv].
  destruct (lookup_lt_is_Some_2 l i Hi) as [h Hh].
  cbn. rewrite Hh. constructor; [done | by apply IH].
Qed.

Lemma py_take_nonneg {A} (m : Z) (l : list A) :
  (0 <= m)%Z -> py_take m l = take (Z.to_nat m) l.
Proof. intros Hm. unfold py_take. by assert ((m <? 0)%Z = false) as -> by lia. Qed.

Lemma BM25Okapi_has_token (docs : list Doc) :
  has_token docs ->
  BM25Okapi (map _tok (map text_chunk docs))
  = Some (get_scores (map _tok (map text_chunk docs))).
Proof.
  intros (d & Hd & Htok). unfold BM25Okapi.
  destruct (forallb _ _) eqn:Hall; [|done]. exfalso. apply Htok.
  rewrite forallb_forall in Hall.
  assert (is_nil (_tok (text_chunk d)) = true) as Hn.
  { apply Hall. rewrite map_map. apply in_map_iff.
    exists d. split; [done|]. by apply list_elem_of_In. }
  by destruct (_tok (text_chunk d)).
Qed.

(** C4, as stated, fails: with a cached corpus whose only chunk has no
    token, and a reranker that raises on every call, [search_docs] does
    not return the one candidate there is: it raises, at the
    construction of the lexical index. *)
Lemma search_docs_raises_without_tokens :
  (get_all_docs (offline_env 200 id_A) symbols_world).1 = [symbols_doc]
  /\ (forall q d n, rerank_search (offline_env 200 id_A) q d n = None)
  /\ _tok (L := demo_lib) (text_chunk symbols_doc) = []
  /\ (search_docs (L := demo_lib) (offline_env 200 id_A)
        (lit "services") 1 symbols_world).1 = None.
Proof.
  split; [vm_compute; reflexivity|]. split; [done|].
  split; vm_compute; reflexivity.
Qed.

(** C4, amended: if the reranker raises on every call, then for every
    query and every [k >= 0], whenever the lexical index can be built
    (the corpus is empty, or one of its chunks has a token),
    [search_docs] returns [min(k, number of candidates)] chunks (which
    is [min(k, number of chunks)]); they are the chunks of the corpus
    with the highest lexical scores, in descending order of score,
    chunks of equal score in corpus order. *)
Theorem search_docs_rerank_failure (env : Env) (query : str) (k : Z)
    (w : World) :
  let docs := (get_all_docs env w).1 in
  let score := get_scores (map _tok (map text_chunk docs)) (_tok query) in
  (0 <= k)%Z ->
  (forall q d n, rerank_search env q d n = None) ->
  docs = [] \/ has_token docs ->
  exists result idx,
    (search_docs env query k w).1 = Some result
    /\ Forall2 (fun h i => docs !! i = Some h) result idx
    /\ length result
       = Z.to_nat k `min` length (lexical_candidates docs score k)
    /\ length result = Z.to_nat k `min` length docs
    /\ StronglySorted (ranks_before score) idx
    /\ NoDup idx
    /\ (forall i j, i ∈ idx -> j < length docs -> j ∉ idx ->
          ranks_before score i j).
Proof.
  intros docs score Hk Hfail Hidx.
  assert ((search_docs env query k w).1
          = Some (take (Z.to_nat k) (lexical_candidates docs score k)))
    as Hsearch.
  { subst score docs. unfold search_docs.
    destruct (get_all_docs env w) as [docs w1]. cbn [fst] in *.
    destruct docs as [|d ds].
    - cbn [is_nil fst]. unfold lexical_candidates. cbn.
      rewrite !py_take_nonneg by lia. rewrite !take_nil. cbn.
      by rewrite take_nil.
    - cbn [is_nil]. destruct Hidx as [?|Htok]; [done|].
      rewrite (BM25Okapi_has_token _ Htok). cbn zeta.
      rewrite Hfail. by rewrite py_take_nonneg. }
  remember (take (Z.to_nat k) (lexical_candidates docs score k))
    as result eqn:Hres.
  set (n := length docs).
  set (S := sorted_desc score (seq 0 n)).
  assert (S ≡ₚ seq 0 n) as HSp by apply sorted_desc_perm.
  assert (StronglySorted (ranks_before score) S) as HSs
    by apply sorted_desc_sorted, seq_sorted.
  assert (length S = n) as HSn by by rewrite HSp, length_seq.
  assert (Forall (fun i => i < length docs) S) as HSv.
  { rewrite HSp. apply Forall_forall. intros i Hi%elem_of_seq. lia. }
  set (m := Z.to_nat (Z.min (Z.max (k * 5) k) (Z.of_nat n))).
  assert (lexical_candidates docs score k
          = omap (docs !!.) (take m S)) as Hcand.
  { unfold lexical_candidates. rewrite length_map. fold n S.
    rewrite !py_take_nonneg by lia. fold m.
    destruct (omap _ (take m S)) as [|h hs] eqn:Hom; [|done].
    pose proof (omap_lookup_valid docs (take m S)
                  (Forall_take _ _ _ HSv)) as H2.
    rewrite Hom in H2. apply Forall2_length in H2.
    rewrite length_take in H2. simpl in H2. cbn [is_nil].
    apply length_zero_iff_nil. rewrite length_take. fold n. lia. }
  exists result, (take (Z.to_nat k) (take m S)).
  assert (Forall2 (fun h i => docs !! i = Some h) result
            (take (Z.to_nat k) (take m S))) as HF.
  { rewrite Hres, Hcand. apply Forall2_take, omap_lookup_valid.
    by apply Forall_take. }
  pose proof (Forall2_length _ _ _ HF) as Hlen.
  rewrite !length_take, HSn in Hlen.
  assert (length (lexical_candidates docs score k) = m `min` n) as Hcl.
  { rewrite Hcand.
    rewrite (Forall2_length _ _ _
               (omap_lookup_valid docs (take m S) (Forall_take _ _ _ HSv))).
    by rewrite length_take, HSn. }
  rewrite take_take in *.
  set (c := Z.to_nat k `min` m) in *.
  split; [exact Hsearch|]. repeat split.
  - done.
  - rewrite Hcl. lia.
  - fold n. lia.
  - rewrite <- (take_drop c S) in HSs.
    by apply StronglySorted_app_1_l in HSs.
  - eapply sublist_NoDup; [|apply sublist_take].
    rewrite HSp. apply NoDup_seq.
  - intros i j Hi Hj Hnj.
    assert (j ∈ S) as HjS by (rewrite HSp, elem_of_seq; lia).
    rewrite <- (take_drop c S) in HjS, HSs.
    apply elem_of_app in HjS as [?|HjS]; [done|].
    by eapply StronglySorted_app_1_elem_of.
Qed.

(** ** The stored pages and recorded answers across requests *)

(** What a compose call does to the stored pages and the recorded
    answers: nothing beyond the sweep of the answers (a hit, or a call
    that raises), or, on a miss, a sweep of the pages, one new page and
    one new answer. *)
Lemma compose_effect (env : Env) (question layout : str)
    (include_citations : bool) (brand_class primary base_url : str)
    (w : World) :
  let ck := _cache_key question layout include_citations brand_class primary in
  let w0 := _cleanup_answers (now_cleanup_answers env) w in
  let w' := (compose_answer_page env question layout include_citations
               brand_class primary base_url w).2 in
  (PAGES w' = PAGES w /\ ANSWER_CACHE w' = ANSWER_CACHE w0)
  \/ (memo_lookup ck w0 = None
      /\ exists title html,
           PAGES w'
           = <[token_urlsafe env :=
                 {| p_title := title; p_html := html;
                    p_ts := now_save_page env |}]>
               (filter (fun kv => ¬ (now_cleanup_pages env - p_ts kv.2
                                     > PAGES_TTL_SEC)%Z) (PAGES w))
           /\ ANSWER_CACHE w'
              = <[ck := {| page_id := token_urlsafe env;
                           m_ts := now_memo env |}]> (ANSWER_CACHE w0)).
Proof.
  intros ck w0 w'. subst w'. rewrite compose_unfold. cbn zeta.
  fold ck w0. destruct (memo_lookup ck w0) as [pid|] eqn:Hmemo.
  { left. by destruct (PAGES w0 !! pid). }
  pose proof (search_docs_frame env question FINAL_DOCS w0) as Hs.
  destruct (search_docs env question FINAL_DOCS w0) as [[hits|] w1];
    cbn [fst snd] in *;
    [|left; by destruct Hs as (-> & -> & _)].
  assert (forall w2 title html, frame w0 w2 ->
    exists title' html',
      PAGES (stored env ck title html w2)
      = <[token_urlsafe env :=
            {| p_title := title'; p_html := html';
               p_ts := now_save_page env |}]>
          (filter (fun kv => ¬ (now_cleanup_pages env - p_ts kv.2
                                > PAGES_TTL_SEC)%Z) (PAGES w))
      /\ ANSWER_CACHE (stored env ck title html w2)
         = <[ck := {| page_id := token_urlsafe env;
                      m_ts := now_memo env |}]> (ANSWER_CACHE w0))
    as Hstored.
  { intros w2 title html (Hp & Ha & _). exists title, html.
    by rewrite stored_PAGES, stored_ANSWER_CACHE, Hp, Ha. }
  destruct (is_nil hits).
  - right. split; [done|]. unfold no_sources_plan.
    rewrite fallback_page_fixed by done. by apply Hstored.
  - assert (frame w0 (emit [EvRerank question (map text_chunk hits) 1] w1))
      as Hs2 by (eapply frame_trans; [exact Hs | apply frame_emit]).
    destruct (low_confidence _).
    + right. split; [done|]. unfold low_confidence_plan.
      rewrite fallback_page_fixed by done. by apply Hstored.
    + rewrite synthesize_unfold. cbn zeta.
      set (w2 := emit _ w1) in *.
      pose proof (select_images_frame env question hits w2) as Hi.
      destruct (select_images env question hits w2) as [images w3].
      cbn [fst snd] in *.
      assert (frame w0 (emit [EvGenerate
                (build_planner_prompt question (sources_of hits) layout
                   include_citations)] w3)) as Hs3.
      { eapply frame_trans; [exact Hs2|].
        eapply frame_trans; [exact Hi | apply frame_emit]. }
      destruct (synth_page _ _ _ _ _ _ _) as [[[title art] st]|].
      * right. split; [done|]. by apply Hstored.
      * left. destruct Hs3 as (Hp & Ha & _). cbn [snd]. by rewrite Hp, Ha.
Qed.

Lemma cleanup_answers_lookup (now : Z) (w : World) (ck : str) (e : Memo) :
  ANSWER_CACHE w !! ck = Some e ->
  (now - m_ts e <= ANSWER_TTL_SEC)%Z ->
  ANSWER_CACHE (_cleanup_answers now w) !! ck = Some e.
Proof.
  intros He Hts. unfold _cleanup_answers. cbn.
  apply map_lookup_filter_Some. split; [done|]. cbn. lia.
Qed.

Lemma cache_key_norm (q1 q2 layout : str) (include_citations : bool)
    (brand_class primary : str) :
  norm_question q1 = norm_question q2 ->
  _cache_key q1 layout include_citations brand_class primary
  = _cache_key q2 layout include_citations brand_class primary.
Proof. intros H. unfold _cache_key. by rewrite H. Qed.

(** *** C1: the recorded answer survives the requests in between *)

Lemma step_keeps_answer (pid ck : str) (e : Memo) (deadline : Z)
    (o : Op) (w : World) :
  page_id e = pid ->
  (deadline - m_ts e <= ANSWER_TTL_SEC)%Z ->
  op_quiet pid deadline o ->
  ANSWER_CACHE w !! ck = Some e \/ PAGES w !! pid = None ->
  ANSWER_CACHE (step o w) !! ck = Some e \/ PAGES (step o w) !! pid = None.
Proof.
  intros Hpid Hdl Hq HJ.
  destruct o as [env question layout inc bc pr base | now p | now p].
  - destruct Hq as [Hnow Htok]. cbn [step].
    pose proof (compose_effect env question layout inc bc pr base w) as He.
    cbn zeta in He.
    destruct He as [[Hp Ha] | (Hmiss & title & html & Hp & Ha)].
    + rewrite Hp, Ha. destruct HJ as [HJ|HJ]; [left|by right].
      apply cleanup_answers_lookup; [done | lia].
    + rewrite Hp, Ha. destruct HJ as [HJ|HJ].
      * apply (cleanup_answers_lookup (now_cleanup_answers env)) in HJ;
          [|lia].
        destruct (decide (_cache_key question layout inc bc pr = ck))
          as [Hck|Hck].
        -- right. rewrite lookup_insert_ne by done.
           apply map_lookup_filter_None. left.
           unfold memo_lookup in Hmiss. rewrite Hck, HJ in Hmiss.
           cbn in Hmiss. rewrite Hpid in Hmiss.
           destruct (decide _) as [|Hn]; [done|].
           destruct (PAGES w !! pid) eqn:Hpg; [|done].
           exfalso. apply Hn. by eexists.
        -- left. by rewrite lookup_insert_ne.
      * right. rewrite lookup_insert_ne by done.
        apply map_lookup_filter_None. by left.
  - cbn. destruct HJ as [HJ|HJ]; [by left|right].
    apply map_lookup_filter_None. by left.
  - cbn. destruct HJ as [HJ|HJ]; [by left|right].
    apply map_lookup_filter_None. by left.
Qed.

Lemma run_ops_keeps_answer (pid ck : str) (e : Memo) (deadline : Z)
    (ops : list Op) (w : World) :
  page_id e = pid ->
  (deadline - m_ts e <= ANSWER_TTL_SEC)%Z ->
  Forall (op_quiet pid deadline) ops ->
  ANSWER_CACHE w !! ck = Some e \/ PAGES w !! pid = None ->
  ANSWER_CACHE (run_ops ops w) !! ck = Some e
  \/ PAGES (run_ops ops w) !! pid = None.
Proof.
  intros Hpid Hdl Hq. revert w.
  induction Hq as [|o ops Ho Hops IH]; intros w HJ; [done|].
  cbn. apply IH. by eapply step_keeps_answer.
Qed.

(** ** C1: memoisation *)

(** C1, as stated, fails when the first of the two calls is itself
    served from the memo: a call at time 0 stores page [id_A]; the same
    question at time 43000 is a hit and returns [id_A]; the same
    question again at time 43300, that is 300 seconds after that call
    and with page [id_A] still stored, finds the answer swept (it was
    recorded at time 0 and a hit does not renew it) and returns a new
    page [id_C]. *)
Lemma memo_hit_not_renewed :
  r_id <$> (demo_compose (offline_env 43000 id_B) demo_q1 demo_w1).1
  = Some id_A
  /\ (43300 - 43000 <= ANSWER_TTL_SEC)%Z
  /\ is_Some
       (PAGES (demo_compose (offline_env 43000 id_B) demo_q1 demo_w1).2
          !! id_A)
  /\ r_id <$>
       (demo_compose (offline_env 43300 id_C) demo_q1
          (demo_compose (offline_env 43000 id_B) demo_q1 demo_w1).2).1
     = Some id_C
  /\ id_C <> id_A
  /\ is_Some
       (PAGES
          (demo_compose (offline_env 43300 id_C) demo_q1
             (demo_compose (offline_env 43000 id_B) demo_q1 demo_w1).2).2
          !! id_A).
Proof.
  split; [vm_compute; reflexivity|].
  split; [vm_compute; discriminate|].
  split; [vm_compute; eexists; reflexivity|].
  split; [vm_compute; reflexivity|].
  split; [vm_compute; discriminate|].
  vm_compute; eexists; reflexivity.
Qed.


(** C1, amended: let a compose call store its page (a memo miss that
    returns), and let a second call have a question with the same
    normalised text and the same layout, citation, brand and colour
    parameters.  If the
    second call sweeps the answers within [ANSWER_TTL_SEC] of the time
    the first recorded its answer, and the page of the first call is
    still stored, then the second call returns the id of the first; it
    leaves the world as the sweep of the answers leaves it: no request
    is made and no page is stored.  The requests handled in between may
    be any that leave the recorded answer alone ([op_quiet]). *)
Theorem memo_idempotence (env1 env2 : Env) (q1 q2 layout : str)
    (include_citations : bool) (brand_class primary base1 base2 : str)
    (w : World) (r1 : Result) (w1 : World) (ops : list Op) :
  let ck := _cache_key q1 layout include_citations brand_class primary in
  let w2 := run_ops ops w1 in
  let swept := _cleanup_answers (now_cleanup_answers env2) w2 in
  norm_question q1 = norm_question q2 ->
  memo_lookup ck (_cleanup_answers (now_cleanup_answers env1) w) = None ->
  compose_answer_page env1 q1 layout include_citations brand_class primary
    base1 w = (Some r1, w1) ->
  Forall (op_quiet (r_id r1) (now_cleanup_answers env2)) ops ->
  (now_cleanup_answers env2 - now_memo env1 <= ANSWER_TTL_SEC)%Z ->
  is_Some (PAGES w2 !! r_id r1) ->
  exists page,
    PAGES w2 !! r_id r1 = Some page
    /\ compose_answer_page env2 q2 layout include_citations brand_class
         primary base2 w2
       = (Some {| r_id := r_id r1; r_title := p_title page;
                  r_trace_id := trace_id_for q2 |}, swept)
    /\ trace swept = trace w2
    /\ PAGES swept = PAGES w2.
Proof.
  intros ck w2 swept Hnorm Hmiss Hrun Hops Httl [page Hpage].
  destruct (compose_miss_stored env1 q1 layout include_citations
              brand_class primary base1 w r1 w1 Hmiss Hrun)
    as (w1' & title & st & art & _ & _ & -> & ->).
  cbn [r_id] in *. fold ck in Hops |- *.
  set (e := {| page_id := token_urlsafe env1; m_ts := now_memo env1 |}).
  assert (ANSWER_CACHE w2 !! ck = Some e) as He.
  { assert (ANSWER_CACHE
              (stored env1 ck title
                 (page_html title st art brand_class primary
                    (trace_id_for q1) (token_urlsafe env1) base1) w1')
            !! ck = Some e) as H0
      by (rewrite stored_ANSWER_CACHE; apply lookup_insert_eq).
    destruct (run_ops_keeps_answer (token_urlsafe env1) ck e _ ops _
                eq_refl Httl Hops (or_introl H0)) as [H|H]; [done|].
    change (PAGES w2 !! token_urlsafe env1 = None) in H.
    by rewrite Hpage in H. }
  exists page. split; [done|]. split; [|done].
  rewrite compose_unfold. cbn zeta.
  rewrite <- (cache_key_norm q1 q2) by done. fold ck swept.
  assert (memo_lookup ck swept = Some (token_urlsafe env1)) as ->.
  { unfold memo_lookup. subst swept.
    rewrite (cleanup_answers_lookup _ _ _ e He) by done. cbn.
    rewrite Hpage.
    destruct (decide _) as [|Hn]; [done|]. exfalso. apply Hn. by eexists. }
  change (PAGES swept) with (PAGES w2). by rewrite Hpage.
Qed.

(** ** C8: expiry of stored pages *)




End ComposeClaims.

(** ** Concrete runs *)

Lemma memo_idempotence_witness :
  norm_question (L := demo_lib) demo_q1 = norm_question (L := demo_lib) demo_q2
  /\ is_Some (PAGES (run_ops (L := demo_lib) demo_ops demo_w1) !! id_A)
  /\ exists page,
       PAGES (run_ops (L := demo_lib) demo_ops demo_w1) !! id_A = Some page
       /\ demo_compose (offline_env 100 id_C) demo_q2
            (run_ops (L := demo_lib) demo_ops demo_w1)
          = (Some {| r_id := id_A; r_title := p_title page;
                     r_trace_id := trace_id_for (L := demo_lib) demo_q2 |},
             _cleanup_answers 100 (run_ops (L := demo_lib) demo_ops demo_w1)).
Proof.
  assert (norm_question (L := demo_lib) demo_q1
          = norm_question (L := demo_lib) demo_q2) as Hnorm
    by (vm_compute; reflexivity).
  assert (is_Some (PAGES (run_ops (L := demo_lib) demo_ops demo_w1) !! id_A))
    as Hpage by (vm_compute; eexists; reflexivity).
  assert (memo_lookup
            (_cache_key (L := demo_lib) demo_q1 demo_layout true demo_brand
               demo_primary)
            (_cleanup_answers 0 initial_world) = None) as Hmiss
    by (vm_compute; reflexivity).
  assert (demo_compose (offline_env 0 id_A) demo_q1 initial_world
          = (Some {| r_id := id_A; r_title := JStr NO_SOURCES_TITLE;
                     r_trace_id := trace_id_for (L := demo_lib) demo_q1 |},
             demo_w1)) as Hrun.
  { unfold demo_w1.
    rewrite (surjective_pairing (demo_compose _ _ _)) at 1.
    f_equal; vm_compute; reflexivity. }
  assert (Forall (op_quiet id_A 100) demo_ops) as Hops.
  { repeat constructor; vm_compute; congruence. }
  split; [exact Hnorm|]. split; [exact Hpage|].
  destruct (memo_idempotence (L := demo_lib) (offline_env 0 id_A)
              (offline_env 100 id_C) demo_q1 demo_q2 demo_layout true
              demo_brand demo_primary demo_base demo_base initial_world _
              demo_w1 demo_ops Hnorm Hmiss Hrun Hops
              ltac:(vm_compute; discriminate) Hpage)
    as (page & H1 & H2 & _).
  exists page. split; [exact H1 | exact H2].
Defined.

Lemma search_docs_rerank_failure_witness :
  (0 <= 2)%Z
  /\ (forall q d n, rerank_search (offline_env 200 id_A) q d n = None)
  /\ has_token (L := demo_lib)
       (get_all_docs (offline_env 200 id_A) warm_world).1
  /\ exists result,
       (search_docs (L := demo_lib) (offline_env 200 id_A)
          (lit "services pricing") 2 warm_world).1 = Some result
       /\ length result = 2.
Proof.
  assert (has_token (L := demo_lib)
            (get_all_docs (offline_env 200 id_A) warm_world).1) as Htok.
  { exists (demo_doc (lit "About") (lit "about the lab and its team")).
    split; [vm_compute; constructor | vm_compute; discriminate]. }
  split; [lia|]. split; [done|]. split; [exact Htok|].
  destruct (search_docs_rerank_failure (L := demo_lib) (offline_env 200 id_A)
              (lit "services pricing") 2 warm_world ltac:(lia)
              ltac:(done) (or_intror Htok))
    as (result & idx & Hres & _ & _ & Hlen & _).
  exists result. split; [exact Hres|].
  rewrite Hlen. vm_compute; reflexivity.
Defined.



Lemma two_phase_persistence_witness :
  memo_lookup
    (_cache_key (L := demo_lib) demo_q1 demo_layout true demo_brand
       demo_primary)
    (_cleanup_answers 0 initial_world) = None
  /\ is_Some (PAGES demo_w1 !! id_A).
Proof.
  assert (memo_lookup
            (_cache_key (L := demo_lib) demo_q1 demo_layout true demo_brand
               demo_primary)
            (_cleanup_answers 0 initial_world) = None) as Hmiss
    by (vm_compute; reflexivity).
  assert (demo_compose (offline_env 0 id_A) demo_q1 initial_world
          = (Some {| r_id := id_A; r_title := JStr NO_SOURCES_TITLE;
                     r_trace_id := trace_id_for (L := demo_lib) demo_q1 |},
             demo_w1)) as Hrun.
  { unfold demo_w1.
    rewrite (surjective_pairing (demo_compose _ _ _)) at 1.
    f_equal; vm_compute; reflexivity. }
  split; [exact Hmiss|].
  destruct (two_phase_persistence (L := demo_lib) (offline_env 0 id_A)
              demo_q1 demo_layout true demo_brand demo_primary demo_base
              initial_world _ demo_w1 Hmiss Hrun)
    as (w1 & st & art & _ & _ & _ & _ & _ & Hpage & _).
  cbn [r_id] in Hpage. by eexists.
Defined.




(* ================================================================== *)
(** * Further properties of the code *)
(* ================================================================== *)

(** ** Tags *)

Lemma tag_scan_none (s : str) (i : nat) :
  tag_scan s i = None <->
  (i = 0 /\ exists s', s = 62%N :: s') \/ 62%N ∉ s.
Proof.
  revert i. induction s as [|c s IH]; intros i; simpl.
  - split; [intros _; right; apply not_elem_of_nil | done].
  - destruct (c =? 62)%N eqn:Hc.
    + apply N.eqb_eq in Hc as ->. destruct (decide (i = 0)) as [->|Hi].
      * split; [intros _; left; eauto | done].
      * split; [done|]. intros [[? _]|Hn]; [done|].
        exfalso. apply Hn. constructor.
    + apply N.eqb_neq in Hc. rewrite IH. split.
      * intros [[? _]|Hn]; [lia|]. right.
        apply not_elem_of_cons. split; [congruence | done].
      * intros [[_ [s' Hs']]|Hn]; [congruence|]. right.
        by apply not_elem_of_cons in Hn as [_ ?].
Qed.

Lemma tag_scan_app (s t : str) (i k : nat) :
  tag_scan s i = Some k -> tag_scan (s ++ t) i = Some k.
Proof.
  revert i. induction s as [|c s IH]; intros i; simpl; [done|].
  destruct (c =? 62)%N; [done | apply IH].
Qed.

Lemma tag_match_app (s t : str) (k : nat) :
  tag_match s = Some k -> tag_match (s ++ t) = Some k.
Proof.
  destruct s as [|c s]; [done|]. simpl.
  destruct (c =? 60)%N; [apply tag_scan_app | done].
Qed.

Lemma sub_tags_from_elem (x : N) (s : str) (skip : nat) :
  x ∈ sub_tags_from skip s -> x ∈ s.
Proof.
  revert skip. induction s as [|c s IH]; intros skip; [done|].
  destruct skip as [|skip]; cbn [sub_tags_from].
  - destruct (tag_match (c :: s)).
    + intros H%IH. by constructor.
    + intros [->|H%IH]%elem_of_cons; by constructor.
  - intros H%IH. by constructor.
Qed.

Lemma tag_free_tail (c : N) (s : str) : tag_free (c :: s) -> tag_free s.
Proof. intros H k. apply (H (S k)). Qed.

Lemma tag_free_cons (c : N) (s : str) :
  tag_match (c :: s) = None -> tag_free s -> tag_free (c :: s).
Proof. intros H0 Hs [|k]; [done | apply Hs]. Qed.

Lemma sub_tags_from_tag_free (s : str) (skip : nat) :
  tag_free (sub_tags_from skip s).
Proof.
  revert skip. induction s as [|c s IH]; intros skip.
  - intros k. by destruct k.
  - destruct skip as [|skip]; cbn [sub_tags_from]; [|apply IH].
    destruct (tag_match (c :: s)) as [k|] eqn:Hm; [apply IH|].
    apply tag_free_cons; [|apply IH].
    simpl in *. destruct (c =? 60)%N; [|done].
    apply tag_scan_none. apply tag_scan_none in Hm as [[_ [s' ->]]|Hn].
    + left. split; [done|]. cbn [sub_tags_from tag_match].
      change ((62 =? 60)%N) with false. cbn. eauto.
    + right. intros Hin. by apply Hn, (sub_tags_from_elem _ _ 0).
Qed.

Lemma sub_tags_tag_free_id (s : str) :
  tag_free s -> sub_tags_from 0 s = s.
Proof.
  induction s as [|c s IH]; intros Hf; [done|].
  cbn [sub_tags_from]. pose proof (Hf 0) as H0.
  change (tag_match (c :: s) = None) in H0. rewrite H0. f_equal.
  by eapply IH, tag_free_tail.
Qed.

Lemma tag_free_infix (pre s post : str) :
  tag_free (pre ++ s ++ post) -> tag_free s.
Proof.
  intros Hf k. destruct (tag_match (drop k s)) as [j|] eqn:Hm; [|done].
  destruct (decide (k <= length s)) as [Hk|Hk].
  - apply (tag_match_app _ post) in Hm.
    specialize (Hf (length pre + k)).
    rewrite drop_app_add, drop_app_le in Hf by done. congruence.
  - by rewrite drop_ge in Hm by lia.
Qed.

Lemma strip_html_tag_free (html : str) : tag_free (_strip_html html).
Proof.
  unfold _strip_html.
  destruct (strip_infix (sub_tags_from 0 html)) as (pre & post & Hs).
  apply (tag_free_infix pre _ post). rewrite <- Hs.
  apply sub_tags_from_tag_free.
Qed.

(** X1: [_strip_html] leaves no tag behind and no whitespace at either
    end, and stripping again changes nothing. *)
Theorem strip_html_clean (html : str) :
  tag_free (_strip_html html)
  /\ strip (_strip_html html) = _strip_html html
  /\ _strip_html (_strip_html html) = _strip_html html.
Proof.
  pose proof (strip_html_tag_free html) as Hf.
  split; [done|]. unfold _strip_html in *. split; [apply strip_idem|].
  rewrite (sub_tags_tag_free_id _ Hf). apply strip_idem.
Qed.

(** ** Tokens *)

Lemma tok_runs_tokens (s cur : str) :
  Forall (fun c => is_tok_char c = true) cur ->
  Forall (fun t => t <> [] /\ Forall (fun c => is_tok_char c = true) t)
    (tok_runs s cur).
Proof.
  revert cur. induction s as [|c s IH]; intros cur Hcur; simpl.
  - destruct cur as [|x cur]; [constructor|].
    constructor; [done | constructor].
  - destruct (is_tok_char c) eqn:Hc.
    + apply IH. apply Forall_app. split; [done | by constructor].
    + destruct cur as [|x cur]; [by apply IH|].
      constructor; [done | by apply IH].
Qed.

Section Tokens.
Context {L : PyLib}.

(** X2: every token of [_tok] is non-empty and made of the characters
    [a-z] and [0-9] only. *)
Theorem tok_tokens (text : str) :
  Forall (fun t => t <> [] /\ Forall (fun c => is_tok_char c = true) t)
    (_tok text).
Proof. apply tok_runs_tokens. constructor. Qed.

End Tokens.

(** ** Blank documents *)

Lemma strip_fixed_nonspace (c : str) :
  c <> [] -> strip c = c -> nonspace c <> [].
Proof.
  intros Hne Hs. assert (no_lead c) as Hl.
  { rewrite <- Hs. unfold strip. apply rstrip_no_lead, lstrip_no_lead. }
  destruct c as [|x c]; [done|]. simpl in *. by rewrite Hl.
Qed.

Lemma chunk_text_blank_iff (text : str) :
  exists chunks,
    chunk_text text = Some chunks
    /\ Forall (chunk_ok 1200 (sub_ws_nl text)) chunks
    /\ (chunks = [] <-> nonspace text = []).
Proof.
  destruct (chunk_text_with_spec 1200 120 text) as (chunks & H & Hok & Hns);
    [lia|].
  exists chunks. split; [done|]. split; [done|].
  rewrite <- Hns. split; [by intros ->|].
  destruct chunks as [|c chunks]; [done|]. intros Hnil.
  apply Forall_cons in Hok as [(Hne & _ & Hs & _) _].
  exfalso. apply (strip_fixed_nonspace c Hne Hs).
  simpl in Hnil. rewrite nonspace_app in Hnil.
  by apply app_eq_nil in Hnil as [? _].
Qed.

(** X3: [chunk_text] returns no chunk exactly when the text has no
    character other than whitespace (the empty text included). *)
Theorem chunk_text_blank (text : str) :
  exists chunks,
    chunk_text text = Some chunks
    /\ (chunks = [] <-> nonspace text = []).
Proof.
  destruct (chunk_text_blank_iff text) as (chunks & H & _ & Hiff).
  by exists chunks.
Qed.

(** X4: the documents a post or page contributes to the index: one per
    chunk of its content with the tags removed, each with the post's id
    and link, a title without tags, and a chunk that is not empty, at
    most 1200 characters long and stripped.  A post whose content holds
    nothing but tags and whitespace contributes no document. *)
Theorem post_docs_entries (p : RawPost) :
  Forall (fun d =>
            post_id d = rp_id p /\ d_url d = rp_link p
            /\ tag_free (d_title d)
            /\ chunk_ok 1200 (sub_ws_nl (_strip_html (rp_content p)))
                 (text_chunk d))
    (post_docs p)
  /\ (post_docs p = [] <-> nonspace (_strip_html (rp_content p)) = []).
Proof.
  unfold post_docs, chunks_of.
  destruct (chunk_text_blank_iff (_strip_html (rp_content p)))
    as (chunks & -> & Hok & Hiff).
  cbn [default]. split.
  - apply Forall_map. eapply Forall_impl; [exact Hok|].
    intros c Hc. cbn. split; [done|]. split; [done|].
    split; [apply strip_html_tag_free | done].
  - rewrite <- Hiff. by destruct chunks.
Qed.

Section Dedupe.
Context {L : PyLib}.

Lemma dedupe_loop_spec (items : list Citation) (seen : list str)
    (out : list Citation) :
  exists new,
    dedupe_loop items seen out = out ++ new
    /\ sublist new items
    /\ NoDup (citation_key <$> new)
    /\ (forall c, c ∈ new -> citation_key c <> [] /\ citation_key c ∉ seen)
    /\ (forall c, c ∈ items -> citation_key c <> [] ->
          citation_key c ∈ seen \/ citation_key c ∈ citation_key <$> new).
Proof.
  revert seen out. induction items as [|c rest IH]; intros seen out.
  - exists []. rewrite app_nil_r.
    split; [done|]. split; [constructor|]. split; [constructor|].
    split; by intros c' Hc%elem_of_nil.
  - cbn [dedupe_loop]. fold (citation_key c).
    destruct (citation_key c) as [|x key] eqn:Hkey.
    + destruct (IH seen out) as (new & -> & Hsub & Hnd & Hel & Hcov).
      exists new. repeat split; [by constructor | done | by apply Hel..|].
      intros c' [->|Hc']%elem_of_cons Hne; [congruence | by apply Hcov].
    + cbn [orb]. destruct (bool_decide (x :: key ∈ seen)) eqn:Hseen.
      * apply bool_decide_eq_true in Hseen.
        destruct (IH seen out) as (new & -> & Hsub & Hnd & Hel & Hcov).
        exists new. repeat split; [by constructor | done | by apply Hel..|].
        intros c' [->|Hc']%elem_of_cons Hne; [|by apply Hcov].
        left. by rewrite Hkey.
      * apply bool_decide_eq_false in Hseen.
        destruct (IH ((x :: key) :: seen) (out ++ [c]))
          as (new & -> & Hsub & Hnd & Hel & Hcov).
        exists (c :: new). rewrite <- app_assoc. split; [done|].
        split; [by constructor|]. split; [|split].
        -- cbn. constructor; [|done]. rewrite Hkey.
           intros (c' & Hk & Hc')%list_elem_of_fmap.
           destruct (Hel c' Hc') as [_ Hn]. apply Hn. rewrite <- Hk.
           constructor.
        -- intros c' [->|Hc']%elem_of_cons.
           ++ by rewrite Hkey.
           ++ destruct (Hel c' Hc') as [? Hn]. split; [done|].
              by apply not_elem_of_cons in Hn as [_ ?].
        -- intros c' [->|Hc']%elem_of_cons Hne.
           ++ right. cbn. constructor.
           ++ destruct (Hcov c' Hc' Hne) as [[Heq|?]%elem_of_cons|?].
              ** right. cbn. rewrite Heq, <- Hkey. constructor.
              ** by left.
              ** right. cbn. by constructor.
Qed.

Lemma dedupe_loop_fixed (items : list Citation) (seen : list str)
    (out : list Citation) :
  NoDup (citation_key <$> items) ->
  (forall c, c ∈ items -> citation_key c <> [] /\ citation_key c ∉ seen) ->
  dedupe_loop items seen out = out ++ items.
Proof.
  revert seen out. induction items as [|c rest IH]; intros seen out Hnd Hel.
  - by rewrite app_nil_r.
  - cbn [dedupe_loop]. fold (citation_key c).
    destruct (Hel c ltac:(constructor)) as [Hne Hns].
    apply NoDup_cons in Hnd as [Hc Hnd].
    destruct (citation_key c) as [|x key] eqn:Hkey; [done|].
    cbn [orb]. rewrite bool_decide_eq_false_2 by done.
    rewrite IH, <- app_assoc; [done | done |].
    intros c' Hc'. destruct (Hel c' ltac:(by constructor)) as [? ?].
    split; [done|]. apply not_elem_of_cons. split; [|done].
    intros Heq. apply Hc. rewrite <- Heq. by apply list_elem_of_fmap_2.
Qed.

(** X5: [dedupe_citations] keeps the citations in their order, one per key
    (the lower-cased, stripped url, or title when the url is empty): no
    two kept citations share a key, none has an empty key, every
    non-empty key of the input is kept once, and a second pass changes
    nothing. *)
Theorem dedupe_citations_spec (items : list Citation) :
  sublist (dedupe_citations items) items
  /\ NoDup (citation_key <$> dedupe_citations items)
  /\ (forall c, c ∈ dedupe_citations items -> citation_key c <> [])
  /\ (forall c, c ∈ items -> citation_key c <> [] ->
        citation_key c ∈ citation_key <$> dedupe_citations items)
  /\ dedupe_citations (dedupe_citations items) = dedupe_citations items.
Proof.
  unfold dedupe_citations.
  destruct (dedupe_loop_spec items [] []) as (new & -> & Hsub & Hnd & Hel & Hcov).
  rewrite app_nil_l. repeat split; [done | done | | |].
  - intros c Hc. by apply Hel.
  - intros c Hc Hne. destruct (Hcov c Hc Hne) as [H%elem_of_nil|H]; done.
  - by rewrite dedupe_loop_fixed.
Qed.

End Dedupe.

(** ** The cache key and the whitespace around the question *)

Lemma lstrip_spaces_app (w s : str) :
  forallb is_space w = true -> lstrip (w ++ s) = lstrip s.
Proof.
  induction w as [|c w IH]; [done|]. simpl.
  intros [-> Hw]%andb_true_iff. by apply IH.
Qed.

Lemma lstrip_app_nonempty (s w : str) :
  lstrip s <> [] -> lstrip (s ++ w) = lstrip s ++ w.
Proof.
  induction s as [|c s IH]; [done|]. simpl.
  destruct (is_space c); [apply IH | done].
Qed.

Lemma lstrip_nil_spaces (s : str) :
  lstrip s = [] -> forallb is_space s = true.
Proof.
  induction s as [|c s IH]; [done|]. simpl.
  destruct (is_space c); [apply IH | done].
Qed.

Lemma rstrip_app_spaces (s w : str) :
  forallb is_space w = true -> rstrip (s ++ w) = rstrip s.
Proof.
  intros Hw. unfold rstrip. rewrite rev_app_distr.
  rewrite lstrip_spaces_app; [done|]. by rewrite forallb_rev_spaces.
Qed.

Lemma strip_padding (w1 q w2 : str) :
  forallb is_space w1 = true -> forallb is_space w2 = true ->
  strip (w1 ++ q ++ w2) = strip q.
Proof.
  intros H1 H2. unfold strip. rewrite lstrip_spaces_app by done.
  destruct (lstrip q) as [|c r] eqn:Hq.
  - apply lstrip_nil_spaces in Hq.
    rewrite <- (app_nil_r (q ++ w2)), lstrip_spaces_app; [done|].
    rewrite forallb_app. by rewrite Hq, H2.
  - rewrite lstrip_app_nonempty, Hq by (by rewrite Hq).
    by apply rstrip_app_spaces.
Qed.

Section CacheKey.
Context {L : PyLib}.

(** X6: whitespace before and after the question does not change the
    cache key. *)
Theorem cache_key_padding (w1 q w2 layout : str) (include_citations : bool)
    (brand_class primary : str) :
  forallb is_space w1 = true -> forallb is_space w2 = true ->
  _cache_key (w1 ++ q ++ w2) layout include_citations brand_class primary
  = _cache_key q layout include_citations brand_class primary.
Proof.
  intros H1 H2. unfold _cache_key, norm_question.
  by rewrite strip_padding.
Qed.

End CacheKey.

Lemma cache_key_padding_witness :
  forallb is_space (lit "  ") = true
  /\ forallb is_space [10%N] = true
  /\ _cache_key (L := demo_lib) (lit "  " ++ demo_q1 ++ [10%N]) demo_layout
       true demo_brand demo_primary
     = _cache_key (L := demo_lib) demo_q1 demo_layout true demo_brand
         demo_primary.
Proof.
  split; [reflexivity|]. split; [reflexivity|].
  by apply (cache_key_padding (L := demo_lib)).
Defined.

(** ** The listing fetchers *)

Lemma fetch_loop_requests {A B} (handle : A -> list B)
    (get : nat -> HttpReply A) (per_page remaining page : nat)
    (out : list B) :
  (fetch_loop handle get per_page page remaining out).2 <= remaining
  /\ (0 < remaining ->
      0 < (fetch_loop handle get per_page page remaining out).2).
Proof.
  revert page out. induction remaining as [|remaining IH]; intros page out.
  - simpl. lia.
  - cbn [fetch_loop].
    destruct (get page) as [|status text body]; [simpl; lia|].
    destruct (_ && _); [simpl; lia|].
    destruct (is_error_status status); [simpl; lia|].
    destruct body as [[|item items]|]; [simpl; lia| |simpl; lia].
    destruct (handle_items handle (item :: items) out) as [out' finished].
    destruct (negb finished); [simpl; lia|].
    destruct (decide _) as [?|?]; [simpl; lia|].
    specialize (IH (S page) out').
    destruct (fetch_loop handle get per_page (S page) remaining out')
      as [res m].
    simpl in *. lia.
Qed.

Lemma cache_fresh_hit {A} (now ts : Z) (snapshot : list A) :
  negb (is_nil snapshot) && (now - ts <? TTL)%Z = true
  <-> cache_fresh now ts snapshot.
Proof.
  unfold cache_fresh. rewrite andb_true_iff, Z.ltb_lt.
  destruct snapshot; simpl; split; intros [H1 H2]; (done || by split).
Qed.

(** X7: a read of a listing partition (posts, pages, media) is served from
    the cache exactly when its snapshot is not empty and younger than
    [TTL]: then the snapshot is returned, the state is unchanged and no
    request is made.  Otherwise the read makes at least one request and
    at most [max_pages] (20 for posts, 10 for pages and media), for the
    pages 1, 2, ... in order; an empty snapshot is therefore fetched
    again by every read. *)
Theorem fetch_requests (env : Env) (w : World) :
  ((cache_fresh (now_fetch_posts env) (dc_ts (POSTS_CACHE w)) (dc_docs (POSTS_CACHE w))
    /\ fetch_wp_posts env w = (dc_docs (POSTS_CACHE w), w))
   \/ (~ cache_fresh (now_fetch_posts env) (dc_ts (POSTS_CACHE w))
           (dc_docs (POSTS_CACHE w))
       /\ exists n, 1 <= n <= 20
            /\ trace (fetch_wp_posts env w).2 = trace w ++ requests Posts n))
  /\ ((cache_fresh (now_fetch_pages env) (dc_ts (PAGES_CACHE w))
         (dc_docs (PAGES_CACHE w))
       /\ fetch_wp_pages env w = (dc_docs (PAGES_CACHE w), w))
      \/ (~ cache_fresh (now_fetch_pages env) (dc_ts (PAGES_CACHE w))
              (dc_docs (PAGES_CACHE w))
          /\ exists n, 1 <= n <= 10
               /\ trace (fetch_wp_pages env w).2
                  = trace w ++ requests Pages n))
  /\ ((cache_fresh (now_fetch_media env) (mc_ts (MEDIA_CACHE w))
         (mc_imgs (MEDIA_CACHE w))
       /\ fetch_wp_media env w = (mc_imgs (MEDIA_CACHE w), w))
      \/ (~ cache_fresh (now_fetch_media env) (mc_ts (MEDIA_CACHE w))
              (mc_imgs (MEDIA_CACHE w))
          /\ exists n, 1 <= n <= 10
               /\ trace (fetch_wp_media env w).2
                  = trace w ++ requests Media n)).
Proof.
  split; [|split].
  - unfold fetch_wp_posts.
    destruct (negb _ && _) eqn:Hhit.
    + left. by apply cache_fresh_hit in Hhit.
    + right. split.
      { intros Hf%cache_fresh_hit. congruence. }
      pose proof (fetch_loop_requests post_docs (get_posts env) 50 20 1 [])
        as [Hle Hpos].
      destruct (fetch_loop _ _ _ _ _ _) as [out n]. simpl in *.
      exists n. split; [lia | done].
  - unfold fetch_wp_pages.
    destruct (negb _ && _) eqn:Hhit.
    + left. by apply cache_fresh_hit in Hhit.
    + right. split.
      { intros Hf%cache_fresh_hit. congruence. }
      pose proof (fetch_loop_requests post_docs (get_pages env) 50 10 1 [])
        as [Hle Hpos].
      destruct (fetch_loop _ _ _ _ _ _) as [out n]. simpl in *.
      exists n. split; [lia | done].
  - unfold fetch_wp_media.
    destruct (negb _ && _) eqn:Hhit.
    + left. by apply cache_fresh_hit in Hhit.
    + right. split.
      { intros Hf%cache_fresh_hit. congruence. }
      pose proof (fetch_loop_requests media_imgs (get_media env) 80 10 1 [])
        as [Hle Hpos].
      destruct (fetch_loop _ _ _ _ _ _) as [out n]. simpl in *.
      exists n. split; [lia | done].
Qed.

Lemma fetch_loop_last {A B} (handle : A -> list B)
    (get : nat -> HttpReply A) (per_page page remaining : nat)
    (out : list B) (items : list A) :
  last_page per_page (get page) items ->
  fetch_loop handle get per_page page (S remaining) out
  = (out ++ concat (map handle items), 1).
Proof.
  intros (status & text & Hget & Hst & Hlen). cbn [fetch_loop]. rewrite Hget.
  assert ((status =? 400)%Z = false) as ->.
  { apply Z.eqb_neq. intros ->. done. }
  cbn [andb]. rewrite Hst.
  destruct items as [|a items]; [simpl; by rewrite app_nil_r|].
  change (Some a :: map Some items) with (map Some (a :: items)).
  change (map Some (a :: items)) with (Some a :: map Some items) at 1.
  change (Some a :: map Some items) with (map Some (a :: items)).
  rewrite handle_items_all. cbn [negb]. rewrite length_map.
  by destruct (decide _) as [|Hn]; [|lia].
Qed.

Lemma fetch_loop_full {A B} (handle : A -> list B)
    (get : nat -> HttpReply A) (per_page page remaining : nat)
    (out : list B) (items : list A) :
  0 < per_page ->
  full_page per_page (get page) items ->
  fetch_loop handle get per_page page (S remaining) out
  = let '(res, n) :=
      fetch_loop handle get per_page (S page) remaining
        (out ++ concat (map handle items)) in
    (res, S n).
Proof.
  intros Hpp (status & text & Hget & Hst & Hlen). cbn [fetch_loop].
  rewrite Hget.
  assert ((status =? 400)%Z = false) as ->.
  { apply Z.eqb_neq. intros ->. done. }
  cbn [andb]. rewrite Hst.
  destruct items as [|a items]; [simpl in Hlen; lia|].
  change (Some a :: map Some items) with (map Some (a :: items)).
  change (map Some (a :: items)) with (Some a :: map Some items) at 1.
  change (Some a :: map Some items) with (map Some (a :: items)).
  rewrite handle_items_all. cbn [negb]. rewrite length_map.
  by destruct (decide _) as [Hlt|_]; [lia|].
Qed.

(** After [length pages] full pages, a last page ends the loop; and with
    [remaining] full pages the loop ends at the page limit. *)
Lemma fetch_loop_complete {A B} (handle : A -> list B)
    (get : nat -> HttpReply A) (per_page : nat) (pages : list (list A))
    (last : list A) :
  0 < per_page ->
  forall (page remaining : nat) (out : list B),
  (forall i items, pages !! i = Some items ->
     full_page per_page (get (page + i)) items) ->
  last_page per_page (get (page + length pages)) last ->
  length pages < remaining ->
  fetch_loop handle get per_page page remaining out
  = (out ++ concat (map handle (concat pages ++ last)), S (length pages)).
Proof.
  intros Hpp. induction pages as [|items pages IH];
    intros page remaining out Hfull Hlast Hrem.
  - destruct remaining as [|remaining]; [simpl in Hrem; lia|].
    simpl in Hlast. rewrite Nat.add_0_r in Hlast.
    by rewrite (fetch_loop_last _ _ _ _ _ _ last).
  - destruct remaining as [|remaining]; [simpl in Hrem; lia|].
    pose proof (Hfull 0 items eq_refl) as H0. rewrite Nat.add_0_r in H0.
    rewrite (fetch_loop_full _ _ _ _ _ _ items) by done.
    rewrite (IH (S page) remaining).
    + f_equal. simpl. rewrite !map_app, !concat_app.
      by rewrite <- !app_assoc.
    + intros i its Hi. replace (S page + i) with (page + S i) by lia.
      by apply Hfull.
    + simpl in Hlast. by replace (S page + length pages)
        with (page + S (length pages)) by lia.
    + simpl in Hrem. lia.
Qed.

Lemma fetch_loop_limit {A B} (handle : A -> list B)
    (get : nat -> HttpReply A) (per_page : nat) (pages : list (list A)) :
  0 < per_page ->
  forall (page : nat) (out : list B),
  (forall i items, pages !! i = Some items ->
     full_page per_page (get (page + i)) items) ->
  fetch_loop handle get per_page page (length pages) out
  = (out ++ concat (map handle (concat pages)), length pages).
Proof.
  intros Hpp. induction pages as [|items pages IH]; intros page out Hfull.
  - simpl. by rewrite app_nil_r.
  - pose proof (Hfull 0 items eq_refl) as H0. rewrite Nat.add_0_r in H0.
    cbn [length].
    rewrite (fetch_loop_full _ _ _ _ _ _ items) by done.
    rewrite (IH (S page)).
    + f_equal. simpl. rewrite !map_app, !concat_app.
      by rewrite <- !app_assoc.
    + intros i its Hi. replace (S page + i) with (page + S i) by lia.
      by apply Hfull.
Qed.

(** X8: a read that is not served from the cache and finds [length posts]
    full pages followed by a short (or empty) page returns the entries
    of all these pages in order, stores them with the time of the read
    as the new snapshot, and has made one request per page.  The same
    holds for the pages and the media partition. *)
Theorem fetch_complete (env : Env) (w : World)
    (posts pages : list (list RawPost)) (media : list (list RawMedia))
    (last_posts last_pages : list RawPost) (last_media : list RawMedia) :
  (~ cache_fresh (now_fetch_posts env) (dc_ts (POSTS_CACHE w))
       (dc_docs (POSTS_CACHE w)) ->
   (forall i items, posts !! i = Some items ->
      full_page 50 (get_posts env (1 + i)) items) ->
   last_page 50 (get_posts env (1 + length posts)) last_posts ->
   length posts < 20 ->
   let docs := concat (map post_docs (concat posts ++ last_posts)) in
   fetch_wp_posts env w
   = (docs,
      set_POSTS_CACHE {| dc_ts := now_fetch_posts env; dc_docs := docs |}
        (emit (requests Posts (S (length posts))) w)))
  /\ (~ cache_fresh (now_fetch_pages env) (dc_ts (PAGES_CACHE w))
          (dc_docs (PAGES_CACHE w)) ->
      (forall i items, pages !! i = Some items ->
         full_page 50 (get_pages env (1 + i)) items) ->
      last_page 50 (get_pages env (1 + length pages)) last_pages ->
      length pages < 10 ->
      let docs := concat (map post_docs (concat pages ++ last_pages)) in
      fetch_wp_pages env w
      = (docs,
         set_PAGES_CACHE {| dc_ts := now_fetch_pages env; dc_docs := docs |}
           (emit (requests Pages (S (length pages))) w)))
  /\ (~ cache_fresh (now_fetch_media env) (mc_ts (MEDIA_CACHE w))
          (mc_imgs (MEDIA_CACHE w)) ->
      (forall i items, media !! i = Some items ->
         full_page 80 (get_media env (1 + i)) items) ->
      last_page 80 (get_media env (1 + length media)) last_media ->
      length media < 10 ->
      let imgs := concat (map media_imgs (concat media ++ last_media)) in
      fetch_wp_media env w
      = (imgs,
         set_MEDIA_CACHE {| mc_ts := now_fetch_media env; mc_imgs := imgs |}
           (emit (requests Media (S (length media))) w))).
Proof.
  repeat split; intros Hstale Hfull Hlast Hlen; cbn zeta.
  - unfold fetch_wp_posts.
    destruct (negb _ && _) eqn:Hhit;
      [by apply cache_fresh_hit in Hhit|].
    by rewrite (fetch_loop_complete post_docs _ 50 posts last_posts)
      by (done || lia).
  - unfold fetch_wp_pages.
    destruct (negb _ && _) eqn:Hhit;
      [by apply cache_fresh_hit in Hhit|].
    by rewrite (fetch_loop_complete post_docs _ 50 pages last_pages)
      by (done || lia).
  - unfold fetch_wp_media.
    destruct (negb _ && _) eqn:Hhit;
      [by apply cache_fresh_hit in Hhit|].
    by rewrite (fetch_loop_complete media_imgs _ 80 media last_media)
      by (done || lia).
Qed.

(** X9: a read that is not served from the cache and finds the first
    [max_pages] pages all full (20 pages of 50 posts, 10 of 50 pages,
    10 of 80 media) stops there: it returns and stores the entries of
    these pages only, and never asks for a further page. *)
Theorem fetch_page_limit (env : Env) (w : World)
    (posts pages : list (list RawPost)) (media : list (list RawMedia)) :
  (~ cache_fresh (now_fetch_posts env) (dc_ts (POSTS_CACHE w))
       (dc_docs (POSTS_CACHE w)) ->
   (forall i items, posts !! i = Some items ->
      full_page 50 (get_posts env (1 + i)) items) ->
   length posts = 20 ->
   let docs := concat (map post_docs (concat posts)) in
   fetch_wp_posts env w
   = (docs,
      set_POSTS_CACHE {| dc_ts := now_fetch_posts env; dc_docs := docs |}
        (emit (requests Posts 20) w)))
  /\ (~ cache_fresh (now_fetch_pages env) (dc_ts (PAGES_CACHE w))
          (dc_docs (PAGES_CACHE w)) ->
      (forall i items, pages !! i = Some items ->
         full_page 50 (get_pages env (1 + i)) items) ->
      length pages = 10 ->
      let docs := concat (map post_docs (concat pages)) in
      fetch_wp_pages env w
      = (docs,
         set_PAGES_CACHE {| dc_ts := now_fetch_pages env; dc_docs := docs |}
           (emit (requests Pages 10) w)))
  /\ (~ cache_fresh (now_fetch_media env) (mc_ts (MEDIA_CACHE w))
          (mc_imgs (MEDIA_CACHE w)) ->
      (forall i items, media !! i = Some items ->
         full_page 80 (get_media env (1 + i)) items) ->
      length media = 10 ->
      let imgs := concat (map media_imgs (concat media)) in
      fetch_wp_media env w
      = (imgs,
         set_MEDIA_CACHE {| mc_ts := now_fetch_media env; mc_imgs := imgs |}
           (emit (requests Media 10) w))).
Proof.
  repeat split; intros Hstale Hfull Hlen; cbn zeta.
  - unfold fetch_wp_posts.
    destruct (negb _ && _) eqn:Hhit;
      [by apply cache_fresh_hit in Hhit|].
    pose proof (fetch_loop_limit post_docs (get_posts env) 50 posts ltac:(lia) 1 []
                  Hfull) as Hloop.
    rewrite Hlen in Hloop. by rewrite Hloop.
  - unfold fetch_wp_pages.
    destruct (negb _ && _) eqn:Hhit;
      [by apply cache_fresh_hit in Hhit|].
    pose proof (fetch_loop_limit post_docs (get_pages env) 50 pages ltac:(lia) 1 []
                  Hfull) as Hloop.
    rewrite Hlen in Hloop. by rewrite Hloop.
  - unfold fetch_wp_media.
    destruct (negb _ && _) eqn:Hhit;
      [by apply cache_fresh_hit in Hhit|].
    pose proof (fetch_loop_limit media_imgs (get_media env) 80 media ltac:(lia) 1 []
                  Hfull) as Hloop.
    rewrite Hlen in Hloop. by rewrite Hloop.
Qed.

Lemma fetch_complete_witness :
  last_page 50 (get_posts (listing_env 1000 one_page) 1) [demo_post]
  /\ (fetch_wp_posts (listing_env 1000 one_page)
        initial_world).1
     = post_docs demo_post.
Proof.
  assert (last_page 50 (get_posts (listing_env 1000 one_page) 1) [demo_post])
    as Hlast.
  { exists 200%Z, []. split; [reflexivity|]. split; [reflexivity|]. simpl; lia. }
  split; [exact Hlast|].
  destruct (fetch_complete (listing_env 1000 one_page)
              initial_world [] [] [] [demo_post] [] []) as (H & _).
  rewrite H.
  - vm_compute; reflexivity.
  - intros [Hne _]. by apply Hne.
  - intros i items Hi. discriminate.
  - exact Hlast.
  - simpl; lia.
Defined.

Lemma fetch_page_limit_witness :
  length (replicate 20 (replicate 50 demo_post)) = 20
  /\ trace (fetch_wp_posts (listing_env 1000 endless)
              initial_world).2
     = requests Posts 20.
Proof.
  split; [reflexivity|].
  destruct (fetch_page_limit (listing_env 1000 endless)
              initial_world (replicate 20 (replicate 50 demo_post)) [] [])
    as (H & _).
  rewrite H.
  - reflexivity.
  - intros [Hne _]. by apply Hne.
  - intros i items [-> _]%lookup_replicate. exists 200%Z, [].
    split; [|split; [reflexivity|]].
    + reflexivity.
    + rewrite length_replicate. lia.
  - reflexivity.
Defined.

(** ** Slices *)

Lemma py_take_sublist {A} (m : Z) (l : list A) : sublist (py_take m l) l.
Proof. unfold py_take. destruct (m <? 0)%Z; apply sublist_take. Qed.

Lemma py_take_length {A} (m : Z) (l : list A) :
  (0 <= m)%Z -> length (py_take m l) <= Z.to_nat m.
Proof.
  intros Hm. rewrite py_take_nonneg by done. rewrite length_take. lia.
Qed.

Lemma py_index_elem_of {A} (l : list A) (i : Z) (x : A) :
  py_index l i = Some x -> x ∈ l.
Proof.
  unfold py_index. destruct (0 <=? i)%Z.
  - apply list_elem_of_lookup_2.
  - destruct (_ <=? _)%Z; [apply list_elem_of_lookup_2 | done].
Qed.

Lemma omap_lookup_elem_of {A} (l : list A) (idx : list nat) (x : A) :
  x ∈ omap (fun i => l !! i) idx -> x ∈ l.
Proof.
  intros (i & _ & Hi)%list_elem_of_omap.
  by eapply list_elem_of_lookup_2.
Qed.

Lemma length_omap_le {A B} (f : A -> option B) (l : list A) :
  length (omap f l) <= length l.
Proof.
  induction l as [|a l IH]; [done|]. cbn [omap list_omap].
  destruct (f a); cbn [length]; fold (omap f l); lia.
Qed.

Lemma lexical_candidates_elem_of (docs : list Doc) (scores : nat -> Q)
    (k : Z) (d : Doc) :
  d ∈ lexical_candidates docs scores k -> d ∈ docs.
Proof.
  unfold lexical_candidates. cbn zeta.
  destruct (is_nil _).
  - intros Hd. eapply elem_of_sublist; [done | apply py_take_sublist].
  - apply omap_lookup_elem_of.
Qed.

Lemma lexical_candidates_length (docs : list Doc) (scores : nat -> Q)
    (k : Z) :
  (0 <= k)%Z ->
  length (lexical_candidates docs scores k) <= Z.to_nat (5 * k).
Proof.
  intros Hk. unfold lexical_candidates. cbn zeta.
  replace (Z.max (k * 5) k) with (5 * k)%Z by lia.
  destruct (is_nil _).
  - apply py_take_length. lia.
  - etrans; [apply length_omap_le|].
    etrans; [apply py_take_length; lia|]. lia.
Qed.

Section Search.
Context {L : PyLib}.

Lemma BM25Okapi_no_token (docs : list Doc) :
  ~ has_token docs -> BM25Okapi (map _tok (map text_chunk docs)) = None.
Proof.
  intros Hno. unfold BM25Okapi.
  destruct (forallb _ _) eqn:Hall; [done|]. exfalso.
  apply not_true_iff_false in Hall. apply Hall.
  apply forallb_forall. intros x Hx. rewrite map_map in Hx.
  apply in_map_iff in Hx as (d & <- & Hd).
  destruct (_tok (text_chunk d)) eqn:Htok; [done|].
  exfalso. apply Hno. exists d.
  split; [by apply list_elem_of_In | by rewrite Htok].
Qed.

(** X10: whatever the reranker answers, every hit [search_docs] returns
    is a chunk of the corpus read by the call.  With an empty corpus the
    result is empty and the reranker is not called; with a corpus none
    of whose chunks has a token the call raises once the corpus is read,
    and the reranker is not called either; with a corpus that has a
    token, and [0 <= k], the reranker is asked once, to rank at most
    [5 * k] candidate chunks. *)
Theorem search_docs_from_corpus (env : Env) (query : str) (k : Z)
    (w : World) :
  let docs := (get_all_docs env w).1 in
  let w1 := (get_all_docs env w).2 in
  (forall hits h,
     (search_docs env query k w).1 = Some hits -> h ∈ hits -> h ∈ docs)
  /\ (docs = [] -> search_docs env query k w = (Some [], w1))
  /\ (docs <> [] -> ~ has_token docs ->
      search_docs env query k w = (None, w1))
  /\ ((0 <= k)%Z -> has_token docs ->
      exists documents top_n,
        length documents <= Z.to_nat (5 * k)
        /\ trace (search_docs env query k w).2
           = trace w1 ++ [EvRerank query documents top_n]).
Proof.
  unfold search_docs. destruct (get_all_docs env w) as [docs w1].
  cbn [fst snd]. split; [|split; [|split]].
  - intros hits h.
    destruct (is_nil docs); [by intros [= <-] Hh%elem_of_nil|].
    destruct (BM25Okapi _) as [bm25|]; [|done]. cbn zeta.
    set (cands := lexical_candidates docs (bm25 (_tok query)) k).
    assert (forall h, h ∈ py_take k cands -> h ∈ docs) as Htake.
    { intros h' Hh. eapply lexical_candidates_elem_of.
      eapply elem_of_sublist; [done | apply py_take_sublist]. }
    destruct (rerank_search _ _ _ _) as [results|];
      [|intros [= <-]; apply Htake].
    destruct (is_nil results); [intros [= <-]; apply Htake|].
    destruct (mapM _ results) as [hits'|] eqn:Hhits;
      [|intros [= <-]; apply Htake].
    cbn [fst]. intros [= <-] Hh.
    apply mapM_Some in Hhits.
    apply list_elem_of_lookup in Hh as [i Hi].
    destruct (Forall2_lookup_r _ _ _ _ _ Hhits Hi) as (r & _ & Hr).
    eapply lexical_candidates_elem_of, py_index_elem_of, Hr.
  - by intros ->.
  - intros Hne Hno. destruct docs as [|d docs]; [done|]. cbn [is_nil].
    by rewrite (BM25Okapi_no_token _ Hno).
  - intros Hk Htok.
    assert (is_nil docs = false) as ->.
    { destruct Htok as (d & Hd & _). destruct docs; [|done].
      by apply elem_of_nil in Hd. }
    rewrite (BM25Okapi_has_token _ Htok). cbn zeta.
    eexists _, _. split; [|].
    2:{ destruct (rerank_search _ _ _ _) as [results|]; [|reflexivity].
        destruct (is_nil results); [reflexivity|].
        by destruct (mapM _ results). }
    rewrite length_map. by apply lexical_candidates_length.
Qed.

End Search.

(** ** Images *)

Lemma attachments_bound (env : Env) (post_ids : list Z) (k : Z) (w : World) :
  (0 <= k)%Z ->
  length (get_post_attachments env post_ids k w).1 <= Z.to_nat k.
Proof.
  intros Hk. unfold get_post_attachments.
  destruct (is_nil post_ids); [simpl; lia|]. cbn [fst].
  destruct (_ >? _)%Z eqn:Hgt.
  - by apply py_take_length.
  - lia.
Qed.

Lemma attachments_loop_app (env : Env) (a b : list Z) (imgs : list Img) :
  attachments_loop env (a ++ b) imgs
  = attachments_loop env b (attachments_loop env a imgs).
Proof.
  revert imgs. induction a as [|pid a IH]; intros imgs; [done|].
  simpl. apply IH.
Qed.

(** X11: a request for the attachments of one post that raises, answers
    an error status or an unreadable body is skipped: the images are
    those of the other posts, as if the post had not been asked for.
    The request is made all the same, one per post id, in order. *)
Theorem attachments_skip_failures (env : Env) (ids1 ids2 : list Z)
    (pid k : Z) (w : World) :
  fails_outright (get_attachments env pid) ->
  (get_post_attachments env (ids1 ++ pid :: ids2) k w).1
  = (get_post_attachments env (ids1 ++ ids2) k w).1
  /\ trace (get_post_attachments env (ids1 ++ pid :: ids2) k w).2
     = trace w ++ map EvGetAttachments (ids1 ++ pid :: ids2).
Proof.
  intros Hf.
  assert (forall imgs, attachments_loop env [pid] imgs = imgs) as Hskip.
  { intros imgs. simpl. destruct (get_attachments env pid) as [|st tx body];
      [done|].
    destruct Hf as [-> | ->]; [done|]. by destruct (is_error_status st). }
  assert (attachments_loop env (ids1 ++ pid :: ids2) []
          = attachments_loop env (ids1 ++ ids2) []) as Hloop.
  { rewrite !attachments_loop_app.
    change (pid :: ids2) with ([pid] ++ ids2).
    by rewrite attachments_loop_app, Hskip. }
  assert (is_nil (ids1 ++ pid :: ids2) = false) as Hnil
    by (by destruct ids1).
  unfold get_post_attachments. rewrite Hnil. cbn [fst snd]. split; [|done].
  rewrite Hloop. destruct (ids1 ++ ids2) as [|y l]; [|done].
  cbn [is_nil fst attachments_loop length].
  destruct (_ >? _)%Z; [|done].
  unfold py_take. destruct (k <? 0)%Z; apply take_nil.
Qed.

Lemma insert_by_width_perm (x : Z * str) (l : list (Z * str)) :
  insert_by_width x l ≡ₚ x :: l.
Proof.
  induction l as [|y l IH]; [done|]. simpl.
  destruct (_ <=? _)%Z; [done|]. rewrite IH. apply perm_swap.
Qed.

Lemma sort_by_width_perm (parts : list (Z * str)) :
  sort_by_width parts ≡ₚ parts.
Proof.
  induction parts as [|x parts IH]; [done|].
  unfold sort_by_width in *. simpl.
  by rewrite insert_by_width_perm, IH.
Qed.

Lemma insert_by_width_sorted (x : Z * str) (l : list (Z * str)) :
  StronglySorted (fun a b => (a.1 <= b.1)%Z) l ->
  StronglySorted (fun a b => (a.1 <= b.1)%Z) (insert_by_width x l).
Proof.
  induction 1 as [|y l Hs IH Hall]; simpl.
  - repeat constructor.
  - destruct (x.1 <=? y.1)%Z eqn:Hle.
    + apply Z.leb_le in Hle. constructor; [by constructor|].
      constructor; [done|].
      eapply Forall_impl; [exact Hall|]. intros z Hz. simpl in *. lia.
    + apply Z.leb_gt in Hle. constructor; [done|].
      rewrite insert_by_width_perm. constructor; [lia | done].
Qed.

Lemma sort_by_width_sorted (parts : list (Z * str)) :
  StronglySorted (fun a b => (a.1 <= b.1)%Z) (sort_by_width parts).
Proof.
  induction parts as [|x parts IH]; [constructor|].
  by apply insert_by_width_sorted.
Qed.

(** X12: an image entry is made for a media item of type ["image"]
    only; its caption has no tags, and its [srcset] lists the sizes that
    have a url and a non-zero width, each once, by ascending width. *)
Theorem srcset_ascending (m : RawMedia) :
  let parts := sort_by_width (srcset_parts (rm_sizes m)) in
  StronglySorted (fun a b => (a.1 <= b.1)%Z) parts
  /\ parts ≡ₚ srcset_parts (rm_sizes m)
  /\ length parts <= length (rm_sizes m)
  /\ (forall wd entry, (wd, entry) ∈ parts ->
        wd <> 0%Z
        /\ exists u, u <> [] /\ (u, wd) ∈ rm_sizes m
             /\ entry = u ++ lit " " ++ dec_Z wd ++ lit "w")
  /\ (forall img, img ∈ media_imgs m ->
        rm_media_type m = lit "image"
        /\ i_srcset img = join (lit ", ") (map snd parts)
        /\ tag_free (i_caption img)).
Proof.
  cbn zeta. split; [apply sort_by_width_sorted|].
  split; [apply sort_by_width_perm|]. split; [|split].
  - rewrite sort_by_width_perm. apply length_omap_le.
  - intros wd entry. rewrite sort_by_width_perm.
    intros ([u w'] & Hin & Hsome)%list_elem_of_omap.
    destruct u as [|c u]; [done|]. cbn [andb] in Hsome.
    destruct (w' =? 0)%Z eqn:Hw; [done|]. cbn [negb] in Hsome.
    injection Hsome as <- <-. apply Z.eqb_neq in Hw.
    split; [done|]. by exists (c :: u).
  - intros img. unfold media_imgs.
    destruct (decide _) as [Heq|_]; [|by intros H%elem_of_nil].
    intros ->%list_elem_of_singleton. cbn.
    split; [done|]. split; [done | apply strip_html_tag_free].
Qed.

Lemma insert_desc_by_key {A} (key : A -> Q) (x : A) (l : list A) :
  StronglySorted (fun a b => (key b <= key a)%Q) l ->
  StronglySorted (fun a b => (key b <= key a)%Q) (insert_desc key x l).
Proof.
  induction 1 as [|y l Hs IH Hall]; simpl.
  - repeat constructor.
  - destruct (Qle_bool (key y) (key x)) eqn:Hle.
    + apply Qle_bool_iff in Hle. constructor; [by constructor|].
      constructor; [done|].
      eapply Forall_impl; [exact Hall|]. intros z Hz. simpl in *.
      by eapply Qle_trans.
    + constructor; [done|]. rewrite insert_desc_perm.
      constructor; [|done]. apply Qnot_lt_le. intros Hlt.
      apply Qlt_le_weak, Qle_bool_iff in Hlt. congruence.
Qed.

Lemma strongly_sorted_weaken {A} (R R' : A -> A -> Prop) (l : list A) :
  (forall a b, R a b -> R' a b) ->
  StronglySorted R l -> StronglySorted R' l.
Proof.
  intros HR. induction 1 as [|x l Hs IH Hall]; constructor; [done|].
  eapply Forall_impl; [exact Hall | apply HR].
Qed.

Lemma sorted_desc_by_key {A} (key : A -> Q) (l : list A) :
  StronglySorted (fun a b => (key b <= key a)%Q) (sorted_desc key l).
Proof.
  induction l as [|x l IH]; [constructor|].
  by apply insert_desc_by_key.
Qed.

Section Images.
Context {L : PyLib}.

(** X13: the image selection of a compose call yields at most three
    images: the first three attachments of the hits' posts or, when
    there is none, the keyword fallback.  The fallback leaves the media
    cache holding the images of the media list with their scores, by
    descending score, under the old time stamp, and returns the first
    three of that list. *)
Theorem select_images_bound (env : Env) (question : str)
    (doc_hits : list Doc) (w : World) :
  length (select_images env question doc_hits w).1 <= 3
  /\ (let terms := _tok question in
      let all_imgs := (fetch_wp_media env w).1 in
      let w1 := (fetch_wp_media env w).2 in
      let w2 := (keyword_images env question w).2 in
      mc_imgs (MEDIA_CACHE w2) ≡ₚ map (score_img terms) all_imgs
      /\ StronglySorted
           (fun a b => default 0 (i_score b) <= default 0 (i_score a))
           (mc_imgs (MEDIA_CACHE w2))
      /\ mc_ts (MEDIA_CACHE w2) = mc_ts (MEDIA_CACHE w1)
      /\ (keyword_images env question w).1 = take 3 (mc_imgs (MEDIA_CACHE w2))).
Proof.
  split.
  - unfold select_images.
    pose proof (attachments_bound env (attachment_ids doc_hits) 3 w
                  ltac:(lia)) as Hb.
    destruct (get_post_attachments _ _ _ _) as [images w1]. cbn [fst] in Hb.
    destruct (is_nil images); [|cbn [fst]; lia].
    unfold keyword_images. destruct (fetch_wp_media env w1) as [imgs w2].
    cbn [fst]. pose proof (py_take_length 3 (sorted_desc
      (fun i => inject_Z (Z.of_nat (default 0 (i_score i))))
      (map (score_img (_tok question)) imgs)) ltac:(lia)). lia.
  - cbn zeta. unfold keyword_images.
    destruct (fetch_wp_media env w) as [imgs w1]. cbn [fst snd].
    split; [apply sorted_desc_perm|]. split; [|split; [done|]].
    + cbn [MEDIA_CACHE set_MEDIA_CACHE mc_imgs].
      eapply strongly_sorted_weaken; [|apply sorted_desc_by_key].
      intros a b Hab. cbn beta in Hab.
      rewrite <- Zle_Qle in Hab. lia.
    + by rewrite py_take_nonneg by lia.
Qed.

End Images.

(** ** The planner's answer *)

Section Planner.
Context {L : PyLib}.

(** X14: [cohere_plan] reads the planner's text, stripped, as JSON; when
    that fails and the text has a ["{"] before its last ["}"], it reads
    the span from the first ["{"] to the last ["}"], whatever surrounds
    it; in every other case, and when the generation or the second
    parse fails, it raises. *)
Theorem cohere_plan_span (env : Env) (prompt : str) :
  match generate env prompt with
  | None => cohere_plan env prompt = None
  | Some text =>
      match json_loads (strip text) with
      | Some plan => cohere_plan env prompt = Some plan
      | None =>
          (exists pre mid post,
             strip text = pre ++ 123%N :: mid ++ 125%N :: post
             /\ (123%N ∉ pre) /\ (125%N ∉ post)
             /\ cohere_plan env prompt
                = json_loads (123%N :: mid ++ [125%N]))
          \/ ((forall pre mid post,
                 strip text <> pre ++ 123%N :: mid ++ 125%N :: post)
              /\ cohere_plan env prompt = None)
      end
  end.
Proof.
  unfold cohere_plan. destruct (generate env prompt) as [text|]; [|done].
  cbn [mbind option_bind]. destruct (json_loads (strip text)); [done|].
  destruct (brace_cases (strip text))
    as [(pre & mid & post & i & j & Hs & Ha & Hb & -> & -> & Hij & ->)
       |[Hno Hfind]].
  - left. exists pre, mid, post. by destruct (decide _).
  - right. split; [done|].
    destruct (find_char 123 (strip text)); [|done].
    destruct (rfind_char 125 (strip text)); [|done].
    by destruct (decide _).
Qed.

End Planner.

Section Routes.
Context {L : PyLib}.

Lemma cleanup_pages_lookup (now : Z) (w : World) (pid : str) (p : Page) :
  PAGES (_cleanup_pages now w) !! pid = Some p
  <-> PAGES w !! pid = Some p /\ (now - p_ts p <= PAGES_TTL_SEC)%Z.
Proof.
  unfold _cleanup_pages. cbn [set_PAGES PAGES].
  rewrite map_lookup_filter_Some. cbn [snd]. split; intros [H1 H2].
  - split; [done | lia].
  - split; [done | lia].
Qed.



(** *** Every stored page carries its own id *)

Lemma compose_pages (env : Env) (question layout : str)
    (include_citations : bool) (brand_class primary base_url : str)
    (w : World) :
  let w' := (compose_answer_page env question layout include_citations
               brand_class primary base_url w).2 in
  PAGES w' = PAGES w
  \/ exists w1 ck title safe_title article,
       PAGES w1 = PAGES w
       /\ w' = stored env ck title
                 (page_html title safe_title article brand_class primary
                    (trace_id_for question) (token_urlsafe env) base_url) w1.
Proof.
  cbn zeta. rewrite compose_unfold. cbn zeta.
  set (ck := _cache_key _ _ _ _ _).
  set (w0 := _cleanup_answers _ w).
  destruct (memo_lookup ck w0) as [pid|] eqn:Hmemo.
  { left. by destruct (PAGES w0 !! pid). }
  pose proof (search_docs_frame env question FINAL_DOCS w0) as Hs.
  destruct (search_docs env question FINAL_DOCS w0) as [[hits|] w1];
    cbn [fst snd] in *; [|left; by destruct Hs as (-> & _)].
  destruct (is_nil hits).
  - right. unfold no_sources_plan. rewrite fallback_page_fixed by done.
    eexists _, _, _, _, _.
    split; [|cbn [snd]; reflexivity]. by destruct Hs as (-> & _).
  - assert (frame w0 (emit [EvRerank question (map text_chunk hits) 1] w1))
      as Hs2 by (eapply frame_trans; [exact Hs | apply frame_emit]).
    destruct (low_confidence _).
    + right. unfold low_confidence_plan. rewrite fallback_page_fixed by done.
      eexists _, _, _, _, _.
      split; [|cbn [snd]; reflexivity]. by destruct Hs2 as (-> & _).
    + rewrite synthesize_unfold. cbn zeta.
      set (w2 := emit _ w1) in *.
      pose proof (select_images_frame env question hits w2) as Hi.
      destruct (select_images env question hits w2) as [images w3].
      cbn [fst snd] in *.
      assert (frame w0 (emit [EvGenerate
                (build_planner_prompt question (sources_of hits) layout
                   include_citations)] w3)) as Hs3.
      { eapply frame_trans; [exact Hs2|].
        eapply frame_trans; [exact Hi | apply frame_emit]. }
      destruct (synth_page _ _ _ _ _ _ _) as [[[title art] st]|].
      * right. eexists _, _, _, _, _.
        split; [|cbn [snd]; reflexivity]. by destruct Hs3 as (-> & _).
      * left. cbn [snd]. by destruct Hs3 as (-> & _).
Qed.

Lemma step_own_page (o : Op) (w : World) :
  (forall pid p, PAGES w !! pid = Some p -> own_page pid p) ->
  forall pid p, PAGES (step o w) !! pid = Some p -> own_page pid p.
Proof.
  intros Hinv pid p.
  destruct o as [env question layout inc bc pr base | now k | now k].
  - cbn [step].
    destruct (compose_pages env question layout inc bc pr base w)
      as [-> | (w1 & ck & title & st & art & Hw1 & ->)]; [apply Hinv|].
    rewrite stored_PAGES, Hw1.
    destruct (decide (token_urlsafe env = pid)) as [<-|Hne].
    + rewrite lookup_insert_eq. intros [= <-].
      by exists st, art, bc, pr, (trace_id_for question), base.
    + rewrite lookup_insert_ne by done.
      intros [Hp _]%map_lookup_filter_Some. by eapply Hinv.
  - intros [Hp _]%cleanup_pages_lookup. by eapply Hinv.
  - intros [Hp _]%cleanup_pages_lookup. by eapply Hinv.
Qed.

(** X17: after any sequence of compose, view and download requests, every
    stored page is the page template filled with the id the page is
    stored under: no page built with the placeholder id, or with the id
    of another page, is left in the store between requests. *)
Theorem stored_pages_own (ops : list Op) (pid : str) (p : Page) :
  PAGES (run_ops ops initial_world) !! pid = Some p -> own_page pid p.
Proof.
  assert (forall w,
    (forall pid p, PAGES w !! pid = Some p -> own_page pid p) ->
    forall pid p, PAGES (run_ops ops w) !! pid = Some p -> own_page pid p)
    as Hrun.
  { induction ops as [|o ops IH]; intros w Hinv; [done|].
    cbn. apply IH. by apply step_own_page. }
  apply Hrun. intros k q Hk. cbn in Hk. by rewrite lookup_empty in Hk.
Qed.

(** *** The compose route *)





End Routes.

(** ** Concrete runs of the further properties *)

Example cohere_plan_braces :
  cohere_plan (L := brace_lib)
    (demo_env 0 id_A None (Some (lit "Here is the plan: {} Thanks.")))
    (lit "prompt")
  = Some (JObj []).
Proof. vm_compute; reflexivity. Qed.

Lemma search_docs_from_corpus_witness :
  (0 <= 2)%Z
  /\ has_token (L := demo_lib)
       (get_all_docs (offline_env 200 id_A) warm_world).1
  /\ (exists documents top_n,
        length documents <= Z.to_nat (5 * 2)
        /\ trace (search_docs (L := demo_lib) (offline_env 200 id_A)
                    (lit "services pricing") 2 warm_world).2
           = trace (get_all_docs (offline_env 200 id_A) warm_world).2
             ++ [EvRerank (lit "services pricing") documents top_n])
  /\ search_docs (L := demo_lib) (offline_env 200 id_A) (lit "services") 1
       symbols_world
     = (None, (get_all_docs (offline_env 200 id_A) symbols_world).2).
Proof.
  assert (has_token (L := demo_lib)
            (get_all_docs (offline_env 200 id_A) warm_world).1) as Htok.
  { exists (demo_doc (lit "About") (lit "about the lab and its team")).
    split; [vm_compute; constructor | vm_compute; discriminate]. }
  split; [lia|]. split; [exact Htok|]. split.
  - destruct (search_docs_from_corpus (L := demo_lib) (offline_env 200 id_A)
                (lit "services pricing") 2 warm_world) as (_ & _ & _ & H).
    exact (H ltac:(lia) Htok).
  - destruct (search_docs_from_corpus (L := demo_lib) (offline_env 200 id_A)
                (lit "services") 1 symbols_world) as (_ & _ & H & _).
    apply H; [vm_compute; discriminate|].
    intros (d & Hd & Hne). apply Hne.
    assert ((get_all_docs (offline_env 200 id_A) symbols_world).1
            = [symbols_doc]) as Hdocs by (vm_compute; reflexivity).
    rewrite Hdocs in Hd. apply list_elem_of_singleton in Hd as ->.
    vm_compute; reflexivity.
Defined.


Lemma stored_pages_own_witness :
  exists p, PAGES demo_w1 !! id_A = Some p /\ own_page (L := demo_lib) id_A p.
Proof.
  assert (is_Some (PAGES demo_w1 !! id_A)) as [p Hp]
    by (vm_compute; eexists; reflexivity).
  exists p. split; [exact Hp|].
  apply (stored_pages_own (L := demo_lib)
           [OpCompose (offline_env 0 id_A) demo_q1 demo_layout true
              demo_brand demo_primary demo_base] id_A p).
  exact Hp.
Defined.


Lemma attachments_skip_failures_witness :
  fails_outright (get_attachments (offline_env 0 id_A) 8)
  /\ (get_post_attachments (offline_env 0 id_A) [7; 8]%Z 3 initial_world).1
     = (get_post_attachments (offline_env 0 id_A) [7]%Z 3 initial_world).1.
Proof.
  split; [exact I|].
  apply (attachments_skip_failures (offline_env 0 id_A) [7%Z] [] 8 3
           initial_world I).
Defined.

(** ** Plans of the wrong shape *)

Section PlanShape.
Context {L : PyLib}.


End PlanShape.

